(** * angular-tools: the inline template and styles migration schematic

    A shallow embedding of the [migrarTemplates] schematic rule and of its
    helper functions, together with the properties of the splice, of the
    external file emitter and of the per-file fault handling.

    Three revisions of the rule are embedded, each in its own module:
    - [Index]: src/migrar-templates/index.ts (template only, comma-aware
      removal range, no fault handling);
    - [Styles]: the template-and-styles revision (comma-before removal,
      [createScssFile], per-file and traversal try/catch);
    - [Guarded]: the template-only revision with per-file and traversal
      try/catch and the comma-before removal.

    The TypeScript parser, the directory traversal and the JavaScript engine
    are collaborators of the schematic; they are gathered in the [Host]
    record and every property is stated for an arbitrary host. *)

From Stdlib Require Import Strings.Ascii Strings.String.
From stdpp Require Import base option list strings pretty gmap.

Local Open Scope string_scope.
Local Open Scope nat_scope.
Local Open Scope list_scope.
Set Warnings "-register-all".

(** ** JavaScript strings

    Source texts, paths and property names are JavaScript strings; a
    character stands for one code unit below 256. *)

Module Js.

(** [s.substring(n)] *)
Fixpoint substringFrom (n : nat) (s : string) : string :=
  match n, s with
  | 0, _ => s
  | S _, EmptyString => EmptyString
  | S n', String _ s' => substringFrom n' s'
  end.

(** [s.substring(0, n)] *)
Fixpoint substringTo (n : nat) (s : string) : string :=
  match n, s with
  | 0, _ => EmptyString
  | S _, EmptyString => EmptyString
  | S n', String c s' => String c (substringTo n' s')
  end.

(** The class [\s] of JavaScript regular expressions, on code units
    below 256: tab, line feed, vertical tab, form feed, carriage return,
    space and no-break space. *)
Definition isWhiteSpace (c : ascii) : bool :=
  let n := nat_of_ascii c in
  (Nat.leb 9 n && Nat.leb n 13) || Nat.eqb n 32 || Nat.eqb n 160.

Definition isComma (c : ascii) : bool := Nat.eqb (nat_of_ascii c) 44.

Fixpoint allWhiteSpace (s : string) : bool :=
  match s with
  | EmptyString => true
  | String c s' => isWhiteSpace c && allWhiteSpace s'
  end.

(** [s.match(/^\s*,/)]: the length of the match, when there is one. *)
Fixpoint matchCommaAfter (s : string) : option nat :=
  match s with
  | EmptyString => None
  | String c s' =>
      if isComma c then Some 1
      else if isWhiteSpace c then S <$> matchCommaAfter s'
      else None
  end.

(** [s.match(/,\s*$/)]: the length of the leftmost match, when there is
    one. The match runs from a comma to the end of the input. *)
Fixpoint matchCommaBefore (s : string) : option nat :=
  match s with
  | EmptyString => None
  | String c s' =>
      if isComma c && allWhiteSpace s' then Some (S (String.length s'))
      else matchCommaBefore s'
  end.

(** [s.endsWith(suffix)] *)
Fixpoint endsWith (s suffix : string) : bool :=
  if String.eqb s suffix then true
  else match s with
       | EmptyString => false
       | String _ s' => endsWith s' suffix
       end.

(** [s.startsWith(start)] *)
Fixpoint startsWith (s start : string) : bool :=
  match start, s with
  | EmptyString, _ => true
  | String _ _, EmptyString => false
  | String a start', String b s' => Ascii.eqb a b && startsWith s' start'
  end.

Definition newline : string := String (ascii_of_nat 10) "".

(** The last character of [s], when there is one. *)
Fixpoint lastChar (s : string) : option ascii :=
  match s with
  | EmptyString => None
  | String c EmptyString => Some c
  | String _ s' => lastChar s'
  end.

(** [parts.join(sep)] *)
Fixpoint join (sep : string) (parts : list string) : string :=
  match parts with
  | [] => ""
  | [p] => p
  | p :: rest => p +:+ sep +:+ join sep rest
  end.

End Js.

(** ** The [path] module of Node (POSIX flavour) *)

Module Path.

Definition isSlash (c : ascii) : bool := Nat.eqb (nat_of_ascii c) 47.

Fixpoint hasSlash (s : string) : bool :=
  match s with
  | EmptyString => false
  | String c s' => isSlash c || hasSlash s'
  end.

(** [p.split("/")] *)
Fixpoint segments (p : string) : list string :=
  match p with
  | EmptyString => [""]
  | String c p' =>
      if isSlash c then "" :: segments p'
      else match segments p' with
           | seg :: rest => String c seg :: rest
           | [] => [String c ""]
           end
  end.

Definition isAbsolute (p : string) : bool :=
  match p with
  | String c _ => isSlash c
  | EmptyString => false
  end.

(** One pass over the segments with a stack (most recent segment first):
    empty and [.] segments are dropped, [..] pops a segment (and is kept
    when a relative path has nothing left to pop). *)
Fixpoint resolve (absolute : bool) (stack : list string) (todo : list string)
  : list string :=
  match todo with
  | [] => reverse stack
  | seg :: todo' =>
      if String.eqb seg "" || String.eqb seg "." then resolve absolute stack todo'
      else if String.eqb seg ".." then
        match stack with
        | top :: stack' =>
            if String.eqb top ".." then resolve absolute (seg :: stack) todo'
            else resolve absolute stack' todo'
        | [] =>
            if absolute then resolve absolute [] todo'
            else resolve absolute [seg] todo'
        end
      else resolve absolute (seg :: stack) todo'
  end.

(** A segment that [normalize] keeps where it is. *)
Definition regular (name : string) : Prop :=
  hasSlash name = false ∧ name ≠ "" ∧ name ≠ "." ∧ name ≠ "..".

(** [normalize(p)], for paths without a trailing slash. *)
Definition normalize (p : string) : string :=
  match p with
  | EmptyString => "."
  | _ =>
      let body := Js.join "/" (resolve (isAbsolute p) [] (segments p)) in
      if isAbsolute p then "/" +:+ body
      else if String.eqb body "" then "." else body
  end.

(** [join(a, b)] *)
Definition join (a b : string) : string :=
  if String.eqb a "" then normalize b
  else if String.eqb b "" then normalize a
  else normalize (a +:+ "/" +:+ b).

(** The text after the last slash of [p]. *)
Definition lastSegment (p : string) : string := List.last (segments p) "".

(** [basename(p, ext)] for a path that does not end with a slash: the
    last segment, without [ext] when it ends with [ext] and is longer than
    it; the empty string when the whole path is [ext]. *)
Definition basename (p ext : string) : string :=
  let base := lastSegment p in
  if String.eqb p ext then ""
  else if Js.endsWith base ext && negb (String.eqb base ext)
  then Js.substringTo (String.length base - String.length ext) base
  else base.

(** [dirname(p)] for a path that does not end with a slash: the text
    before the last slash; [.] when there is no slash, [/] when the only
    slash opens the path and [//] when the path opens with two slashes and
    has no other. *)
Definition dirname (p : string) : string :=
  match String.length p - String.length (lastSegment p) with
  | 0 => "."
  | 1 => "/"
  | 2 => if isAbsolute p then "//" else Js.substringTo 1 p
  | S cut => Js.substringTo cut p
  end.

End Path.

(** ** The syntax tree handed out by the TypeScript parser

    Only the node kinds that the schematic tells apart are kept; every
    other kind is gathered in an [Other...] constructor. *)

Module ts.

Inductive Expression :=
| StringLiteral (text : string)
| NoSubstitutionTemplateLiteral (text : string)
| ArrayLiteralExpression (elements : list Expression)
| OtherExpression.

Inductive PropertyName :=
| Identifier (text : string)
| StringLiteralName (text : string)
| OtherPropertyName.

Inductive ElementKind :=
| PropertyAssignment (name : PropertyName) (initializer : Expression)
| ShorthandPropertyAssignment (name : string)
| SpreadAssignment
| OtherElement.

(** A member of an object literal and where it lies in the source text:
    its full start (the end of the previous token), the width of its
    leading trivia and the width from its first to its last token. The
    parser never reports a start before the full start or an end before
    the start, so the three offsets are given by one offset and two
    widths. *)
Record ObjectLiteralElement := {
  element : ElementKind;
  getFullStart : nat;
  leadingWidth : nat;
  width : nat
}.

(** [node.getStart(sourceFile)] *)
Definition getStart (node : ObjectLiteralElement) : nat :=
  getFullStart node + leadingWidth node.

(** [node.getEnd()] *)
Definition getEnd (node : ObjectLiteralElement) : nat :=
  getStart node + width node.

Record ObjectLiteralExpression := {
  properties : list ObjectLiteralElement
}.

Inductive Callee :=
| CalleeIdentifier (text : string)
| OtherCallee.

Inductive Argument :=
| ObjectLiteralArgument (o : ObjectLiteralExpression)
| OtherArgument.

(** [decorator.expression] *)
Inductive Decorator :=
| CallExpression (expression : Callee) (arguments : list Argument)
| OtherDecorator.

Inductive Node :=
| ClassDeclaration (decorators : list Decorator) (children : list Node)
| OtherNode (children : list Node).

(** The result of [ts.createSourceFile(path, content, ...)]: [text] is
    the content that was parsed. *)
Record SourceFile := {
  text : string;
  statements : list Node
}.

End ts.

(** ** The schematics devkit: virtual tree, update recorder, logger *)

Module Devkit.

(** A value thrown by JavaScript code: an [Error] instance with its
    message and stack, or any other value with its [String(...)] form. *)
Inductive Thrown :=
| ErrorInstance (message : string) (stack : option string)
| OtherValue (asString : string).

Inductive result (A : Type) :=
| Ok (a : A)
| Throw (e : Thrown).
Arguments Ok {A} a.
Arguments Throw {A} e.

(** The collaborators of the schematic. *)
Record Host := {
  (** the statements of [ts.createSourceFile(path, content, Latest, true)] *)
  parse : string → string → result (list ts.Node);
  (** the files that [tree.getDir(root).visit] hands to its visitor *)
  listFiles : string → gmap string string → result (list string);
  (** the [stack] property that the engine gives an [Error] with this
      message *)
  stackOf : string → option string;
  (** the file content that [tree.create] stores when it is handed an
      array of strings *)
  arrayAsContent : list string → string
}.

Inductive Level := info | debug | warn | error | fatal.

Inductive Event :=
| Logged (level : Level) (message : string)
| Created (path content : string)
| Overwritten (path content : string).

(** The virtual tree and everything observable that happened so far,
    most recent event last. The tree is given by its files; its
    directories are the paths that a file lies below. *)
Record World := {
  files : gmap string string;
  events : list Event
}.

(** [path] is a directory of the tree: some file lies below it. *)
Definition isDirectory (tree : gmap string string) (path : string) : bool :=
  bool_decide (map_Exists (λ q _, Js.startsWith q (path +:+ "/") = true) tree).

Definition isLogged (e : Event) : bool :=
  match e with
  | Logged _ _ => true
  | _ => false
  end.

(** Computations that read and change the world and may throw; the
    world at the time of the throw is kept. *)
Definition M (A : Type) : Type := World → result A * World.

Definition ret {A} (a : A) : M A := λ w, (Ok a, w).

Definition bind {A B} (m : M A) (k : A → M B) : M B :=
  λ w, match m w with
       | (Ok a, w') => k a w'
       | (Throw e, w') => (Throw e, w')
       end.

Definition throw {A} (e : Thrown) : M A := λ w, (Throw e, w).

Definition lift {A} (r : result A) : M A := λ w, (r, w).

(** [try { body } catch (error) { handler(error) }] *)
Definition tryCatch {A} (body : M A) (handler : Thrown → M A) : M A :=
  λ w, match body w with
       | (Ok a, w') => (Ok a, w')
       | (Throw e, w') => handler e w'
       end.

Definition emit (e : Event) : M unit :=
  λ w, (Ok tt, {| files := files w; events := events w ++ [e] |}).

Definition log (level : Level) (message : string) : M unit :=
  emit (Logged level message).

Definition quote : string := String (ascii_of_nat 34) "".

Section WithHost.
Variable host : Host.

Definition newError (message : string) : Thrown :=
  ErrorInstance message (stackOf host message).

Definition createSourceFile (path content : string) : M ts.SourceFile :=
  lift (match parse host path content with
        | Ok nodes => Ok {| ts.text := content; ts.statements := nodes |}
        | Throw e => Throw e
        end).

(** [tree.exists(path)]: whether a file is at [path]; it is false for a
    directory. *)
Definition tree_exists (path : string) : M bool :=
  λ w, (Ok (bool_decide (is_Some (files w !! path))), w).

(** [tree.read(path)] *)
Definition tree_read (path : string) : M (option string) :=
  λ w, (Ok (files w !! path), w).

(** [tree.create(path, content)]: it throws when a file or a directory
    is at [path]. *)
Definition tree_create (path content : string) : M unit :=
  λ w, match files w !! path with
       | Some _ =>
           (Throw (newError ("Path " +:+ quote +:+ path +:+ quote +:+ " already exist.")), w)
       | None =>
           if isDirectory (files w) path then
             (Throw (newError ("Path " +:+ quote +:+ path +:+ quote +:+ " already exist.")),
              w)
           else
             (Ok tt, {| files := <[path := content]> (files w);
                        events := events w ++ [Created path content] |})
       end.

(** An update recorder: the content of the file when the update began
    and the staged removals (start, length) and left insertions
    (position, text), all in the coordinates of that content. *)
Record UpdateRecorder := {
  recorderPath : string;
  original : string;
  removals : list (nat * nat);
  insertions : list (nat * string)
}.

(** [tree.beginUpdate(path)] *)
Definition tree_beginUpdate (path : string) : M UpdateRecorder :=
  λ w, match files w !! path with
       | Some content =>
           (Ok {| recorderPath := path; original := content;
                  removals := []; insertions := [] |}, w)
       | None =>
           (Throw (newError ("Path " +:+ quote +:+ path +:+ quote +:+ " does not exist.")), w)
       end.

Definition assertIndex (r : UpdateRecorder) (index : nat) : M unit :=
  if Nat.ltb (String.length (original r)) index
  then throw (newError ("Index " +:+ pretty index +:+ " outside of range [0, "
                          +:+ pretty (String.length (original r)) +:+ "]."))
  else ret tt.

(** [recorder.remove(index, length)] *)
Definition recorder_remove (r : UpdateRecorder) (index length : nat)
  : M UpdateRecorder :=
  bind (assertIndex r index) (λ _,
    if Nat.eqb length 0 then ret r
    else if Nat.ltb (String.length (original r)) (index + length)
    then throw (newError "Character is out of bounds")
    else ret {| recorderPath := recorderPath r; original := original r;
                removals := removals r ++ [(index, length)];
                insertions := insertions r |}).

(** [recorder.insertLeft(index, content)] *)
Definition recorder_insertLeft (r : UpdateRecorder) (index : nat) (content : string)
  : M UpdateRecorder :=
  bind (assertIndex r index) (λ _,
    ret {| recorderPath := recorderPath r; original := original r;
           removals := removals r;
           insertions := insertions r ++ [(index, content)] |}).

Definition isRemoved (removals : list (nat * nat)) (i : nat) : bool :=
  existsb (λ '(start, length), Nat.leb start i && Nat.ltb i (start + length)) removals.

Definition insertedAt (insertions : list (nat * string)) (i : nat) : string :=
  Js.join "" (snd <$> filter (λ ins, fst ins = i) insertions).

(** The edited text from offset [i] on, [rest] being the original text
    from that offset: the texts inserted at an offset come out at that
    offset, also when the characters around it are removed, and a
    removed character does not come out. The schematic stages every
    insertion after the removals of the same recorder. *)
Fixpoint editedFrom (removals : list (nat * nat)) (insertions : list (nat * string))
  (i : nat) (rest : string) : string :=
  match rest with
  | EmptyString => insertedAt insertions i
  | String c rest' =>
      insertedAt insertions i
        +:+ (if isRemoved removals i then "" else String c "")
        +:+ editedFrom removals insertions (S i) rest'
  end.

Definition edited (r : UpdateRecorder) : string :=
  editedFrom (removals r) (insertions r) 0 (original r).

(** [tree.commitUpdate(recorder)] *)
Definition tree_commitUpdate (r : UpdateRecorder) : M unit :=
  λ w, match files w !! recorderPath r with
       | Some content =>
           if String.eqb content (original r) then
             if String.eqb (edited r) content then (Ok tt, w)
             else (Ok tt, {| files := <[recorderPath r := edited r]> (files w);
                             events := events w ++ [Overwritten (recorderPath r) (edited r)] |})
           else
             (Throw (newError ("Content at path " +:+ quote +:+ recorderPath r +:+ quote
                                 +:+ " has changed between the start and the end of an update.")), w)
       | None =>
           (Throw (newError ("Content at path " +:+ quote +:+ recorderPath r +:+ quote
                               +:+ " has changed between the start and the end of an update.")), w)
       end.

(** [paths.forEach(visitor)] *)
Fixpoint forEach (paths : list string) (visitor : string → M unit) : M unit :=
  match paths with
  | [] => ret tt
  | path :: rest => bind (visitor path) (λ _, forEach rest visitor)
  end.

(** [tree.getDir(root).visit(visitor)]: the files are listed first and
    then handed to the visitor one by one. *)
Definition visit (root : string) (visitor : string → M unit) : M unit :=
  λ w, match listFiles host root (files w) with
       | Ok paths => forEach paths visitor w
       | Throw e => (Throw e, w)
       end.

End WithHost.

Global Instance M_ret : MRet M := @ret.
Global Instance M_bind : MBind M := λ A B k m, bind m k.

End Devkit.

Import Devkit.

(** ** The helper functions, the same in every revision *)

Module Helpers.

(** The loop over the decorators of a class declaration: the object
    literal of the first [@Component({...})] call. *)
Fixpoint componentArgument (decorators : list ts.Decorator)
  : option ts.ObjectLiteralExpression :=
  match decorators with
  | [] => None
  | ts.CallExpression (ts.CalleeIdentifier name)
      (ts.ObjectLiteralArgument o :: _) :: rest =>
      if String.eqb name "Component" then Some o else componentArgument rest
  | _ :: rest => componentArgument rest
  end.

(** [visitNode], the variable [componentDecorator] being passed in and
    out. A class declaration with the decorator sets the variable and
    returns, whatever the variable held; any other node is descended into
    only while the variable is still null. *)
Fixpoint visitNode (node : ts.Node)
  (componentDecorator : option ts.ObjectLiteralExpression)
  : option ts.ObjectLiteralExpression :=
  let forEachChild children :=
    match componentDecorator with
    | None => fold_left (λ found child, visitNode child found) children None
    | Some _ => componentDecorator
    end in
  match node with
  | ts.ClassDeclaration decorators children =>
      match componentArgument decorators with
      | Some o => Some o
      | None => forEachChild children
      end
  | ts.OtherNode children => forEachChild children
  end.

Definition findComponentDecorator (sourceFile : ts.SourceFile)
  : option ts.ObjectLiteralExpression :=
  visitNode (ts.OtherNode (ts.statements sourceFile)) None.

(** [ts.isPropertyAssignment(prop) && ts.isIdentifier(prop.name) &&
    prop.name.text === propertyName] *)
Definition isNamed (propertyName : string) (prop : ts.ObjectLiteralElement) : bool :=
  match ts.element prop with
  | ts.PropertyAssignment (ts.Identifier text) _ => String.eqb text propertyName
  | _ => false
  end.

Definition initializerOf (prop : ts.ObjectLiteralElement) : ts.Expression :=
  match ts.element prop with
  | ts.PropertyAssignment _ initializer => initializer
  | _ => ts.OtherExpression
  end.

(** [decorator.properties.some(prop => ...)] *)
Definition hasProperty (decorator : ts.ObjectLiteralExpression) (propertyName : string)
  : bool :=
  existsb (isNamed propertyName) (ts.properties decorator).

(** The literal strings: ['...'], ["..."] and [`...`] without
    substitution. *)
Definition isStringLiteral (e : ts.Expression) : bool :=
  match e with
  | ts.StringLiteral _ | ts.NoSubstitutionTemplateLiteral _ => true
  | _ => false
  end.

(** Some member of the block is a property assignment with the identifier
    [propertyName] as its name and an accepted value. *)
Definition hasLiteral (accepted : ts.Expression → bool)
  (decorator : ts.ObjectLiteralExpression) (propertyName : string) : bool :=
  existsb (λ prop, isNamed propertyName prop && accepted (initializerOf prop))
    (ts.properties decorator).

(** [getDecoratorPropertyValue] of the template-only revisions *)
Definition getDecoratorPropertyValue (decorator : ts.ObjectLiteralExpression)
  (propertyName : string) : option string :=
  match List.find (isNamed propertyName) (ts.properties decorator) with
  | Some property =>
      match initializerOf property with
      | ts.StringLiteral text | ts.NoSubstitutionTemplateLiteral text => Some text
      | _ => None
      end
  | None => None
  end.

Definition getDecoratorPropertyNode (decorator : ts.ObjectLiteralExpression)
  (propertyName : string) : option ts.ObjectLiteralElement :=
  List.find (isNamed propertyName) (ts.properties decorator).

End Helpers.

(** ** src/migrar-templates/index.ts *)

Module Index.
Import Helpers.

(** The removal range and the comma flag computed for the node of the
    [template] property (the block between the two "Logica Modificada"
    markers): [(removalStart, removalEnd, needsCommaInserted)]. *)
Definition removalRange (sourceText : string) (propertyCount : nat)
  (node : ts.ObjectLiteralElement) : nat * nat * bool :=
  let removalStart := ts.getFullStart node in
  let removalEnd := ts.getEnd node in
  let needsCommaInserted := false in
  if Nat.ltb 1 propertyCount then
    let textAfterNode := Js.substringFrom (ts.getEnd node) sourceText in
    match Js.matchCommaAfter textAfterNode with
    | Some matched => (removalStart, removalEnd + matched, true)
    | None =>
        let textBeforeNode := Js.substringTo (ts.getFullStart node) sourceText in
        match Js.matchCommaBefore textBeforeNode with
        | Some matched => (removalStart - matched, removalEnd, false)
        | None => (removalStart, removalEnd, needsCommaInserted)
        end
    end
  else (removalStart, removalEnd, needsCommaInserted).

Definition htmlFileName (filePath : string) : string :=
  Path.basename filePath ".ts" +:+ ".html".

Definition htmlFilePath (filePath : string) : string :=
  Path.normalize (Path.join (Path.dirname filePath) (htmlFileName filePath)).

Definition newTemplateUrlProperty (filePath : string) : string :=
  "templateUrl: './" +:+ htmlFileName filePath +:+ "'".

Section WithHost.
Variable host : Host.

(** The visitor handed to [tree.getDir("/").visit]. *)
Definition visitFile (filePath : string) : M unit :=
  if negb (Js.endsWith filePath ".component.ts") then mret tt else
  fileBuffer ← tree_read filePath;
  match fileBuffer with
  | None => log warn ("No se pudo leer el archivo: " +:+ filePath)
  | Some content =>
    sourceFile ← createSourceFile host filePath content;
    match findComponentDecorator sourceFile with
    | None => mret tt
    | Some componentDecorator =>
      if hasProperty componentDecorator "templateUrl" then
        log debug ("Omitiendo " +:+ filePath +:+ ": ya tiene templateUrl.")
      else
      match getDecoratorPropertyValue componentDecorator "template" with
      | None =>
          log debug ("Omitiendo " +:+ filePath +:+ ": no se encontró template inline.")
      | Some templateContent =>
        log info ("Procesando " +:+ filePath +:+ ": migrando template inline.");;
        htmlExists ← tree_exists (htmlFilePath filePath);
        (if (htmlExists : bool) then
           log warn ("El archivo HTML ya existe, se omitirá la creación: "
                       +:+ htmlFilePath filePath)
         else
           tree_create host (htmlFilePath filePath) templateContent;;
           log debug ("Creado " +:+ htmlFilePath filePath));;
        match getDecoratorPropertyNode componentDecorator "template" with
        | None =>
            log error ("Error crítico: No se encontró el nodo de la propiedad 'template' en "
                         +:+ filePath +:+ " después de obtener su contenido.")
        | Some templatePropertyNode =>
          recorder ← tree_beginUpdate host filePath;
          let '(removalStart, removalEnd, needsCommaInserted) :=
            removalRange (ts.text sourceFile)
              (length (ts.properties componentDecorator)) templatePropertyNode in
          recorder ← recorder_remove host recorder removalStart (removalEnd - removalStart);
          let textToInsert :=
            newTemplateUrlProperty filePath +:+ (if needsCommaInserted then "," else "") in
          recorder ← recorder_insertLeft host recorder
                       (ts.getStart templatePropertyNode) textToInsert;
          tree_commitUpdate host recorder;;
          log info ("Actualizado " +:+ filePath
                      +:+ ": se reemplazó 'template' por 'templateUrl'.")
        end
      end
    end
  end.

(** The rule returned by [migrarTemplates()]. *)
Definition migrarTemplates : M unit :=
  log info "Buscando componentes con templates inline...";;
  visit host "/" visitFile;;
  log info "Migración de templates inline completada.".

End WithHost.

(** *** What the visitor decides for a file, and what the splice yields *)

(** The states of a candidate path, from the guards of the visitor. *)
Inductive Decision :=
| NotCandidate                       (* the name does not end with .component.ts *)
| Unreadable                         (* [tree.read] gave null *)
| ParserFault (thrown : Thrown)      (* [ts.createSourceFile] threw *)
| NoBlock                            (* no [@Component({...})] *)
| AlreadyMigrated                    (* a [templateUrl] property *)
| NoLiteral                          (* no [template] property with a literal string *)
| Processing (componentDecorator : ts.ObjectLiteralExpression)
    (templateContent : string) (templatePropertyNode : ts.ObjectLiteralElement).

Definition decision (host : Host) (filePath : string) (fileBuffer : option string)
  : Decision :=
  if negb (Js.endsWith filePath ".component.ts") then NotCandidate else
  match fileBuffer with
  | None => Unreadable
  | Some content =>
    match parse host filePath content with
    | Throw thrown => ParserFault thrown
    | Ok nodes =>
      match findComponentDecorator {| ts.text := content; ts.statements := nodes |} with
      | None => NoBlock
      | Some componentDecorator =>
        if hasProperty componentDecorator "templateUrl" then AlreadyMigrated else
        match getDecoratorPropertyValue componentDecorator "template",
              getDecoratorPropertyNode componentDecorator "template" with
        | Some templateContent, Some node => Processing componentDecorator templateContent node
        | _, _ => NoLiteral
        end
      end
    end
  end.

(** The states in which the visitor returns and leaves the tree as it
    is. *)
Definition settled (d : Decision) : bool :=
  match d with
  | NotCandidate | Unreadable | NoBlock | AlreadyMigrated | NoLiteral => true
  | ParserFault _ | Processing _ _ _ => false
  end.

(** Every unit of the tree is in a settled state. *)
Definition allSettled (host : Host) (tree : gmap string string) : Prop :=
  ∀ q c, tree !! q = Some c → settled (decision host q (Some c)) = true.

(** What holds of the tree while a run that started on [tree0] has [rest]
    to visit: a unit is still to be visited with the content it had at the
    start, or it is settled. *)
Definition pending (host : Host) (tree0 : gmap string string) (rest : list string)
  (tree : gmap string string) : Prop :=
  ∀ q c, tree !! q = Some c →
    (q ∈ rest ∧ tree0 !! q = Some c)
    ∨ settled (decision host q (Some c)) = true.

(** The text inserted for a node and the text of the unit once the
    removal range is replaced by it. *)
Definition textToInsert (filePath content : string)
  (componentDecorator : ts.ObjectLiteralExpression) (node : ts.ObjectLiteralElement)
  : string :=
  let '(_, _, needsCommaInserted) :=
    removalRange content (length (ts.properties componentDecorator)) node in
  newTemplateUrlProperty filePath +:+ (if needsCommaInserted then "," else "").

Definition rewritten (filePath content : string)
  (componentDecorator : ts.ObjectLiteralExpression) (node : ts.ObjectLiteralElement)
  : string :=
  let '(removalStart, removalEnd, _) :=
    removalRange content (length (ts.properties componentDecorator)) node in
  Js.substringTo removalStart content
    +:+ textToInsert filePath content componentDecorator node
    +:+ Js.substringFrom removalEnd content.

(** The events of the emitter on a tree. *)
Definition emitterEvents (filePath templateContent : string) (tree : gmap string string)
  : list Event :=
  Logged info ("Procesando " +:+ filePath +:+ ": migrando template inline.")
  :: match tree !! htmlFilePath filePath with
     | Some _ =>
         [Logged warn ("El archivo HTML ya existe, se omitirá la creación: "
                         +:+ htmlFilePath filePath)]
     | None =>
         [Created (htmlFilePath filePath) templateContent;
          Logged debug ("Creado " +:+ htmlFilePath filePath)]
     end.

(** The events of the commit of a unit. *)
Definition commitEvents (filePath content newContent : string) : list Event :=
  (if String.eqb newContent content then [] else [Overwritten filePath newContent])
  ++ [Logged info ("Actualizado " +:+ filePath
                     +:+ ": se reemplazó 'template' por 'templateUrl'.")].

(** The tree once the external file is emitted, when the emitter does
    not throw: the file is created unless its path exists. *)
Definition emitted (path content : string) (tree : gmap string string)
  : gmap string string :=
  match tree !! path with
  | Some _ => tree
  | None => <[path := content]> tree
  end.

(** The emitter does not throw at [path]: a file is at [path], and then
    nothing is created, or [path] is no directory of the tree. *)
Definition emittable (tree : gmap string string) (path : string) : bool :=
  bool_decide (is_Some (tree !! path)) || negb (isDirectory tree path).

End Index.

(** ** What a run may do to the files that exist when it starts *)

Module Frame.

Definition isCandidate (path : string) : bool := Js.endsWith path ".component.ts".

(** From [w] to [w']: events are only added; a file of [w] is still there,
    with the same content unless it is a candidate unit that was rewritten
    (its content is then the one of an [Overwritten] event); a file is
    created only at a path that [w] does not have. *)
Definition preserved (w w' : World) : Prop :=
  ∃ evs : list Event, events w' = (events w ++ evs)%list
    ∧ (∀ q c, files w !! q = Some c →
         files w' !! q = Some c
         ∨ (isCandidate q = true
            ∧ ∃ c', files w' !! q = Some c' ∧ Overwritten q c' ∈ evs))
    ∧ (∀ q c, Created q c ∈ evs → files w !! q = None).

End Frame.

(** ** What the two guarded revisions share: the catch handlers *)

Module Faults.

(** The lines that a catch block logs under its heading. *)
Definition lines (thrown : Thrown) : list string :=
  match thrown with
  | ErrorInstance message stack =>
      ("  Message: " +:+ message)
      :: match stack with
         | Some trace => if String.eqb trace "" then [] else ["  Stack: " +:+ trace]
         | None => []
         end
  | OtherValue asString => ["  Error: " +:+ asString]
  end.

(** The body of a catch block: the heading, then the message and the
    stack of an [Error] (the stack when it is a non-empty string), or
    the [String(...)] form of any other value. *)
Definition report (level : Level) (heading : string) (thrown : Thrown) : M unit :=
  log level heading;;
  match thrown with
  | ErrorInstance message stack =>
      log level ("  Message: " +:+ message);;
      match stack with
      | Some trace =>
          if String.eqb trace "" then mret tt
          else log level ("  Stack: " +:+ trace)
      | None => mret tt
      end
  | OtherValue asString => log level ("  Error: " +:+ asString)
  end.

End Faults.

(** ** The template-and-styles revision *)

Module Styles.
Import Helpers.

(** What [getDecoratorPropertyValue] returns in this revision: a string
    or an array of strings. *)
Inductive PropertyValue :=
| Text (value : string)
| Texts (values : list string).

(** The values that this revision extracts: literal strings and array
    literals. *)
Definition isLiteral (e : ts.Expression) : bool :=
  match e with
  | ts.ArrayLiteralExpression _ => true
  | _ => isStringLiteral e
  end.

(** The literal values in the words of the spec: a literal string, or a
    list whose every element is a literal string. *)
Definition specLiteral (e : ts.Expression) : bool :=
  match e with
  | ts.ArrayLiteralExpression elements => forallb isStringLiteral elements
  | _ => isStringLiteral e
  end.

Definition elementText (element : ts.Expression) : string :=
  match element with
  | ts.StringLiteral text | ts.NoSubstitutionTemplateLiteral text => text
  | _ => ""
  end.

Definition getDecoratorPropertyValue (decorator : ts.ObjectLiteralExpression)
  (propertyName : string) : option PropertyValue :=
  match List.find (isNamed propertyName) (ts.properties decorator) with
  | Some property =>
      match initializerOf property with
      | ts.StringLiteral text | ts.NoSubstitutionTemplateLiteral text => Some (Text text)
      | ts.ArrayLiteralExpression elements => Some (Texts (elementText <$> elements))
      | _ => None
      end
  | None => None
  end.

Definition scssFileName (componentBaseName : string) (index : nat) : string :=
  if Nat.eqb index 0 then componentBaseName +:+ ".scss"
  else componentBaseName +:+ "-" +:+ pretty (index + 1) +:+ ".scss".

Definition scssFilePath (componentDir componentBaseName : string) (index : nat) : string :=
  Path.normalize (Path.join componentDir (scssFileName componentBaseName index)).

(** The "safe removal range" of both migrations:
    [(removalStart, removalEnd)]. *)
Definition removalRange (content : string) (node : ts.ObjectLiteralElement) : nat * nat :=
  let fileLength := String.length content in
  let removalStart := Nat.max 0 (ts.getFullStart node) in
  let removalEnd := Nat.min fileLength (ts.getEnd node) in
  let textBeforeNode := Js.substringTo removalStart content in
  match Js.matchCommaBefore textBeforeNode with
  | Some matched => (Nat.max 0 (removalStart - matched), removalEnd)
  | None => (removalStart, removalEnd)
  end.

Definition htmlFileName (filePath : string) : string :=
  Path.basename filePath ".ts" +:+ ".html".

Definition htmlFilePath (filePath : string) : string :=
  Path.normalize (Path.join (Path.dirname filePath) (htmlFileName filePath)).

Section WithHost.
Variable host : Host.

(** [tree.create(path, content)] for a value that the source casts to
    a string. *)
Definition contentOf (value : PropertyValue) : string :=
  match value with
  | Text text => text
  | Texts texts => arrayAsContent host texts
  end.

Definition createScssFile (componentDir componentBaseName content : string)
  (index : nat) : M string :=
  let scssFileName := scssFileName componentBaseName index in
  let scssFilePath := Path.normalize (Path.join componentDir scssFileName) in
  let relativeScssPath := "./" +:+ scssFileName in
  scssExists ← tree_exists scssFilePath;
  (if (scssExists : bool) then mret tt
   else tree_create host scssFilePath content);;
  mret relativeScssPath.

(** [styles.map((style, index) => createScssFile(..., style, index))],
    [index] being the index of the first element of [styles]. *)
Fixpoint createScssFiles (componentDir componentBaseName : string)
  (styles : list string) (index : nat) : M (list string) :=
  match styles with
  | [] => mret []
  | style :: rest =>
      url ← createScssFile componentDir componentBaseName style index;
      urls ← createScssFiles componentDir componentBaseName rest (S index);
      mret (url :: urls)
  end.

(** The block under "Handle template migration". *)
Definition migrateTemplate (filePath content : string)
  (componentDecorator : ts.ObjectLiteralExpression) : M unit :=
  if hasProperty componentDecorator "templateUrl" then mret tt else
  match getDecoratorPropertyValue componentDecorator "template" with
  | None => mret tt
  | Some templateContent =>
    htmlExists ← tree_exists (htmlFilePath filePath);
    (if (htmlExists : bool) then mret tt
     else tree_create host (htmlFilePath filePath) (contentOf templateContent));;
    match getDecoratorPropertyNode componentDecorator "template" with
    | None => mret tt
    | Some templatePropertyNode =>
      recorder ← tree_beginUpdate host filePath;
      let fileLength := String.length content in
      let '(removalStart, removalEnd) := removalRange content templatePropertyNode in
      if Nat.ltb removalStart fileLength && Nat.leb removalEnd fileLength then
        recorder ← recorder_remove host recorder removalStart (removalEnd - removalStart);
        let textToInsert :=
          "," +:+ Js.newline +:+ "  templateUrl: './" +:+ htmlFileName filePath +:+ "'" in
        recorder ← recorder_insertLeft host recorder removalStart textToInsert;
        tree_commitUpdate host recorder
      else
        log warn ("  ⚠️ Skipping template update for " +:+ filePath
                    +:+ ": Invalid removal range")
    end
  end.

(** The block under "Handle styles migration". *)
Definition migrateStyles (filePath content : string)
  (componentDecorator : ts.ObjectLiteralExpression) : M unit :=
  if hasProperty componentDecorator "styleUrls" then mret tt else
  match getDecoratorPropertyValue componentDecorator "styles" with
  | None => mret tt
  | Some stylesContent =>
    let componentDir := Path.dirname filePath in
    let componentBaseName := Path.basename filePath ".ts" in
    match getDecoratorPropertyNode componentDecorator "styles" with
    | None => mret tt
    | Some stylesPropertyNode =>
      recorder ← tree_beginUpdate host filePath;
      let fileLength := String.length content in
      let '(removalStart, removalEnd) := removalRange content stylesPropertyNode in
      if Nat.ltb removalStart fileLength && Nat.leb removalEnd fileLength then
        recorder ← recorder_remove host recorder removalStart (removalEnd - removalStart);
        recorder ←
          match stylesContent with
          | Texts styles =>
              styleUrls ← createScssFiles componentDir componentBaseName styles 0;
              let textToInsert :=
                "," +:+ Js.newline +:+ "  styleUrls: ["
                    +:+ Js.join ", " ((λ url, "'" +:+ url +:+ "'") <$> styleUrls) +:+ "]" in
              recorder_insertLeft host recorder removalStart textToInsert
          | Text style =>
              scssPath ← createScssFile componentDir componentBaseName style 0;
              let textToInsert :=
                "," +:+ Js.newline +:+ "  styleUrls: ['" +:+ scssPath +:+ "']" in
              recorder_insertLeft host recorder removalStart textToInsert
          end;
        tree_commitUpdate host recorder
      else
        log warn ("  ⚠️ Skipping styles update for " +:+ filePath
                    +:+ ": Invalid removal range")
    end
  end.

(** The body of the per-file [try]. *)
Definition processFile (filePath : string) : M unit :=
  if negb (Js.endsWith filePath ".component.ts") then
    log debug "  ➡️ Skipping (not a .component.ts file)"
  else
  fileBuffer ← tree_read filePath;
  match fileBuffer with
  | None => log warn ("  ⚠️ Could not read file: " +:+ filePath)
  | Some content =>
    sourceFile ← createSourceFile host filePath content;
    match findComponentDecorator sourceFile with
    | None => log debug "  ❌ @Component decorator not found or non-standard. Skipping."
    | Some componentDecorator =>
        migrateTemplate filePath content componentDecorator;;
        migrateStyles filePath content componentDecorator
    end
  end.

(** The visitor: the body and its catch block. *)
Definition visitFile (filePath : string) : M unit :=
  tryCatch (processFile filePath)
    (Faults.report error ("💥 Error processing file " +:+ filePath +:+ ":")).

Definition migrarTemplates : M unit :=
  log info "🚀 Starting search for components with inline templates and styles...";;
  tryCatch (visit host "/src" visitFile)
    (λ thrown,
       Faults.report fatal "❌ Fatal error starting file traversal:" thrown;;
       throw thrown);;
  log info (Js.newline +:+ "🏁 Inline template and styles migration completed.").

End WithHost.

End Styles.

(** ** The template-only revision with fault handling *)

Module Guarded.
Import Helpers.

(** The removal range: the node with its leading trivia and, when the
    text before it ends with a comma and white space, that comma too. *)
Definition removalRange (sourceText : string) (node : ts.ObjectLiteralElement) : nat * nat :=
  let removalStart := ts.getFullStart node in
  let removalEnd := ts.getEnd node in
  let textBeforeNode := Js.substringTo (ts.getFullStart node) sourceText in
  match Js.matchCommaBefore textBeforeNode with
  | Some matched => (removalStart - matched, removalEnd)
  | None => (removalStart, removalEnd)
  end.

Definition htmlFileName (filePath : string) : string :=
  Path.basename filePath ".ts" +:+ ".html".

Definition htmlFilePath (filePath : string) : string :=
  Path.normalize (Path.join (Path.dirname filePath) (htmlFileName filePath)).

Definition newTemplateUrlProperty (filePath : string) : string :=
  "templateUrl: './" +:+ htmlFileName filePath +:+ "'".

Section WithHost.
Variable host : Host.

(** The body of the per-file [try]. *)
Definition processFile (filePath : string) : M unit :=
  log info (Js.newline +:+ "🔍 Analyzing file: " +:+ filePath);;
  if negb (Js.endsWith filePath ".component.ts") then
    log debug "  ➡️ Skipping (not a .component.ts file)"
  else
  log debug "  ✅ It's a .component.ts file, continuing...";;
  fileBuffer ← tree_read filePath;
  match fileBuffer with
  | None => log warn ("  ⚠️ Could not read file: " +:+ filePath)
  | Some content =>
    log debug "  📄 File read successfully.";;
    sourceFile ← createSourceFile host filePath content;
    log debug "  🌳 File parsed into TypeScript AST.";;
    log debug "  🔎 Searching for @Component decorator...";;
    match findComponentDecorator sourceFile with
    | None => log debug "  ❌ @Component decorator not found or non-standard. Skipping."
    | Some componentDecorator =>
      log debug "  👍 @Component decorator found.";;
      log debug "  🔎 Checking if 'templateUrl' already exists...";;
      if hasProperty componentDecorator "templateUrl" then
        log info ("  ➡️ Skipping " +:+ filePath +:+ ": already has 'templateUrl'.")
      else
      log debug "  👍 Does not have 'templateUrl', searching for inline 'template'...";;
      match getDecoratorPropertyValue componentDecorator "template" with
      | None =>
          log info ("  ➡️ Skipping " +:+ filePath
                      +:+ ": inline 'template' property not found.")
      | Some templateContent =>
        log debug "  👍 'template' property found with content.";;
        log info ("  ✨ Processing " +:+ filePath
                    +:+ ": Migrating inline template to external file.");;
        log debug "    📝 Determining path for the new HTML file...";;
        log debug ("    📂 HTML file path: " +:+ htmlFilePath filePath);;
        log debug ("    🔗 Relative path for templateUrl: ./" +:+ htmlFileName filePath);;
        log debug "    🔎 Checking if the HTML file already exists...";;
        htmlExists ← tree_exists (htmlFilePath filePath);
        (if (htmlExists : bool) then
           log warn ("    ⚠️ HTML file already exists, creation will be skipped: "
                       +:+ htmlFilePath filePath)
         else
           log debug ("    ➕ Creating HTML file: " +:+ htmlFilePath filePath +:+ "...");;
           tree_create host (htmlFilePath filePath) templateContent;;
           log debug "    ✅ HTML file created.");;
        log debug ("    🔄 Updating TypeScript file (" +:+ filePath +:+ ")...");;
        match getDecoratorPropertyNode componentDecorator "template" with
        | None =>
            log error ("    ❌ Critical error: Could not find the 'template' property node in "
                         +:+ filePath +:+ " after getting its content. Skipping update.")
        | Some templatePropertyNode =>
          log debug "    👍 'template' property node found.";;
          log debug ("    🔧 Building new property: " +:+ newTemplateUrlProperty filePath);;
          recorder ← tree_beginUpdate host filePath;
          log debug "    📐 Calculating range to remove 'template' property and handle commas...";;
          let '(removalStart, removalEnd) :=
            removalRange (ts.text sourceFile) templatePropertyNode in
          log debug ("    ➖ Removing 'template' property (range " +:+ pretty removalStart
                       +:+ " - " +:+ pretty removalEnd +:+ ")...");;
          recorder ← recorder_remove host recorder removalStart (removalEnd - removalStart);
          let textToInsert :=
            "," +:+ Js.newline +:+ "  " +:+ newTemplateUrlProperty filePath in
          log debug ("    ➕ Inserting new property '" +:+ textToInsert +:+ "' at position "
                       +:+ pretty (ts.getStart templatePropertyNode) +:+ "...");;
          recorder ← recorder_insertLeft host recorder
                       (ts.getStart templatePropertyNode) textToInsert;
          log debug "    💾 Applying changes to the file...";;
          tree_commitUpdate host recorder;;
          log info ("  ✅ Updated " +:+ filePath
                      +:+ ": replaced 'template' with 'templateUrl'.")
        end
      end
    end
  end.

Definition visitFile (filePath : string) : M unit :=
  tryCatch (processFile filePath)
    (Faults.report error ("💥 Error processing file " +:+ filePath +:+ ":")).

Definition migrarTemplates : M unit :=
  log info "🚀 Starting search for components with inline templates...";;
  tryCatch (visit host "/src" visitFile)
    (λ thrown,
       Faults.report fatal "❌ Fatal error starting file traversal:" thrown;;
       throw thrown);;
  log info (Js.newline +:+ "🏁 Inline template migration (potentially) completed.").

End WithHost.

End Guarded.

(** ** Laid-out component files

    A component file is described by the text before the configuration
    block, the members of the block, each with its leading trivia, its
    source text and the text between its end and the next separator, and the
    text after the block. [fileText] writes the file out and [members]
    gives the nodes with the offsets the parser reports for that text. *)

Module Layout.

Record Entry := {
  leading : string;          (* trivia between the previous token and the member *)
  source : string;           (* the member, from its first to its last token *)
  kind : ts.ElementKind;     (* what the parser makes of [source] *)
  gap : string               (* trivia between the member and the next token *)
}.

Record Block := {
  entries : list Entry;
  trailingComma : bool;      (* a separator after the last member *)
  closing : string           (* trivia before the closing brace *)
}.

Definition entryText (e : Entry) : string := leading e +:+ source e +:+ gap e.

Fixpoint entriesText (es : list Entry) : string :=
  match es with
  | [] => ""
  | [e] => entryText e
  | e :: rest => entryText e +:+ "," +:+ entriesText rest
  end.

Definition blockText (b : Block) : string :=
  "{" +:+ entriesText (entries b)
      +:+ (if trailingComma b then "," else "") +:+ closing b +:+ "}".

(** The node of a member that has its full start at [pos], and the nodes
    of the members when the first one has its full start at [pos]. *)
Definition nodeOf (pos : nat) (e : Entry) : ts.ObjectLiteralElement :=
  {| ts.element := kind e; ts.getFullStart := pos;
     ts.leadingWidth := String.length (leading e);
     ts.width := String.length (source e) |}.

Fixpoint members (pos : nat) (es : list Entry) : list ts.ObjectLiteralElement :=
  match es with
  | [] => []
  | e :: rest => nodeOf pos e :: members (pos + String.length (entryText e) + 1) rest
  end.

(** The text of the members before a member and the separator that ends
    them, and the separator and the text of the members after it. *)
Definition textBefore (es : list Entry) : string :=
  match es with
  | [] => ""
  | _ => entriesText es +:+ ","
  end.

Definition textAfter (es : list Entry) : string :=
  match es with
  | [] => ""
  | _ => "," +:+ entriesText es
  end.

(** The member is a property assignment with the identifier [name] as its
    name. *)
Definition named (name : string) (e : Entry) : bool :=
  match kind e with
  | ts.PropertyAssignment (ts.Identifier text) _ => String.eqb text name
  | _ => false
  end.

Record File := {
  before : string;           (* up to the opening brace of the block *)
  block : Block;
  after : string             (* from the closing brace of the block on *)
}.

Definition fileText (f : File) : string :=
  before f +:+ blockText (block f) +:+ after f.

Definition decorator (f : File) : ts.ObjectLiteralExpression :=
  {| ts.properties := members (String.length (before f) + 1) (entries (block f)) |}.

(** The same file with other members in its block. *)
Definition withEntries (f : File) (es : list Entry) : File :=
  {| before := before f;
     block := {| entries := es; trailingComma := trailingComma (block f);
                 closing := closing (block f) |};
     after := after f |}.

(** The member that index.ts writes for the unit at [filePath], followed
    by the trivia [trivia]. *)
Definition reference (filePath trivia : string) : Entry :=
  {| leading := ""; source := Index.newTemplateUrlProperty filePath;
     kind := ts.PropertyAssignment (ts.Identifier "templateUrl")
               (ts.StringLiteral ("./" +:+ Index.htmlFileName filePath));
     gap := trivia |}.

(** The node of the member [e] that follows the members [es1] in the block
    of [f]. *)
Definition memberNode (f : File) (es1 : list Entry) (e : Entry)
  : ts.ObjectLiteralElement :=
  nodeOf (String.length (before f +:+ "{" +:+ textBefore es1)) e.

(** The text from the separator or the trivia after the last member on. *)
Definition blockEnd (f : File) : string :=
  (if trailingComma (block f) then "," else "")
    +:+ closing (block f) +:+ "}" +:+ after f.

(** A file with one class carrying [@Component(<block>)]. *)
Definition fileNodes (f : File) : list ts.Node :=
  [ts.ClassDeclaration
     [ts.CallExpression (ts.CalleeIdentifier "Component")
        [ts.ObjectLiteralArgument (decorator f)]]
     []].

(** The parser reads the text of [f] at [filePath] as a file in which
    the search finds the block of [f], with its members where [f] has
    them; the file may have any other statements. *)
Definition parsedAs (host : Host) (filePath : string) (f : File) : Prop :=
  ∃ nodes,
    parse host filePath (fileText f) = Ok nodes
    ∧ Helpers.findComponentDecorator
        {| ts.text := fileText f; ts.statements := nodes |} = Some (decorator f).

End Layout.

(** ** Concrete hosts and files *)

Module Examples.
Import Layout.

(** What the tree stores for an array of strings none of which is a
    numeral: one NUL character per element. *)
Definition nulPerElement (texts : list string) : string :=
  Js.join "" ((λ _, String (ascii_of_nat 0) "") <$> texts).

(** A parser that knows the given files by their text and finds no class
    in any other text, a traversal that lists the given paths, an engine
    without stack traces; the arrays of the examples hold no numerals. *)
Definition tableHost (known : list File) (paths : list string) : Host :=
  {| parse := λ _ content,
       match List.find (λ f, String.eqb (fileText f) content) known with
       | Some f => Ok (fileNodes f)
       | None => Ok []
       end;
     listFiles := λ _ _, Ok paths;
     stackOf := λ _, None;
     arrayAsContent := nulPerElement |}.

Definition componentFile (b : Block) : File :=
  {| before := "@Component("; block := b;
     after := ")" +:+ Js.newline +:+ "export class X {}" |}.

Definition selectorX : Entry :=
  {| leading := " "; source := "selector: 'x'";
     kind := ts.PropertyAssignment (ts.Identifier "selector") (ts.StringLiteral "x");
     gap := "" |}.

Definition templateHi : Entry :=
  {| leading := " "; source := "template: '<p>hi</p>'";
     kind := ts.PropertyAssignment (ts.Identifier "template") (ts.StringLiteral "<p>hi</p>");
     gap := "" |}.

(** Scenario A: [{ selector: 'x', template: '<p>hi</p>' }] *)
Definition scenarioA : File :=
  componentFile {| entries := [selectorX; templateHi];
                   trailingComma := false; closing := " " |}.

(** [{ template: '<p>hi</p>', selector: 'x' }] *)
Definition templateFirst : File :=
  componentFile {| entries := [templateHi; selectorX];
                   trailingComma := false; closing := " " |}.

Definition templateUrlReference : Entry :=
  {| leading := ""; source := "templateUrl: './x.component.html'";
     kind := ts.PropertyAssignment (ts.Identifier "templateUrl")
               (ts.StringLiteral "./x.component.html");
     gap := "" |}.

(** [{templateUrl: './x.component.html', selector: 'x' }], the text that
    index.ts leaves for [templateFirst]. *)
Definition templateFirstMigrated : File :=
  componentFile {| entries := [templateUrlReference; selectorX];
                   trailingComma := false; closing := " " |}.

(** [{ SEL, template: 'a' /* c */, template: 'b' }]: a shorthand member,
    a [template] member with a comment between it and the separator, and
    a second [template] member. *)
Definition shorthandSEL : Entry :=
  {| leading := " "; source := "SEL";
     kind := ts.ShorthandPropertyAssignment "SEL";
     gap := "" |}.

Definition templateA : Entry :=
  {| leading := " "; source := "template: 'a'";
     kind := ts.PropertyAssignment (ts.Identifier "template") (ts.StringLiteral "a");
     gap := " /* c */" |}.

Definition templateB : Entry :=
  {| leading := " "; source := "template: 'b'";
     kind := ts.PropertyAssignment (ts.Identifier "template") (ts.StringLiteral "b");
     gap := "" |}.

Definition twoTemplates : File :=
  componentFile {| entries := [shorthandSEL; templateA; templateB];
                   trailingComma := false; closing := " " |}.

(** [{ SELtemplateUrl: './x.component.html' /* c */, template: 'b' }]:
    the identifier [SEL] and the name [templateUrl] written after it
    without a separator are one identifier. *)
Definition gluedReference : Entry :=
  {| leading := " "; source := "SELtemplateUrl: './x.component.html'";
     kind := ts.PropertyAssignment (ts.Identifier "SELtemplateUrl")
               (ts.StringLiteral "./x.component.html");
     gap := " /* c */" |}.

Definition twoTemplatesGlued : File :=
  componentFile {| entries := [gluedReference; templateB];
                   trailingComma := false; closing := " " |}.

Definition templateUrlStringKey : Entry :=
  {| leading := " "; source := "'templateUrl': './a.html'";
     kind := ts.PropertyAssignment (ts.StringLiteralName "templateUrl")
               (ts.StringLiteral "./a.html");
     gap := "" |}.

(** [{ template: '<p>hi</p>', 'templateUrl': './a.html' }] *)
Definition stringKeyed : File :=
  componentFile {| entries := [templateHi; templateUrlStringKey];
                   trailingComma := false; closing := " " |}.

Definition templateIdentifier : Entry :=
  {| leading := " "; source := "template: markup";
     kind := ts.PropertyAssignment (ts.Identifier "template") ts.OtherExpression;
     gap := "" |}.

(** [{ selector: 'x', template: markup }] *)
Definition templateFromIdentifier : File :=
  componentFile {| entries := [selectorX; templateIdentifier];
                   trailingComma := false; closing := " " |}.

Definition templateLong : Entry :=
  {| leading := " ";
     source := "template: '<section><h1>Ideas</h1><p>Your ideas will be displayed here.</p></section>'";
     kind := ts.PropertyAssignment (ts.Identifier "template")
               (ts.StringLiteral
                  "<section><h1>Ideas</h1><p>Your ideas will be displayed here.</p></section>");
     gap := "" |}.

Definition stylesIdentifier : Entry :=
  {| leading := " "; source := "styles: cssText";
     kind := ts.PropertyAssignment (ts.Identifier "styles") ts.OtherExpression;
     gap := "" |}.

(** [{ selector: 'x', styles: cssText }] *)
Definition stylesFromIdentifier : File :=
  componentFile {| entries := [selectorX; stylesIdentifier];
                   trailingComma := false; closing := " " |}.

Definition stylesArrayOfIdentifier : Entry :=
  {| leading := " "; source := "styles: [shared]";
     kind := ts.PropertyAssignment (ts.Identifier "styles")
               (ts.ArrayLiteralExpression [ts.OtherExpression]);
     gap := "" |}.

(** [{ selector: 'x', styles: [shared] }] *)
Definition stylesFromArrayOfIdentifier : File :=
  componentFile {| entries := [selectorX; stylesArrayOfIdentifier];
                   trailingComma := false; closing := " " |}.

Definition stylesLiteral : Entry :=
  {| leading := " "; source := "styles: 'a{}'";
     kind := ts.PropertyAssignment (ts.Identifier "styles") (ts.StringLiteral "a{}");
     gap := "" |}.

(** [{ selector: 'x', styles: 'a{}' }] *)
Definition stylesOnly : File :=
  componentFile {| entries := [selectorX; stylesLiteral];
                   trailingComma := false; closing := " " |}.

(** [{ template: '<section>...</section>', styles: 'a{}' }] *)
Definition templateAndStyles : File :=
  componentFile {| entries := [templateLong; stylesLiteral];
                   trailingComma := false; closing := " " |}.

(** A host whose parser throws on the file at [faulty] and whose traversal
    lists [paths]. *)
Definition faultyParserHost (faulty : string) (known : list File) (paths : list string)
  : Host :=
  {| parse := λ path content,
       if String.eqb path faulty
       then Throw (ErrorInstance "Maximum call stack size exceeded" None)
       else parse (tableHost known paths) path content;
     listFiles := λ _ _, Ok paths;
     stackOf := λ _, None;
     arrayAsContent := nulPerElement |}.

(** A host whose traversal throws. *)
Definition faultyTraversalHost : Host :=
  {| parse := λ _ _, Ok [];
     listFiles := λ _ _, Throw (ErrorInstance "EACCES: permission denied" None);
     stackOf := λ _, None;
     arrayAsContent := nulPerElement |}.

Definition worldOf (fs : list (string * string)) : World :=
  {| files := list_to_map fs; events := [] |}.

Fixpoint countCommas (s : string) : nat :=
  match s with
  | EmptyString => 0
  | String c s' => (if Js.isComma c then 1 else 0) + countCommas s'
  end.

End Examples.

(** ** The copy of index.ts with English messages

    It logs one more message per file; the paths, the removal range and
    the inserted text are computed as in index.ts. *)

Module Reviewed.
Import Helpers.

Section WithHost.
Variable host : Host.

(** The visitor handed to [tree.getDir("/").visit]. *)
Definition visitFile (filePath : string) : M unit :=
  log info ("Reviewing " +:+ filePath);;
  if negb (Js.endsWith filePath ".component.ts") then mret tt else
  fileBuffer ← tree_read filePath;
  match fileBuffer with
  | None => log warn ("Could not read file: " +:+ filePath)
  | Some content =>
    sourceFile ← createSourceFile host filePath content;
    match findComponentDecorator sourceFile with
    | None => mret tt
    | Some componentDecorator =>
      if hasProperty componentDecorator "templateUrl" then
        log debug ("Skipping " +:+ filePath +:+ ": already has templateUrl.")
      else
      match getDecoratorPropertyValue componentDecorator "template" with
      | None =>
          log debug ("Skipping " +:+ filePath +:+ ": inline template not found.")
      | Some templateContent =>
        log info ("Processing " +:+ filePath +:+ ": migrating inline template.");;
        htmlExists ← tree_exists (Index.htmlFilePath filePath);
        (if (htmlExists : bool) then
           log warn ("HTML file already exists, creation will be skipped: "
                       +:+ Index.htmlFilePath filePath)
         else
           tree_create host (Index.htmlFilePath filePath) templateContent;;
           log debug ("Created " +:+ Index.htmlFilePath filePath));;
        match getDecoratorPropertyNode componentDecorator "template" with
        | None =>
            log error ("Critical error: Could not find the 'template' property node in "
                         +:+ filePath +:+ " after getting its content.")
        | Some templatePropertyNode =>
          recorder ← tree_beginUpdate host filePath;
          let '(removalStart, removalEnd, needsCommaInserted) :=
            Index.removalRange (ts.text sourceFile)
              (length (ts.properties componentDecorator)) templatePropertyNode in
          recorder ← recorder_remove host recorder removalStart (removalEnd - removalStart);
          let textToInsert :=
            Index.newTemplateUrlProperty filePath
              +:+ (if needsCommaInserted then "," else "") in
          recorder ← recorder_insertLeft host recorder
                       (ts.getStart templatePropertyNode) textToInsert;
          tree_commitUpdate host recorder;;
          log info ("Updated " +:+ filePath
                      +:+ ": replaced 'template' with 'templateUrl'.")
        end
      end
    end
  end.

Definition migrarTemplates : M unit :=
  log info "Searching for components with inline templates...";;
  visit host "/" visitFile;;
  log info "Inline template migration completed.".

End WithHost.

End Reviewed.

(** ** The revision of index.ts that logs every step *)

Module Verbose.
Import Helpers.

(** The removal range of index.ts, each branch with its message. *)
Definition removalRange (sourceText : string) (propertyCount : nat)
  (node : ts.ObjectLiteralElement) : M (nat * nat * bool) :=
  let removalStart := ts.getFullStart node in
  let removalEnd := ts.getEnd node in
  let needsCommaInserted := false in
  if Nat.ltb 1 propertyCount then
    let textAfterNode := Js.substringFrom (ts.getEnd node) sourceText in
    match Js.matchCommaAfter textAfterNode with
    | Some matched =>
        log debug ("      Found comma after, extending removal range. "
                     +:+ "New property will need a comma.");;
        mret (removalStart, removalEnd + matched, true)
    | None =>
        let textBeforeNode := Js.substringTo (ts.getFullStart node) sourceText in
        match Js.matchCommaBefore textBeforeNode with
        | Some matched =>
            log debug ("      Found comma before, adjusting removal start. "
                         +:+ "New property won't need a comma.");;
            mret (removalStart - matched, removalEnd, false)
        | None =>
            log debug ("      No comma found before or after (or only one property). "
                         +:+ "Using default removal range.");;
            mret (removalStart, removalEnd, needsCommaInserted)
        end
    end
  else
    log debug "      Only one property ('template'). Simple removal.";;
    mret (removalStart, removalEnd, needsCommaInserted).

Section WithHost.
Variable host : Host.

Definition visitFile (filePath : string) : M unit :=
  log info (Js.newline +:+ "🔍 Analizando archivo: " +:+ filePath);;
  if negb (Js.endsWith filePath ".component.ts") then
    log debug "  ➡️ Omitiendo (no es un archivo .component.ts)"
  else
  log debug "  ✅ Es un archivo .component.ts, continuando...";;
  fileBuffer ← tree_read filePath;
  match fileBuffer with
  | None => log warn ("  ⚠️ No se pudo leer el archivo: " +:+ filePath)
  | Some content =>
    log debug "  📄 Archivo leído correctamente.";;
    sourceFile ← createSourceFile host filePath content;
    log debug "  🌳 Archivo parseado a AST de TypeScript.";;
    log debug "  🔎 Buscando el decorador @Component...";;
    match findComponentDecorator sourceFile with
    | None =>
        log debug "  ❌ Decorador @Component no encontrado o no es estándar. Omitiendo."
    | Some componentDecorator =>
      log debug "  👍 Decorador @Component encontrado.";;
      log debug "  🔎 Verificando si ya existe 'templateUrl'...";;
      if hasProperty componentDecorator "templateUrl" then
        log info ("  ➡️ Omitiendo " +:+ filePath +:+ ": ya tiene 'templateUrl'.")
      else
      log debug "  👍 No tiene 'templateUrl', buscando 'template' en línea...";;
      match getDecoratorPropertyValue componentDecorator "template" with
      | None =>
          log info ("  ➡️ Omitiendo " +:+ filePath
                      +:+ ": no se encontró propiedad 'template' en línea.")
      | Some templateContent =>
        log debug "  👍 Propiedad 'template' encontrada con contenido.";;
        log info ("  ✨ Procesando " +:+ filePath
                    +:+ ": Migrando plantilla en línea a archivo externo.");;
        log debug "    📝 Determinando ruta para el nuevo archivo HTML...";;
        log debug ("    📂 Ruta del archivo HTML: " +:+ Index.htmlFilePath filePath);;
        log debug ("    🔗 Ruta relativa para templateUrl: ./"
                     +:+ Index.htmlFileName filePath);;
        log debug "    🔎 Verificando si el archivo HTML ya existe...";;
        htmlExists ← tree_exists (Index.htmlFilePath filePath);
        (if (htmlExists : bool) then
           log warn ("    ⚠️ El archivo HTML ya existe, se omitirá la creación: "
                       +:+ Index.htmlFilePath filePath)
         else
           log debug ("    ➕ Creando archivo HTML: "
                        +:+ Index.htmlFilePath filePath +:+ "...");;
           tree_create host (Index.htmlFilePath filePath) templateContent;;
           log debug "    ✅ Archivo HTML creado.");;
        log debug ("    🔄 Actualizando archivo TypeScript (" +:+ filePath +:+ ")...");;
        match getDecoratorPropertyNode componentDecorator "template" with
        | None =>
            log error ("    ❌ Error crítico: No se pudo encontrar el nodo de la propiedad "
                         +:+ "'template' en " +:+ filePath
                         +:+ " después de obtener su contenido. Omitiendo actualización.")
        | Some templatePropertyNode =>
          log debug "    👍 Nodo de la propiedad 'template' encontrado.";;
          log debug ("    🔧 Construyendo nueva propiedad: "
                       +:+ Index.newTemplateUrlProperty filePath);;
          recorder ← tree_beginUpdate host filePath;
          log debug ("    📐 Calculando rango para eliminar la propiedad 'template' "
                       +:+ "y manejar comas...");;
          '(removalStart, removalEnd, needsCommaInserted) ←
            removalRange (ts.text sourceFile)
              (length (ts.properties componentDecorator)) templatePropertyNode;
          log debug ("    ➖ Eliminando propiedad 'template' (rango "
                       +:+ pretty (removalStart : nat) +:+ " - "
                       +:+ pretty (removalEnd : nat) +:+ ")...");;
          recorder ← recorder_remove host recorder removalStart (removalEnd - removalStart);
          let textToInsert :=
            Index.newTemplateUrlProperty filePath
              +:+ (if (needsCommaInserted : bool) then "," else "") in
          log debug ("    ➕ Insertando nueva propiedad '" +:+ textToInsert
                       +:+ "' en la posición "
                       +:+ pretty (ts.getStart templatePropertyNode) +:+ "...");;
          recorder ← recorder_insertLeft host recorder
                       (ts.getStart templatePropertyNode) textToInsert;
          log debug "    💾 Aplicando cambios al archivo...";;
          tree_commitUpdate host recorder;;
          log info ("  ✅ Actualizado " +:+ filePath
                      +:+ ": se reemplazó 'template' con 'templateUrl'.")
        end
      end
    end
  end.

Definition migrarTemplates : M unit :=
  log info "🚀 Iniciando búsqueda de componentes con plantillas en línea...";;
  visit host "/" visitFile;;
  log info (Js.newline +:+ "🏁 Migración de plantillas en línea completada.").

End WithHost.

End Verbose.

(** ** The class declarations of a syntax tree *)

Module Classes.
Import Helpers.

(** The decorator lists of the class declarations at and under a node,
    the node first, then its children from left to right. *)
Fixpoint classesOf (node : ts.Node) : list (list ts.Decorator) :=
  match node with
  | ts.ClassDeclaration decorators children => decorators :: flat_map classesOf children
  | ts.OtherNode children => flat_map classesOf children
  end.

(** A class declaration that carries [@Component({...})]. *)
Definition isComponentClass (node : ts.Node) : bool :=
  match node with
  | ts.ClassDeclaration decorators _ => bool_decide (is_Some (componentArgument decorators))
  | ts.OtherNode _ => false
  end.

End Classes.

(** ** Absolute normal paths *)

Module Paths.
Import Helpers.
(** The absolute path with the given segments. *)
Definition absolute (parts : list string) : string := "/" +:+ Js.join "/" parts.
End Paths.

(** ** Revisions that differ in their diagnostics only *)

Module Agreement.
Import Helpers.

(** The events that are not diagnostics. *)
Definition effects (evs : list Event) : list Event :=
  List.filter (λ e, negb (isLogged e)) evs.

(** Two worlds with the same tree and the same effects so far. *)
Definition alike (w1 w2 : World) : Prop :=
  files w1 = files w2 ∧ effects (events w1) = effects (events w2).

(** Two computations that, from alike worlds, give the same result and
    alike worlds. *)
Definition agree {A} (m1 m2 : M A) : Prop :=
  ∀ w1 w2, alike w1 w2 →
    fst (m1 w1) = fst (m2 w2) ∧ alike (snd (m1 w1)) (snd (m2 w2)).

End Agreement.

(** ** What every step of a computation keeps *)

Module Steps.
Import Helpers.

(** A computation that, from any world [w], ends in a world related to
    [w] by [R], whether it returns or throws, and whose value, when it
    returns, satisfies [post]. *)
Definition within (R : World → World → Prop) {A} (m : M A) (post : A → Prop) : Prop :=
  ∀ w, R w (snd (m w)) ∧ ∀ a, fst (m w) = Ok a → post a.

(** The diagnostics of the levels error and fatal. *)
Definition severe (e : Event) : bool :=
  match e with
  | Logged error _ | Logged fatal _ => true
  | _ => false
  end.

(** From [w] to [w']: events are only added and none of them is a
    diagnostic of the level error or fatal. *)
Definition calm (w w' : World) : Prop :=
  ∃ evs, events w' = events w ++ evs ∧ existsb severe evs = false.

End Steps.

(** ** The splice of the guarded revision *)

Module GuardedSplice.
Import Helpers.
(** The text of the unit once the removal range of the guarded revision
    is replaced by the inserted text. *)
Definition textToInsert (filePath : string) : string :=
  "," +:+ Js.newline +:+ "  " +:+ Guarded.newTemplateUrlProperty filePath.

Definition rewritten (filePath content : string) (node : ts.ObjectLiteralElement)
  : string :=
  let '(removalStart, removalEnd) := Guarded.removalRange content node in
  Js.substringTo removalStart content
    +:+ textToInsert filePath
    +:+ Js.substringFrom removalEnd content.

(** The member that the guarded revision writes for the unit at
    [filePath], followed by the trivia [trivia]. *)
Definition reference (filePath trivia : string) : Layout.Entry :=
  {| Layout.leading := Js.newline +:+ "  ";
     Layout.source := Guarded.newTemplateUrlProperty filePath;
     Layout.kind := ts.PropertyAssignment (ts.Identifier "templateUrl")
                      (ts.StringLiteral ("./" +:+ Guarded.htmlFileName filePath));
     Layout.gap := trivia |}.

End GuardedSplice.

(** ** The splice of the styles block *)

Module StylesSplice.
Import Helpers.

(** The style texts of a value of [getDecoratorPropertyValue]. *)
Definition stylesOf (value : Styles.PropertyValue) : list string :=
  match value with
  | Styles.Text style => [style]
  | Styles.Texts styles => styles
  end.

(** The relative paths of the files of [count] styles, the first with the
    index [index]. *)
Definition styleUrls (componentBaseName : string) (index count : nat) : list string :=
  (λ i, "./" +:+ Styles.scssFileName componentBaseName i) <$> seq index count.

(** The tree once the files of [styles] are emitted, the first with the
    index [index]: each file is created unless its path exists. *)
Fixpoint emittedStyles (componentDir componentBaseName : string)
  (styles : list string) (index : nat) (tree : gmap string string)
  : gmap string string :=
  match styles with
  | [] => tree
  | style :: rest =>
      emittedStyles componentDir componentBaseName rest (S index)
        (Index.emitted (Styles.scssFilePath componentDir componentBaseName index) style tree)
  end.

(** The emitter does not throw for any of the [count] style files from
    the index [index] on: each of their paths holds a file or is no
    directory of the tree. *)
Definition stylesEmittable (componentDir componentBaseName : string)
  (index count : nat) (tree : gmap string string) : bool :=
  forallb (λ i, Index.emittable tree (Styles.scssFilePath componentDir componentBaseName i))
    (seq index count).

Definition styleUrlsProperty (componentBaseName : string) (count : nat) : string :=
  "styleUrls: ["
    +:+ Js.join ", " ((λ url, "'" +:+ url +:+ "'") <$> styleUrls componentBaseName 0 count)
    +:+ "]".

Definition textToInsert (componentBaseName : string) (count : nat) : string :=
  "," +:+ Js.newline +:+ "  " +:+ styleUrlsProperty componentBaseName count.

(** The text of the unit once the removal range of the styles block is
    replaced by the inserted text. *)
Definition rewritten (filePath content : string) (node : ts.ObjectLiteralElement)
  (value : Styles.PropertyValue) : string :=
  let '(removalStart, removalEnd) := Styles.removalRange content node in
  Js.substringTo removalStart content
    +:+ textToInsert (Path.basename filePath ".ts") (length (stylesOf value))
    +:+ Js.substringFrom removalEnd content.

(** The member that the styles block writes for [count] styles of the
    unit at [filePath], followed by the trivia [trivia]. *)
Definition reference (filePath : string) (count : nat) (trivia : string) : Layout.Entry :=
  {| Layout.leading := Js.newline +:+ "  ";
     Layout.source := styleUrlsProperty (Path.basename filePath ".ts") count;
     Layout.kind :=
       ts.PropertyAssignment (ts.Identifier "styleUrls")
         (ts.ArrayLiteralExpression
            (ts.StringLiteral
               <$> styleUrls (Path.basename filePath ".ts") 0 count));
     Layout.gap := trivia |}.

(** The value that the extractor of the styles revision gives for an
    initializer. *)
Definition valueOf (initializer : ts.Expression) : option Styles.PropertyValue :=
  match initializer with
  | ts.StringLiteral text | ts.NoSubstitutionTemplateLiteral text => Some (Styles.Text text)
  | ts.ArrayLiteralExpression elements =>
      Some (Styles.Texts (Styles.elementText <$> elements))
  | ts.OtherExpression => None
  end.

End StylesSplice.

(** ** Laid-out units *)

Module Units.
Import Helpers Layout.

(** The unit at [p] holds the text of [f], the parser reads that text as
    a file with the block of [f] in the first decorated class (whatever
    else the file has: imports, other statements), and the block of [f]
    has the member [e] between [es1] and [es2]: a [template] property
    with the literal text [v], the first of that name, in a block without
    a [templateUrl] property. The path of the HTML file holds a file or
    is no directory of the tree. *)
Definition templateUnit (host : Host) (p : string) (w : World) (f : File)
  (es1 : list Entry) (e : Entry) (es2 : list Entry) (v : string) : Prop :=
  Js.endsWith p ".component.ts" = true
  ∧ files w !! p = Some (fileText f)
  ∧ parsedAs host p f
  ∧ entries (block f) = es1 ++ e :: es2
  ∧ Forall (λ e', named "templateUrl" e' = false) (entries (block f))
  ∧ Forall (λ e', named "template" e' = false) es1
  ∧ (kind e = ts.PropertyAssignment (ts.Identifier "template") (ts.StringLiteral v)
     ∨ kind e = ts.PropertyAssignment (ts.Identifier "template")
                  (ts.NoSubstitutionTemplateLiteral v))
  ∧ Index.emittable (files w) (Index.htmlFilePath p) = true.

(** The same for a [styles] property with the value [value], in a block
    without a [styleUrls] and without a [template] property. The path of
    the file of every style holds a file or is no directory of the
    tree. *)
Definition stylesUnit (host : Host) (p : string) (w : World) (f : File)
  (es1 : list Entry) (e : Entry) (es2 : list Entry) (value : Styles.PropertyValue)
  : Prop :=
  Js.endsWith p ".component.ts" = true
  ∧ files w !! p = Some (fileText f)
  ∧ parsedAs host p f
  ∧ entries (block f) = es1 ++ e :: es2
  ∧ Forall (λ e', named "template" e' = false) (entries (block f))
  ∧ Forall (λ e', named "styleUrls" e' = false) (entries (block f))
  ∧ Forall (λ e', named "styles" e' = false) es1
  ∧ StylesSplice.stylesEmittable (Path.dirname p) (Path.basename p ".ts") 0
      (length (StylesSplice.stylesOf value)) (files w) = true
  ∧ ∃ initializer,
      kind e = ts.PropertyAssignment (ts.Identifier "styles") initializer
      ∧ StylesSplice.valueOf initializer = Some value.

End Units.

(** ** More hosts and files *)

Module Samples.
Import Helpers Layout Examples.

(** Two classes with [@Component({...})], the second with the block of
    [scenarioA], and a statement that is no class. *)
Definition twoClasses : ts.SourceFile :=
  {| ts.text := "";
     ts.statements :=
       [ts.ClassDeclaration
          [ts.CallExpression (ts.CalleeIdentifier "Component")
             [ts.ObjectLiteralArgument {| ts.properties := [] |}]] [];
        ts.ClassDeclaration
          [ts.OtherDecorator;
           ts.CallExpression (ts.CalleeIdentifier "Component")
             [ts.ObjectLiteralArgument (decorator scenarioA)]] [];
        ts.OtherNode []] |}.

(** [{ template: '<p>hi</p>' }] *)
Definition templateOnly : File :=
  componentFile {| entries := [templateHi]; trailingComma := false; closing := " " |}.

Definition stylesPair : Entry :=
  {| leading := " "; source := "styles: ['a{}', 'b{}']";
     kind := ts.PropertyAssignment (ts.Identifier "styles")
               (ts.ArrayLiteralExpression [ts.StringLiteral "a{}"; ts.StringLiteral "b{}"]);
     gap := "" |}.

(** [{ selector: 'x', styles: ['a{}', 'b{}'] }] *)
Definition stylesArray : File :=
  componentFile {| entries := [selectorX; stylesPair];
                   trailingComma := false; closing := " " |}.

(** [{ styles: 'a{}', template: '<p>hi</p>' }] *)
Definition stylesThenTemplate : File :=
  componentFile {| entries := [stylesLiteral; templateHi];
                   trailingComma := false; closing := " " |}.

(** The file [f] after an import declaration. *)
Definition withImport (f : File) : File :=
  {| before := "import { Component } from '@angular/core';" +:+ Js.newline +:+ before f;
     block := block f;
     after := after f |}.

(** A parser that knows the given files by their text and reads each as
    an import declaration followed by the class of the file. *)
Definition importingHost (known : list File) (paths : list string) : Host :=
  {| parse := λ _ content,
       match List.find (λ f, String.eqb (fileText f) content) known with
       | Some f => Ok (ts.OtherNode [] :: fileNodes f)
       | None => Ok []
       end;
     listFiles := λ _ _, Ok paths;
     stackOf := λ _, None;
     arrayAsContent := nulPerElement |}.

(** A parser that gives the nodes of [f] for every text. *)
Definition staleParserHost (f : File) : Host :=
  {| parse := λ _ _, Ok (fileNodes f);
     listFiles := λ _ _, Ok [];
     stackOf := λ _, None;
     arrayAsContent := nulPerElement |}.

End Samples.

(** ** The guarded revision: units that a run leaves alone *)

Module GuardedRun.
Import Helpers.

(** A unit with the text [c] that a visit of the guarded revision leaves
    as it is, in a tree [tree]: it is not in the state [Processing], or
    the path of its external file is a directory, or its [template] node
    runs past the end of [c] and the external file exists. *)
Definition stable (host : Host) (tree : gmap string string) (q c : string) : Prop :=
  match Index.decision host q (Some c) with
  | Index.Processing _ _ node =>
      Index.emittable tree (Guarded.htmlFilePath q) = false
      ∨ (String.length c < ts.getEnd node ∧ is_Some (tree !! Guarded.htmlFilePath q))
  | _ => True
  end.

(** The tree [tree'] has every file of [tree], and every path that is a
    directory without a file in [tree] is one in [tree']. *)
Definition grows (tree tree' : gmap string string) : Prop :=
  (∀ k, is_Some (tree !! k) → is_Some (tree' !! k))
  ∧ ∀ path, Index.emittable tree path = false → Index.emittable tree' path = false.

Definition allStable (host : Host) (listed : list string) (tree : gmap string string)
  : Prop :=
  ∀ q c, q ∈ listed → tree !! q = Some c → stable host tree q c.

(** What holds of the tree while a run that started on [tree0] has [rest]
    to visit: a listed unit is still to be visited with the content it
    had at the start, or it is stable. *)
Definition pending (host : Host) (tree0 : gmap string string) (listed rest : list string)
  (tree : gmap string string) : Prop :=
  ∀ q c, q ∈ listed → tree !! q = Some c →
    (q ∈ rest ∧ tree0 !! q = Some c) ∨ stable host tree q c.

(** The world in which the traversal of a run starts. *)
Definition started (w : World) : World :=
  {| files := files w;
     events := events w
       ++ [Logged info "🚀 Starting search for components with inline templates..."] |}.

End GuardedRun.

(** * Properties *)

(** ** Strings *)

Module StringFacts.

Lemma str_app_cons c s t : String c s +:+ t = String c (s +:+ t).
Proof. reflexivity. Qed.

Lemma str_app_nil_l s : "" +:+ s = s.
Proof. reflexivity. Qed.

Lemma str_app_nil_r s : s +:+ "" = s.
Proof. induction s as [|c s IH]; [done|]. by rewrite str_app_cons, IH. Qed.

Lemma str_app_assoc s t u : (s +:+ t) +:+ u = s +:+ t +:+ u.
Proof. induction s as [|c s IH]; [done|]. by rewrite !str_app_cons, IH. Qed.

Lemma str_length_app s t : String.length (s +:+ t) = String.length s + String.length t.
Proof. induction s as [|c s IH]; [done|]. rewrite str_app_cons. simpl. by rewrite IH. Qed.

Lemma substringTo_app s t : Js.substringTo (String.length s) (s +:+ t) = s.
Proof. induction s as [|c s IH]; [by destruct t|]. rewrite str_app_cons. simpl. by rewrite IH. Qed.

Lemma substringFrom_app s t : Js.substringFrom (String.length s) (s +:+ t) = t.
Proof. induction s as [|c s IH]; [by destruct t|]. rewrite str_app_cons. simpl. by rewrite IH. Qed.

Lemma substringTo_substringFrom n s : Js.substringTo n s +:+ Js.substringFrom n s = s.
Proof.
  revert s. induction n as [|n IH]; intros [|c s]; try done.
  simpl. by rewrite str_app_cons, IH.
Qed.

Lemma length_substringTo (n : nat) s :
  n ≤ String.length s → String.length (Js.substringTo n s) = n.
Proof.
  revert s. induction n as [|n IH]; intros [|c s] Hn; simpl in *; try done; try lia.
  rewrite IH; lia.
Qed.

Lemma length_substringFrom (n : nat) s :
  String.length (Js.substringFrom n s) = String.length s - n.
Proof.
  revert s. induction n as [|n IH]; intros [|c s]; simpl; try done; try lia.
Qed.

(** A text is cut at any offset within it. *)
Lemma cut_at (n : nat) s :
  n ≤ String.length s →
  ∃ a b, s = a +:+ b ∧ String.length a = n
         ∧ Js.substringTo n s = a ∧ Js.substringFrom n s = b.
Proof.
  intros Hn. exists (Js.substringTo n s), (Js.substringFrom n s).
  by rewrite substringTo_substringFrom, length_substringTo.
Qed.

End StringFacts.

(** ** The two regular expressions *)

Module MatchFacts.
Import StringFacts.

Lemma allWhiteSpace_app a b :
  Js.allWhiteSpace (a +:+ b) = Js.allWhiteSpace a && Js.allWhiteSpace b.
Proof.
  induction a as [|c a IH]; [done|].
  rewrite str_app_cons. simpl. rewrite IH. by destruct (Js.isWhiteSpace c).
Qed.

Lemma comma_not_white c : Js.isComma c = true → Js.isWhiteSpace c = false.
Proof.
  unfold Js.isComma, Js.isWhiteSpace. intros ->%Nat.eqb_eq. reflexivity.
Qed.

(** [/,\s*$/] on a text that ends with a comma and white space: the match
    is that comma and the white space, whatever comes before. *)
Lemma matchCommaBefore_app pre ws :
  Js.allWhiteSpace ws = true →
  Js.matchCommaBefore (pre +:+ "," +:+ ws) = Some (S (String.length ws)).
Proof.
  intros Hws. induction pre as [|c pre IH].
  - rewrite str_app_nil_l, str_app_cons, str_app_nil_l. simpl.
    by rewrite Hws.
  - rewrite str_app_cons. simpl.
    rewrite allWhiteSpace_app, str_app_cons, str_app_nil_l. simpl.
    by rewrite andb_false_r, andb_false_r.
Qed.

(** A match of [/,\s*$/] lies within the text. *)
Lemma matchCommaBefore_length s m :
  Js.matchCommaBefore s = Some m → m ≤ String.length s.
Proof.
  revert m. induction s as [|c s IH]; intros m; simpl; [done|].
  destruct (Js.isComma c && Js.allWhiteSpace s).
  - intros [= <-]. lia.
  - intros ?%IH. lia.
Qed.

(** A match of [/^\s*,/] is white space and then a comma. *)
Lemma matchCommaAfter_inv s m :
  Js.matchCommaAfter s = Some m →
  ∃ ws rest, s = ws +:+ "," +:+ rest ∧ Js.allWhiteSpace ws = true
             ∧ m = S (String.length ws).
Proof.
  revert m. induction s as [|c s IH]; intros m; simpl; [done|].
  destruct (Js.isComma c) eqn:Hc.
  - intros [= <-]. exists "", s. split_and!; try done.
    unfold Js.isComma in Hc. apply Nat.eqb_eq in Hc.
    rewrite str_app_nil_l, str_app_cons, str_app_nil_l. f_equal.
    rewrite <- (ascii_nat_embedding c), Hc. reflexivity.
  - destruct (Js.isWhiteSpace c) eqn:Hw; [|done].
    destruct (Js.matchCommaAfter s) as [m'|] eqn:Hm; [|done].
    intros [= <-]. destruct (IH _ eq_refl) as (ws & rest & -> & Hws & ->).
    exists (String c ws), rest. split_and!; try done.
    simpl. by rewrite Hw, Hws.
Qed.

Lemma matchCommaAfter_length s m :
  Js.matchCommaAfter s = Some m → m ≤ String.length s.
Proof.
  intros (ws & rest & -> & _ & ->)%matchCommaAfter_inv.
  rewrite !str_length_app. simpl. lia.
Qed.

Lemma matchCommaAfter_app ws rest :
  Js.allWhiteSpace ws = true →
  Js.matchCommaAfter (ws +:+ "," +:+ rest) = Some (S (String.length ws)).
Proof.
  induction ws as [|c ws IH]; intros Hws; [done|].
  simpl in Hws. apply andb_true_iff in Hws as [Hc Hws].
  rewrite str_app_cons. simpl. rewrite Hc, (IH Hws).
  destruct (Js.isComma c) eqn:Hcomma; [|done].
  apply comma_not_white in Hcomma. congruence.
Qed.

End MatchFacts.

(** ** The update recorder *)

Module RecorderFacts.
Import StringFacts.

Section Splice.
Variables (removals : list (nat * nat)) (insertions : list (nat * string)).
Variables (rs re p : nat) (ins : string).
Hypothesis removed_spec :
  ∀ i, isRemoved removals i = Nat.leb rs i && Nat.ltb i re.
Hypothesis inserted_spec :
  ∀ i, insertedAt insertions i = if Nat.eqb i p then ins else "".
Hypothesis order : rs ≤ p ∧ p ≤ re.

Lemma editedFrom_after rest i :
  re ≤ i → p < i → editedFrom removals insertions i rest = rest.
Proof.
  revert i. induction rest as [|c rest IH]; intros i Hre Hp; simpl.
  - rewrite inserted_spec. by destruct (Nat.eqb_spec i p); [lia|].
  - rewrite inserted_spec, removed_spec.
    destruct (Nat.eqb_spec i p); [lia|].
    destruct (Nat.ltb_spec i re); [lia|].
    rewrite andb_false_r, IH by lia. reflexivity.
Qed.

Lemma editedFrom_inside rest i :
  rs ≤ i → i ≤ re → re ≤ i + String.length rest →
  editedFrom removals insertions i rest
  = (if Nat.leb i p then ins else "") +:+ Js.substringFrom (re - i) rest.
Proof.
  revert i. induction rest as [|c rest IH]; intros i Hrs Hre Hlen; simpl in *.
  - rewrite inserted_spec. assert (i = re) as -> by lia.
    destruct (Nat.eqb_spec re p), (Nat.leb_spec re p); try lia;
      destruct (re - re); by rewrite ?str_app_nil_r.
  - rewrite inserted_spec, removed_spec.
    destruct (Nat.ltb_spec i re) as [Hlt|Hge].
    + destruct (Nat.leb_spec rs i); [|lia]. cbn [andb].
      rewrite IH by lia.
      replace (re - i) with (S (re - S i)) by lia. cbn [Js.substringFrom].
      destruct (Nat.eqb_spec i p), (Nat.leb_spec i p), (Nat.leb_spec (S i) p);
        try lia; by rewrite ?str_app_nil_l, ?str_app_assoc.
    + assert (i = re) as -> by lia.
      rewrite andb_false_r, editedFrom_after by lia.
      replace (re - re) with 0 by lia. simpl.
      destruct (Nat.eqb_spec re p), (Nat.leb_spec re p); try lia; reflexivity.
Qed.

Lemma editedFrom_before rest i :
  i ≤ rs → re ≤ i + String.length rest →
  editedFrom removals insertions i rest
  = Js.substringTo (rs - i) rest +:+ ins +:+ Js.substringFrom (re - i) rest.
Proof.
  revert i. induction rest as [|c rest IH]; intros i Hrs Hlen.
  - rewrite editedFrom_inside by (simpl in *; lia).
    simpl in *. destruct (Nat.leb_spec i p); [|lia].
    by destruct (rs - i).
  - destruct (decide (i = rs)) as [->|Hne].
    + rewrite editedFrom_inside by lia.
      replace (rs - rs) with 0 by lia.
      destruct (Nat.leb_spec rs p); [|lia]. reflexivity.
    + simpl in *. rewrite inserted_spec, removed_spec.
      destruct (Nat.eqb_spec i p); [lia|].
      destruct (Nat.leb_spec rs i); [lia|]. simpl.
      rewrite IH by lia.
      replace (rs - i) with (S (rs - S i)) by lia.
      replace (re - i) with (S (re - S i)) by lia.
      reflexivity.
Qed.

End Splice.

(** One removal and one left insertion within it: the text before the
    removal, the inserted text, the text after the removal. *)
Lemma edited_splice path content removals rs re p ins :
  rs ≤ p → p ≤ re → re ≤ String.length content →
  removals = [(rs, re - rs)] ∨ (removals = [] ∧ rs = re) →
  edited {| recorderPath := path; original := content;
            removals := removals; insertions := [(p, ins)] |}
  = Js.substringTo rs content +:+ ins +:+ Js.substringFrom re content.
Proof.
  intros Hrs Hre Hlen Hrem. unfold edited. simpl.
  rewrite (editedFrom_before removals [(p, ins)] rs re p ins); try lia.
  - by rewrite !Nat.sub_0_r.
  - intros i. destruct Hrem as [->|[-> ->]]; simpl.
    + rewrite orb_false_r. replace (rs + (re - rs)) with re by lia. done.
    + destruct (Nat.leb_spec re i), (Nat.ltb_spec i re); try lia; done.
  - intros i. unfold insertedAt. simpl.
    rewrite filter_cons, filter_nil. simpl.
    destruct (Nat.eqb_spec i p) as [->|Hne].
    + by rewrite decide_True.
    + by rewrite decide_False.
Qed.

End RecorderFacts.

(** ** Paths *)

Module PathFacts.
Import StringFacts.

Lemma segments_nonempty p : Path.segments p ≠ [].
Proof.
  destruct p as [|c p]; simpl; [done|].
  destruct (Path.isSlash c); [done|]. by destruct (Path.segments p).
Qed.

Lemma segments_no_slash s : Path.hasSlash s = false → Path.segments s = [s].
Proof.
  induction s as [|c s IH]; simpl; [done|].
  intros [Hc Hs]%orb_false_iff. rewrite Hc, (IH Hs). done.
Qed.

Lemma segments_slash_free p seg : seg ∈ Path.segments p → Path.hasSlash seg = false.
Proof.
  revert seg. induction p as [|c p IH]; intros seg; simpl.
  - by intros ->%list_elem_of_singleton.
  - destruct (Path.isSlash c) eqn:Hc.
    + intros [->|?]%elem_of_cons; [done|by apply IH].
    + destruct (Path.segments p) as [|first rest] eqn:Hp.
      * by intros ->%list_elem_of_singleton; simpl; rewrite Hc.
      * intros [->|?]%elem_of_cons.
        -- simpl. rewrite Hc. apply IH. by left.
        -- apply IH. by right.
Qed.

(** The segments of [a/b] are those of [a] and then those of [b]. *)
Lemma segments_app_slash a b :
  Path.segments (a +:+ "/" +:+ b) = Path.segments a ++ Path.segments b.
Proof.
  induction a as [|c a IH].
  - done.
  - rewrite str_app_cons. simpl. rewrite IH.
    destruct (Path.isSlash c); [done|].
    pose proof (segments_nonempty a). by destruct (Path.segments a).
Qed.

Lemma last_snoc {A} (l : list A) (x d : A) : List.last (l ++ [x]) d = x.
Proof. induction l as [|y [|z l] IH]; done. Qed.

(** Text without a slash added to a path extends its last segment. *)
Lemma segments_app_text p s :
  Path.hasSlash s = false →
  ∃ init final, Path.segments p = init ++ [final]
                ∧ Path.segments (p +:+ s) = init ++ [final +:+ s].
Proof.
  intros Hs. induction p as [|c p (init & final & Hp & Hps)].
  - exists [], "". rewrite str_app_nil_l, (segments_no_slash s Hs). done.
  - rewrite str_app_cons. simpl. rewrite Hp, Hps. destruct (Path.isSlash c).
    + by exists ("" :: init), final.
    + destruct init as [|first init]; simpl.
      * by exists [], (String c final).
      * by exists (String c first :: init), final.
Qed.

Lemma lastSegment_app p s :
  Path.hasSlash s = false →
  Path.lastSegment (p +:+ s) = Path.lastSegment p +:+ s.
Proof.
  intros Hs. destruct (segments_app_text p s Hs) as (init & final & Hp & Hps).
  unfold Path.lastSegment. by rewrite Hp, Hps, !last_snoc.
Qed.

(** A regular last segment survives the resolution of the segments. *)
Lemma resolve_last absolute stack todo name :
  Path.regular name →
  ∃ kept, Path.resolve absolute stack (todo ++ [name]) = kept ++ [name]
          ∧ ∀ seg, seg ∈ kept → seg ∈ stack ∨ seg ∈ todo.
Proof.
  intros (Hslash & Hne & Hdot & Hdots). revert stack.
  induction todo as [|seg todo IH]; intros stack; simpl.
  - destruct (String.eqb_spec name ""); [done|].
    destruct (String.eqb_spec name "."); [done|].
    destruct (String.eqb_spec name ".."); [done|]. simpl.
    exists (reverse stack). split; [by rewrite reverse_cons|].
    intros seg Hin. rewrite elem_of_reverse in Hin. by left.
  - assert (∀ stack', (∀ s, s ∈ stack' → s ∈ stack ∨ s = seg) →
      ∃ kept, Path.resolve absolute stack' (todo ++ [name]) = kept ++ [name]
              ∧ ∀ s, s ∈ kept → s ∈ stack ∨ s ∈ seg :: todo) as Hstep.
    { intros stack' Hsub. destruct (IH stack') as (kept & -> & Hkept).
      exists kept. split; [done|]. intros s [Hs|Hs]%Hkept.
      - apply Hsub in Hs as [?| ->]; [by left|right; by left].
      - right. by right. }
    destruct (String.eqb seg "" || String.eqb seg "."); [apply Hstep; eauto|].
    destruct (String.eqb seg "..").
    + destruct stack as [|top stack'].
      * destruct absolute; apply Hstep; [eauto|].
        intros s ->%list_elem_of_singleton. by right.
      * destruct (String.eqb top ".."); apply Hstep.
        -- intros s [->|?]%elem_of_cons; eauto.
        -- intros s ?. left. by right.
    + apply Hstep. intros s [->|?]%elem_of_cons; eauto.
Qed.

Lemma hasSlash_app a b : Path.hasSlash (a +:+ b) = Path.hasSlash a || Path.hasSlash b.
Proof.
  induction a as [|c a IH]; [done|]. rewrite str_app_cons. simpl.
  by rewrite IH, orb_assoc.
Qed.

(** Slash-free segments joined by slashes are the segments of the
    result. *)
Lemma segments_join parts :
  parts ≠ [] → (∀ seg, seg ∈ parts → Path.hasSlash seg = false) →
  Path.segments (Js.join "/" parts) = parts.
Proof.
  induction parts as [|seg [|next rest] IH]; intros Hne Hfree; [done| |].
  - simpl. apply segments_no_slash, Hfree. by left.
  - change (Js.join "/" (seg :: next :: rest))
      with (seg +:+ "/" +:+ Js.join "/" (next :: rest)).
    rewrite segments_app_slash, IH, segments_no_slash; [done| |done|].
    + apply Hfree. by left.
    + intros s ?. apply Hfree. by right.
Qed.

Lemma segments_split p :
  ∃ init, Path.segments p = init ++ [Path.lastSegment p].
Proof.
  unfold Path.lastSegment. pose proof (segments_nonempty p) as Hne.
  induction (Path.segments p) as [|x [|y l] IH]; [done| |].
  - by exists [].
  - destruct IH as [init Hinit]; [done|]. exists (x :: init).
    simpl in *. by rewrite <- Hinit.
Qed.

(** [normalize] keeps a regular last segment. *)
Lemma lastSegment_normalize p :
  Path.regular (Path.lastSegment p) →
  Path.lastSegment (Path.normalize p) = Path.lastSegment p.
Proof.
  intros Hreg. destruct (segments_split p) as [init Hsplit].
  assert (p ≠ "") as Hp.
  { intros ->. by destruct Hreg as (_ & ? & _). }
  unfold Path.normalize. destruct p as [|c p']; [done|].
  set (p := String c p') in *.
  destruct (resolve_last (Path.isAbsolute p) [] init _ Hreg) as (kept & Hkept & Hsub).
  rewrite Hsplit, Hkept.
  assert (∀ seg, seg ∈ kept ++ [Path.lastSegment p] → Path.hasSlash seg = false) as Hfree.
  { intros seg [Hin| ->%list_elem_of_singleton]%elem_of_app; [|by destruct Hreg].
    apply Hsub in Hin as [Hin|Hin]; [by apply elem_of_nil in Hin|].
    apply (segments_slash_free p). rewrite Hsplit. apply elem_of_app. by left. }
  assert (Path.segments (Js.join "/" (kept ++ [Path.lastSegment p]))
          = kept ++ [Path.lastSegment p]) as Hsegs.
  { apply segments_join; [by destruct kept|done]. }
  assert (Js.join "/" (kept ++ [Path.lastSegment p]) ≠ "") as Hbody.
  { intros Hempty. rewrite Hempty in Hsegs. simpl in Hsegs.
    destruct kept as [|? [|? ?]]; simplify_eq/=. by destruct Hreg as (_ & ? & _). }
  destruct (Path.isAbsolute p).
  - unfold Path.lastSegment at 1.
    rewrite str_app_cons, str_app_nil_l. simpl.
    rewrite Hsegs, last_snoc. by destruct kept.
  - destruct (String.eqb_spec (Js.join "/" (kept ++ [Path.lastSegment p])) ""); [done|].
    unfold Path.lastSegment at 1. rewrite Hsegs. apply last_snoc.
Qed.

Lemma lastChar_app a b : b ≠ "" → Js.lastChar (a +:+ b) = Js.lastChar b.
Proof.
  intros Hb. induction a as [|c a IH]; [done|].
  rewrite str_app_cons. simpl. rewrite IH.
  destruct (a +:+ b) eqn:Hab; [|done].
  destruct a; [by rewrite str_app_nil_l in Hab|done].
Qed.

Lemma endsWith_inv s suffix :
  Js.endsWith s suffix = true → ∃ pre, s = pre +:+ suffix.
Proof.
  induction s as [|c s IH].
  - destruct suffix; [by exists ""|done].
  - cbn [Js.endsWith].
    destruct (String.eqb_spec (String c s) suffix) as [<-|]; [by exists ""|].
    intros (pre & ->)%IH. by exists (String c pre).
Qed.

Lemma substringTo_slash_free (n : nat) s :
  Path.hasSlash s = false → Path.hasSlash (Js.substringTo n s) = false.
Proof.
  revert s. induction n as [|n IH]; intros [|c s]; simpl; try done.
  intros [-> ?]%orb_false_iff. by apply IH.
Qed.

Lemma basename_slash_free p ext : Path.hasSlash (Path.basename p ext) = false.
Proof.
  assert (Path.hasSlash (Path.lastSegment p) = false) as Hlast.
  { destruct (segments_split p) as [init Hsplit].
    apply (segments_slash_free p). rewrite Hsplit. apply elem_of_app. right. by left. }
  unfold Path.basename. destruct (String.eqb p ext); [done|].
  destruct (_ && _); [|done]. by apply substringTo_slash_free.
Qed.

(** The name of the external file is a regular segment that ends with
    the letter l. *)
Lemma htmlFileName_regular p : Path.regular (Index.htmlFileName p).
Proof.
  unfold Index.htmlFileName, Path.regular. split_and!.
  - by rewrite hasSlash_app, basename_slash_free.
  - intros H%(f_equal Js.lastChar). by rewrite lastChar_app in H.
  - intros H%(f_equal Js.lastChar). by rewrite lastChar_app in H.
  - intros H%(f_equal Js.lastChar). by rewrite lastChar_app in H.
Qed.

Lemma lastSegment_join a name :
  Path.regular name → Path.lastSegment (Path.join a name) = name.
Proof.
  intros Hreg. pose proof Hreg as (Hfree & Hne & _).
  assert (Path.lastSegment name = name) as Hname.
  { unfold Path.lastSegment. by rewrite segments_no_slash. }
  unfold Path.join. destruct (String.eqb_spec a "").
  - rewrite lastSegment_normalize; rewrite Hname; done.
  - destruct (String.eqb_spec name ""); [done|].
    assert (Path.lastSegment (a +:+ "/" +:+ name) = name) as Hlast.
    { unfold Path.lastSegment. rewrite segments_app_slash, (segments_no_slash name Hfree).
      apply last_snoc. }
    rewrite lastSegment_normalize; rewrite Hlast; done.
Qed.

(** The path of the external file is never the name of a candidate. *)
Lemma htmlFilePath_not_candidate p :
  Js.endsWith (Index.htmlFilePath p) ".component.ts" = false.
Proof.
  destruct (Js.endsWith _ _) eqn:Hends; [|done].
  apply endsWith_inv in Hends as [pre Hpre].
  assert (Path.lastSegment (Index.htmlFilePath p) = Index.htmlFileName p) as Hlast.
  { unfold Index.htmlFilePath.
    rewrite lastSegment_normalize; rewrite lastSegment_join;
      auto using htmlFileName_regular. }
  rewrite Hpre, lastSegment_app in Hlast by done.
  apply (f_equal Js.lastChar) in Hlast.
  unfold Index.htmlFileName in Hlast. rewrite !lastChar_app in Hlast by done.
  done.
Qed.

End PathFacts.

(** ** The tree: files, directories and the emitter *)

Module TreeFacts.
Import StringFacts.

Lemma isDirectory_true (tree : gmap string string) path :
  isDirectory tree path = true
  ↔ ∃ q c, tree !! q = Some c ∧ Js.startsWith q (path +:+ "/") = true.
Proof. unfold isDirectory. by rewrite bool_decide_eq_true, map_Exists_lookup. Qed.

Lemma isDirectory_false (tree : gmap string string) path :
  isDirectory tree path = false
  ↔ ∀ q c, tree !! q = Some c → Js.startsWith q (path +:+ "/") = false.
Proof.
  rewrite <- not_true_iff_false, isDirectory_true. split.
  - intros Hnone q c Hq. destruct (Js.startsWith q _) eqn:Hstart; [|done].
    destruct Hnone. eauto.
  - intros Hall (q & c & Hq & Hstart). by rewrite (Hall q c Hq) in Hstart.
Qed.

(** A directory stays one when a file is written. *)
Lemma isDirectory_insert (tree : gmap string string) path q c :
  isDirectory tree path = true → isDirectory (<[q := c]> tree) path = true.
Proof.
  rewrite !isDirectory_true. intros (k & x & Hk & Hstart).
  destruct (decide (k = q)) as [->|Hne].
  - exists q, c. by rewrite lookup_insert_eq.
  - exists k, x. by rewrite lookup_insert_ne.
Qed.

(** Writing a file that is not below [path] makes no directory of it. *)
Lemma isDirectory_insert_other (tree : gmap string string) path q c :
  Js.startsWith q (path +:+ "/") = false →
  isDirectory (<[q := c]> tree) path = isDirectory tree path.
Proof.
  intros Hq. destruct (isDirectory tree path) eqn:Hdir; [by apply isDirectory_insert|].
  rewrite isDirectory_false in Hdir |- *. intros k x.
  destruct (decide (k = q)) as [->|Hne]; [done|].
  rewrite lookup_insert_ne by done. apply Hdir.
Qed.

(** Writing a file that exists changes no directory. *)
Lemma isDirectory_overwrite (tree : gmap string string) path q c :
  is_Some (tree !! q) → isDirectory (<[q := c]> tree) path = isDirectory tree path.
Proof.
  intros [x Hq]. destruct (isDirectory tree path) eqn:Hdir; [by apply isDirectory_insert|].
  rewrite isDirectory_false in Hdir |- *. intros k y.
  destruct (decide (k = q)) as [->|Hne]; [intros _; by apply (Hdir q x)|].
  rewrite lookup_insert_ne by done. apply Hdir.
Qed.

Lemma emittable_true (tree : gmap string string) path :
  Index.emittable tree path = true
  ↔ is_Some (tree !! path) ∨ isDirectory tree path = false.
Proof.
  unfold Index.emittable.
  rewrite orb_true_iff, bool_decide_eq_true, negb_true_iff. done.
Qed.

Lemma emittable_exists (tree : gmap string string) path c :
  tree !! path = Some c → Index.emittable tree path = true.
Proof. intros Hpath. apply emittable_true. eauto. Qed.

(** The emitter at [q] leaves [path] free for the emitter, when [q] does
    not lie below [path]. *)
Lemma emittable_emitted (tree : gmap string string) path q c :
  Js.startsWith q (path +:+ "/") = false →
  Index.emittable tree path = true →
  Index.emittable (Index.emitted q c tree) path = true.
Proof.
  intros Hq. unfold Index.emitted. destruct (tree !! q) eqn:Hfile; [done|].
  rewrite !emittable_true. intros [[x Hpath]|Hdir].
  - left. destruct (decide (path = q)) as [->|Hne]; [congruence|].
    rewrite lookup_insert_ne by done. eauto.
  - right. by rewrite isDirectory_insert_other.
Qed.

Lemma emittable_false (tree : gmap string string) path :
  Index.emittable tree path = false
  ↔ tree !! path = None ∧ isDirectory tree path = true.
Proof.
  unfold Index.emittable.
  rewrite orb_false_iff, bool_decide_eq_false, negb_false_iff, <- eq_None_not_Some. done.
Qed.

(** A directory without a file stays one when the emitter writes at a
    path that it found free, and when a file that exists is written. *)
Lemma blocked_emitted (tree : gmap string string) path q c :
  Index.emittable tree q = true →
  Index.emittable tree path = false →
  Index.emittable (Index.emitted q c tree) path = false.
Proof.
  intros Hq Hpath. unfold Index.emitted. destruct (tree !! q) eqn:Hfile; [done|].
  apply emittable_false in Hpath as [Hnone Hdir]. apply emittable_false. split.
  - rewrite lookup_insert_ne; [done|]. intros ->.
    apply emittable_true in Hq as [[? Hsome]|Hfree]; congruence.
  - by apply isDirectory_insert.
Qed.

Lemma blocked_overwrite (tree : gmap string string) path q c :
  is_Some (tree !! q) →
  Index.emittable tree path = false →
  Index.emittable (<[q := c]> tree) path = false.
Proof.
  intros [x Hq] [Hnone Hdir]%emittable_false. apply emittable_false. split.
  - rewrite lookup_insert_ne; [done|]. intros ->. congruence.
  - by apply isDirectory_insert.
Qed.

(** Writing a file that exists leaves every path free for the emitter. *)
Lemma emittable_overwrite (tree : gmap string string) path q c :
  is_Some (tree !! q) →
  Index.emittable tree path = true →
  Index.emittable (<[q := c]> tree) path = true.
Proof.
  intros Hq. rewrite !emittable_true. intros [[x Hpath]|Hdir].
  - left. destruct (decide (path = q)) as [->|Hne]; [by rewrite lookup_insert_eq|].
    rewrite lookup_insert_ne by done. eauto.
  - right. by rewrite isDirectory_overwrite.
Qed.

(** [tree.create] at a path that is free. *)
Lemma tree_create_free host path content w :
  files w !! path = None →
  Index.emittable (files w) path = true →
  tree_create host path content w
  = (Ok tt, {| files := <[path := content]> (files w);
               events := events w ++ [Created path content] |}).
Proof.
  intros Hpath [[? Hsome]| Hdir]%emittable_true; [congruence|].
  unfold tree_create. by rewrite Hpath, Hdir.
Qed.

(** [tree.create] at a path that is a directory. *)
Lemma tree_create_directory host path content w :
  Index.emittable (files w) path = false →
  files w !! path = None
  ∧ tree_create host path content w
    = (Throw (newError host ("Path " +:+ quote +:+ path +:+ quote +:+ " already exist.")), w).
Proof.
  unfold Index.emittable, tree_create.
  intros [Hnone Hdir%negb_false_iff]%orb_false_iff.
  apply bool_decide_eq_false in Hnone.
  destruct (files w !! path) eqn:Hpath; [destruct Hnone; eauto|]. by rewrite Hdir.
Qed.

(** [tree.create] changes the world only by a file at a path that was
    free. *)
Lemma tree_create_cases host path content w :
  (∃ thrown, tree_create host path content w = (Throw thrown, w))
  ∨ (files w !! path = None ∧ isDirectory (files w) path = false
     ∧ tree_create host path content w
       = (Ok tt, {| files := <[path := content]> (files w);
                    events := events w ++ [Created path content] |})).
Proof.
  unfold tree_create. destruct (files w !! path); [left; eauto|].
  destruct (isDirectory (files w) path); [left; eauto|by right].
Qed.

End TreeFacts.

(** ** Files beside one another *)

Module SiblingFacts.
Import StringFacts PathFacts TreeFacts.

Lemma startsWith_app s t u : Js.startsWith (s +:+ t) (s +:+ u) = Js.startsWith t u.
Proof.
  induction s as [|c s IH]; [done|]. rewrite !str_app_cons. cbn [Js.startsWith].
  by rewrite Ascii.eqb_refl, IH.
Qed.

Lemma startsWith_slash s t :
  Js.startsWith s (t +:+ "/") = true → Path.hasSlash s = true.
Proof.
  revert s. induction t as [|c t IH]; intros [|b s]; cbn; try done.
  - intros [Hb _]%andb_true_iff. apply Ascii.eqb_eq in Hb as <-. done.
  - intros [_ Hs]%andb_true_iff. rewrite (IH s Hs). apply orb_true_r.
Qed.

(** A regular segment at the end of the segments is resolved last. *)
Lemma resolve_snoc absolute stack todo name :
  Path.regular name →
  Path.resolve absolute stack (todo ++ [name])
  = Path.resolve absolute stack todo ++ [name].
Proof.
  intros (Hslash & Hne & Hdot & Hdots). revert stack.
  induction todo as [|seg todo IH]; intros stack; cbn [app Path.resolve].
  - destruct (String.eqb_spec name ""); [done|].
    destruct (String.eqb_spec name "."); [done|].
    destruct (String.eqb_spec name ".."); [done|].
    cbn [orb]. by rewrite reverse_cons.
  - destruct (String.eqb seg "" || String.eqb seg "."); [apply IH|].
    destruct (String.eqb seg ".."); [|apply IH].
    destruct stack as [|top stack']; [destruct absolute; apply IH|].
    destruct (String.eqb top ".."); apply IH.
Qed.

Lemma join_snoc_text parts name :
  Js.join "/" (parts ++ [name])
  = (if decide (parts = []) then "" else Js.join "/" parts +:+ "/") +:+ name.
Proof.
  induction parts as [|seg [|next rest] IH]; [done| |].
  - rewrite decide_False by done. cbn. by rewrite !str_app_assoc.
  - change (Js.join "/" ((seg :: next :: rest) ++ [name]))
      with (seg +:+ "/" +:+ Js.join "/" ((next :: rest) ++ [name])).
    rewrite IH. rewrite decide_False by done. rewrite decide_False by done.
    change (Js.join "/" (seg :: next :: rest))
      with (seg +:+ "/" +:+ Js.join "/" (next :: rest)).
    by rewrite !str_app_assoc.
Qed.

Lemma isAbsolute_app a b : a ≠ "" → Path.isAbsolute (a +:+ b) = Path.isAbsolute a.
Proof. by destruct a. Qed.

Lemma normalize_regular name : Path.regular name → Path.normalize name = name.
Proof.
  intros (Hslash & Hne & Hdot & Hdots). unfold Path.normalize.
  destruct name as [|c s]; [done|].
  assert (Path.isAbsolute (String c s) = false) as ->.
  { cbn in Hslash |- *. by apply orb_false_iff in Hslash as [-> _]. }
  rewrite segments_no_slash by done. cbn [Path.resolve].
  destruct (String.eqb_spec (String c s) ""); [done|].
  destruct (String.eqb_spec (String c s) "."); [done|].
  destruct (String.eqb_spec (String c s) ".."); [done|].
  cbn [orb reverse rev_append Js.join]. done.
Qed.

Lemma normalize_root name : Path.regular name → Path.normalize ("/" +:+ name) = "/" +:+ name.
Proof.
  intros (Hslash & Hne & Hdot & Hdots).
  change ("/" +:+ name) with (String "/" name).
  unfold Path.normalize. cbn [Path.isAbsolute Path.segments].
  change (Path.isSlash "/") with true. cbv iota.
  rewrite segments_no_slash by done. cbn [Path.resolve String.eqb orb Ascii.eqb].
  destruct (String.eqb_spec name ""); [done|].
  destruct (String.eqb_spec name "."); [done|].
  destruct (String.eqb_spec name ".."); [done|].
  done.
Qed.

(** The text that [normalize] puts in front of a regular last segment. *)
Lemma normalize_below dir :
  dir ≠ "" →
  ∃ common,
    (common = "" ∨ ∃ text, common = text +:+ "/")
    ∧ ∀ name, Path.regular name →
        Path.normalize (dir +:+ "/" +:+ name) = common +:+ name.
Proof.
  intros Hdir.
  set (absolute := Path.isAbsolute dir).
  set (kept := Path.resolve absolute [] (Path.segments dir)).
  exists ((if absolute then "/" else "")
            +:+ (if decide (kept = []) then "" else Js.join "/" kept +:+ "/")).
  split.
  - destruct (decide (kept = [])).
    + destruct absolute; [right; by exists ""|by left].
    + right. exists ((if absolute then "/" else "") +:+ Js.join "/" kept).
      by rewrite str_app_assoc.
  - intros name Hreg. pose proof Hreg as (Hslash & Hne & Hdot & Hdots).
    unfold Path.normalize.
    destruct (dir +:+ "/" +:+ name) as [|c rest] eqn:Htext; [by destruct dir|].
    rewrite <- Htext. rewrite isAbsolute_app by done. fold absolute.
    rewrite segments_app_slash, (segments_no_slash name) by done.
    rewrite resolve_snoc by done. fold kept. rewrite join_snoc_text.
    destruct absolute; [by rewrite !str_app_assoc|].
    rewrite !str_app_nil_l.
    destruct (decide (kept = [])).
    + rewrite str_app_nil_l. by destruct (String.eqb_spec name "").
    + rewrite str_app_assoc.
      destruct (String.eqb_spec (Js.join "/" kept +:+ "/" +:+ name) "") as [Hempty|]; [|done].
      by destruct (Js.join "/" kept).
Qed.

(** The files of a directory: their paths are the same text followed by
    their names. *)
Lemma join_regular dir :
  ∃ common, ∀ name, Path.regular name →
    Path.normalize (Path.join dir name) = common +:+ name.
Proof.
  assert (∀ common, (common = "" ∨ ∃ text, common = text +:+ "/") →
            ∃ common', ∀ name, Path.regular name →
              Path.normalize (common +:+ name) = common' +:+ name) as Hagain.
  { intros common [->|[text ->]].
    - exists "". intros name Hreg. rewrite str_app_nil_l. by apply normalize_regular.
    - destruct (String.eqb_spec text "") as [->|Htext].
      + exists "/". intros name Hreg. rewrite str_app_nil_l. by apply normalize_root.
      + destruct (normalize_below text Htext) as (common' & _ & Hcommon').
        exists common'. intros name Hreg. rewrite str_app_assoc. by apply Hcommon'. }
  destruct (String.eqb_spec dir "") as [->|Hdir].
  - exists "". intros name Hreg. unfold Path.join. cbn [String.eqb].
    rewrite str_app_nil_l. rewrite (normalize_regular name Hreg).
    apply (normalize_regular name Hreg).
  - destruct (normalize_below dir Hdir) as (common & Hform & Hcommon).
    destruct (Hagain common Hform) as [common' Hcommon'].
    exists common'. intros name Hreg. pose proof Hreg as (_ & Hne & _).
    unfold Path.join.
    destruct (String.eqb_spec dir ""); [done|].
    destruct (String.eqb_spec name ""); [done|].
    rewrite Hcommon by done. by apply Hcommon'.
Qed.

(** A file of a directory does not lie below another file of it. *)
Lemma sibling_not_below dir name name' :
  Path.regular name → Path.regular name' →
  Js.startsWith (Path.normalize (Path.join dir name'))
    (Path.normalize (Path.join dir name) +:+ "/") = false.
Proof.
  intros Hreg Hreg'. destruct (join_regular dir) as [common Hcommon].
  rewrite !Hcommon by done. rewrite str_app_assoc, startsWith_app.
  destruct (Js.startsWith name' _) eqn:Hstart; [|done].
  apply startsWith_slash in Hstart. destruct Hreg' as (Hslash & _). congruence.
Qed.

End SiblingFacts.

(** ** index.ts: what one visit does *)

Module IndexFacts.
Import Helpers StringFacts MatchFacts RecorderFacts TreeFacts.

(** The removal range contains the node and lies within the text. *)
Lemma removalRange_bounds content count node rs re comma :
  ts.getEnd node ≤ String.length content →
  Index.removalRange content count node = (rs, re, comma) →
  rs ≤ ts.getFullStart node ∧ ts.getEnd node ≤ re ∧ re ≤ String.length content.
Proof.
  intros Hlen. unfold Index.removalRange.
  destruct (Nat.ltb 1 count); [|intros [= <- <- <-]; lia].
  destruct (Js.matchCommaAfter _) as [m|] eqn:Hafter.
  - intros [= <- <- <-]. apply matchCommaAfter_length in Hafter.
    rewrite length_substringFrom in Hafter. lia.
  - destruct (Js.matchCommaBefore _) as [m|]; intros [= <- <- <-]; lia.
Qed.

Lemma propertyNode_of_value d name v :
  getDecoratorPropertyValue d name = Some v →
  ∃ node, getDecoratorPropertyNode d name = Some node.
Proof.
  unfold getDecoratorPropertyValue, getDecoratorPropertyNode.
  destruct (find _ _); [eauto|done].
Qed.

Lemma decision_processing host p content d v node :
  Index.decision host p (Some content) = Index.Processing d v node →
  Js.endsWith p ".component.ts" = true
  ∧ (∃ nodes, parse host p content = Ok nodes
       ∧ findComponentDecorator {| ts.text := content; ts.statements := nodes |} = Some d)
  ∧ hasProperty d "templateUrl" = false
  ∧ getDecoratorPropertyValue d "template" = Some v
  ∧ getDecoratorPropertyNode d "template" = Some node.
Proof.
  unfold Index.decision.
  destruct (Js.endsWith p _); [|done]. simpl.
  destruct (parse host p content) as [nodes|]; [|done].
  destruct (findComponentDecorator _) as [d'|] eqn:Hd; [|done].
  destruct (hasProperty d' _) eqn:Hurl; [done|].
  destruct (getDecoratorPropertyValue d' _) as [v'|] eqn:Hv; [|done].
  destruct (getDecoratorPropertyNode d' _) as [n'|] eqn:Hn; [|done].
  intros [= <- <- <-]. eauto 10.
Qed.

Lemma emitted_lookup_ne html v tree (p : string) content :
  tree !! p = Some content → Index.emitted html v tree !! p = Some content.
Proof.
  intros Hp. unfold Index.emitted.
  destruct (tree !! html) eqn:Hhtml; [done|].
  rewrite lookup_insert_ne; [done|]. congruence.
Qed.

(** A unit in the state [Processing] whose node lies within the text is
    committed: the external file is emitted and the unit holds the
    spliced text. *)
Lemma visitFile_processing host p w content d v node :
  files w !! p = Some content →
  Index.decision host p (Some content) = Index.Processing d v node →
  ts.getEnd node ≤ String.length content →
  Index.emittable (files w) (Index.htmlFilePath p) = true →
  Index.visitFile host p w =
    (Ok tt,
     {| files := <[p := Index.rewritten p content d node]>
                   (Index.emitted (Index.htmlFilePath p) v (files w));
        events := events w ++ Index.emitterEvents p v (files w)
                    ++ Index.commitEvents p content (Index.rewritten p content d node) |}).
Proof.
  intros Hfile (Hends & (nodes & Hparse & Hfind) & Hno & Hval & Hnode)%decision_processing Hlen
    Hfree.
  unfold Index.visitFile. rewrite Hends. cbn [negb].
  unfold mbind, M_bind, bind, tree_read. rewrite Hfile.
  unfold createSourceFile, lift. rewrite Hparse, Hfind, Hno, Hval, Hnode.
  unfold Index.rewritten, Index.textToInsert, Index.emitterEvents, Index.commitEvents.
  destruct (Index.removalRange content _ node) as [[rs re] comma] eqn:Hrange.
  destruct (removalRange_bounds _ _ _ _ _ _ Hlen Hrange) as (Hrs & Hre & Hre').
  cbn [ts.text] in *. rewrite Hrange.
  unfold log, emit, tree_exists, tree_beginUpdate, Index.emitted.
  cbn [files events].
  assert (ts.getFullStart node ≤ ts.getStart node ∧ ts.getStart node ≤ ts.getEnd node) as [??]
    by (unfold ts.getEnd, ts.getStart; lia).
  assert (∀ tree evs, tree !! p = Some content →
    (let (r, w') := recorder_remove host
          {| recorderPath := p; original := content; removals := []; insertions := [] |}
          rs (re - rs) {| files := tree; events := evs |} in
     match r with
     | Ok a =>
         let (r0, w'0) := recorder_insertLeft host a (ts.getStart node)
             (Index.newTemplateUrlProperty p +:+ (if comma then "," else "")) w' in
         match r0 with
         | Ok a0 =>
             let (r1, w'1) := tree_commitUpdate host a0 w'0 in
             match r1 with
             | Ok _ => (Ok (), {| files := files w'1; events := events w'1 ++
                   [Logged info ("Actualizado " +:+ p +:+ ": se reemplazó 'template' por 'templateUrl'.")] |})
             | Throw e => (Throw e, w'1)
             end
         | Throw e => (Throw e, w'0)
         end
     | Throw e => (Throw e, w')
     end) =
    let new := Js.substringTo rs content
               +:+ (Index.newTemplateUrlProperty p +:+ (if comma then "," else ""))
               +:+ Js.substringFrom re content in
    (Ok tt, {| files := <[p := new]> tree;
               events := (evs ++ (if String.eqb new content then [] else [Overwritten p new]))
                          ++ [Logged info ("Actualizado " +:+ p +:+ ": se reemplazó 'template' por 'templateUrl'.")] |})) as Hcommit.
  { intros tree evs Htree.
    unfold recorder_remove, recorder_insertLeft, assertIndex, bind, ret, throw, tree_commitUpdate.
    cbn [original recorderPath removals insertions files events app].
    destruct (Nat.ltb_spec (String.length content) rs); [lia|].
    destruct (Nat.eqb_spec (re - rs) 0) as [Hz|Hz].
    - cbn [original recorderPath removals insertions files events app].
      destruct (Nat.ltb_spec (String.length content) (ts.getStart node)); [lia|].
      cbn [original recorderPath removals insertions files events app].
      rewrite Htree, String.eqb_refl.
      rewrite (edited_splice p content [] rs re); [|lia|lia|lia|right; split; [done|lia]].
      destruct (String.eqb_spec (Js.substringTo rs content +:+
          (Index.newTemplateUrlProperty p +:+ (if comma then "," else "")) +:+ Js.substringFrom re content) content) as [Heq|Hne].
      + cbn [files events]. rewrite Heq, insert_id, app_nil_r by done. done.
      + done.
    - destruct (Nat.ltb_spec (String.length content) (rs + (re - rs))); [lia|].
      cbn [original recorderPath removals insertions files events app].
      destruct (Nat.ltb_spec (String.length content) (ts.getStart node)); [lia|].
      cbn [original recorderPath removals insertions files events app].
      rewrite Htree, String.eqb_refl.
      rewrite (edited_splice p content _ rs re); [|lia|lia|lia|by left].
      destruct (String.eqb_spec (Js.substringTo rs content +:+
          (Index.newTemplateUrlProperty p +:+ (if comma then "," else "")) +:+ Js.substringFrom re content) content) as [Heq|Hne].
      + cbn [files events]. rewrite Heq, insert_id, app_nil_r by done. done.
      + done. }
  destruct (files w !! Index.htmlFilePath p) as [h|] eqn:Hhtml.
  - rewrite bool_decide_true by eauto. cbn [files events]. rewrite Hfile.
    rewrite Hcommit by done. cbn zeta. by rewrite <- !app_assoc.
  - rewrite bool_decide_false by (by intros [??]). cbn [files events].
    rewrite tree_create_free by done. cbn [files events].
    assert (Index.htmlFilePath p ≠ p) as Hne by congruence.
    rewrite lookup_insert_ne, Hfile by done.
    rewrite Hcommit by (by rewrite lookup_insert_ne). cbn zeta.
    by rewrite <- !app_assoc.
Qed.
End IndexFacts.

(** ** index.ts: the splice on a laid-out unit

    The members of the block are [es1], the [template] member [e] and
    [es2]. Three cases: a separator follows [e]; [e] is the only member;
    [e] is the last of several members and no separator follows it. *)

Module LayoutFacts.
Import Helpers Layout StringFacts MatchFacts IndexFacts.

Lemma entriesText_cons e es :
  entriesText (e :: es) = entryText e +:+ textAfter es.
Proof. destruct es; [by rewrite str_app_nil_r|done]. Qed.

Lemma textAfter_nonempty es1 e es2 :
  textAfter (es1 ++ e :: es2) = "," +:+ entriesText (es1 ++ e :: es2).
Proof. by destruct es1. Qed.

Lemma text_around es : "," +:+ textBefore es = textAfter es +:+ ",".
Proof.
  destruct es as [|e es]; [done|].
  unfold textBefore, textAfter. by rewrite !str_app_assoc.
Qed.

(** The text of the members around one of them. *)
Lemma entriesText_split es1 e es2 :
  entriesText (es1 ++ e :: es2) = textBefore es1 +:+ entryText e +:+ textAfter es2.
Proof.
  induction es1 as [|e1 es1 IH]; [apply entriesText_cons|].
  change ((e1 :: es1) ++ e :: es2) with (e1 :: (es1 ++ e :: es2)).
  rewrite entriesText_cons, textAfter_nonempty, IH.
  unfold textBefore at 2. rewrite entriesText_cons.
  rewrite !str_app_assoc. f_equal.
  rewrite <- !str_app_assoc. do 2 f_equal. apply text_around.
Qed.

Lemma length_textBefore_cons e es :
  String.length (textBefore (e :: es))
  = String.length (entryText e) + 1 + String.length (textBefore es).
Proof.
  unfold textBefore at 1. rewrite entriesText_cons, str_app_assoc, <- text_around.
  rewrite !str_length_app. simpl. lia.
Qed.

(** The nodes of the members around one of them. *)
Lemma members_split pos es1 e es2 :
  members pos (es1 ++ e :: es2)
  = members pos es1
    ++ nodeOf (pos + String.length (textBefore es1)) e
    :: members (pos + String.length (textBefore es1) + String.length (entryText e) + 1) es2.
Proof.
  revert pos. induction es1 as [|e1 es1 IH]; intros pos.
  - simpl. by rewrite Nat.add_0_r.
  - change ((e1 :: es1) ++ e :: es2) with (e1 :: (es1 ++ e :: es2)).
    cbn [members app]. rewrite IH, length_textBefore_cons.
    do 3 f_equal; [f_equal; lia|f_equal; lia].
Qed.

Lemma length_members pos es : length (members pos es) = length es.
Proof. revert pos. induction es as [|e es IH]; intros pos; simpl; [done|]. by rewrite IH. Qed.

Lemma isNamed_nodeOf name pos e : isNamed name (nodeOf pos e) = named name e.
Proof. done. Qed.

Lemma existsb_members name pos es :
  Forall (λ e, named name e = false) es →
  existsb (isNamed name) (members pos es) = false.
Proof.
  intros Hes. revert pos. induction Hes as [|e es He Hes IH]; intros pos; [done|].
  cbn [members existsb]. by rewrite isNamed_nodeOf, He, IH.
Qed.

Lemma find_members name pos es1 e es2 :
  Forall (λ e', named name e' = false) es1 →
  named name e = true →
  List.find (isNamed name) (members pos (es1 ++ e :: es2))
  = Some (nodeOf (pos + String.length (textBefore es1)) e).
Proof.
  intros Hes He. rewrite members_split.
  generalize (pos + String.length (textBefore es1)). revert pos.
  induction Hes as [|e1 es1 He1 Hes IH]; intros pos n.
  - cbn [members app List.find]. by rewrite isNamed_nodeOf, He.
  - cbn [members app List.find]. rewrite isNamed_nodeOf, He1. apply IH.
Qed.

(** The text of a file around one member of its block. *)
Lemma fileText_split f es1 e es2 :
  entries (block f) = es1 ++ e :: es2 →
  fileText f = (before f +:+ "{" +:+ textBefore es1)
               +:+ leading e +:+ source e +:+ gap e +:+ textAfter es2 +:+ blockEnd f.
Proof.
  intros Hes. unfold fileText, blockText, blockEnd. rewrite Hes, entriesText_split.
  unfold entryText. by rewrite !str_app_assoc.
Qed.

Lemma length_before f es1 :
  String.length (before f +:+ "{" +:+ textBefore es1)
  = String.length (before f) + 1 + String.length (textBefore es1).
Proof. rewrite !str_length_app. simpl. lia. Qed.

(** What index.ts decides for a laid-out file with a literal [template]
    member and no [templateUrl] member. *)
Lemma decision_layout host p f es1 e es2 v :
  Js.endsWith p ".component.ts" = true →
  parsedAs host p f →
  entries (block f) = es1 ++ e :: es2 →
  Forall (λ e', named "templateUrl" e' = false) (entries (block f)) →
  Forall (λ e', named "template" e' = false) es1 →
  kind e = ts.PropertyAssignment (ts.Identifier "template") (ts.StringLiteral v)
  ∨ kind e = ts.PropertyAssignment (ts.Identifier "template")
               (ts.NoSubstitutionTemplateLiteral v) →
  Index.decision host p (Some (fileText f))
  = Index.Processing (decorator f) v (memberNode f es1 e).
Proof.
  intros Hends (nodes & Hparse & Hfind) Hes Hurl Htemplate Hkind.
  unfold Index.decision. rewrite Hends, Hparse. cbn [negb]. rewrite Hfind.
  unfold hasProperty, getDecoratorPropertyValue, getDecoratorPropertyNode, decorator.
  cbn [ts.properties]. rewrite existsb_members by done.
  rewrite Hes, (find_members "template")
    by (done || by unfold named; destruct Hkind as [-> | ->]).
  unfold initializerOf. cbn [nodeOf ts.element].
  unfold memberNode. rewrite length_before. by destruct Hkind as [-> | ->].
Qed.

Lemma str_app_inv_head s a b : s +:+ a = s +:+ b → a = b.
Proof.
  induction s as [|c s IH]; [by rewrite !str_app_nil_l|].
  rewrite !str_app_cons. intros [= H]. auto.
Qed.

(** [/^\s*,/] does not match in front of a closing brace either. *)
Lemma matchCommaAfter_brace s t :
  Js.matchCommaAfter s = None → Js.matchCommaAfter (s +:+ "}" +:+ t) = None.
Proof.
  induction s as [|c s IH]; [done|]. rewrite str_app_cons. simpl.
  destruct (Js.isComma c); [done|]. destruct (Js.isWhiteSpace c); [|done].
  destruct (Js.matchCommaAfter s); [done|]. intros _. by rewrite IH.
Qed.

(** *** The splice on a text cut around the node *)

Section Cut.
Variables (p pre lead src post : string) (d : ts.ObjectLiteralExpression).
Variable node : ts.ObjectLiteralElement.
Hypothesis Hfull : ts.getFullStart node = String.length pre.
Hypothesis Hlead : ts.leadingWidth node = String.length lead.
Hypothesis Hwidth : ts.width node = String.length src.

Lemma cut_end : ts.getEnd node = String.length (pre +:+ lead +:+ src).
Proof.
  unfold ts.getEnd, ts.getStart. rewrite Hfull, Hlead, Hwidth, !str_length_app. lia.
Qed.

Lemma cut_after :
  Js.substringFrom (ts.getEnd node) (pre +:+ lead +:+ src +:+ post) = post.
Proof.
  rewrite cut_end.
  replace (pre +:+ lead +:+ src +:+ post) with ((pre +:+ lead +:+ src) +:+ post)
    by (by rewrite !str_app_assoc).
  apply substringFrom_app.
Qed.

Lemma cut_before :
  Js.substringTo (ts.getFullStart node) (pre +:+ lead +:+ src +:+ post) = pre.
Proof. rewrite Hfull. apply substringTo_app. Qed.

Lemma cut_within : ts.getEnd node ≤ String.length (pre +:+ lead +:+ src +:+ post).
Proof. rewrite cut_end. rewrite !str_length_app. lia. Qed.

(** A separator follows the node of a block with more than one member. *)
Lemma rewritten_before_separator ws rest :
  1 < length (ts.properties d) →
  Js.allWhiteSpace ws = true →
  post = ws +:+ "," +:+ rest →
  Index.rewritten p (pre +:+ lead +:+ src +:+ post) d node
  = pre +:+ Index.newTemplateUrlProperty p +:+ "," +:+ rest.
Proof.
  intros Hcount Hws Hpost.
  assert (Index.removalRange (pre +:+ lead +:+ src +:+ post)
            (length (ts.properties d)) node
          = (String.length pre,
             String.length (pre +:+ lead +:+ src +:+ ws +:+ ","), true)) as Hrange.
  { unfold Index.removalRange.
    destruct (Nat.ltb_spec 1 (length (ts.properties d))); [|lia].
    rewrite cut_after, Hpost, matchCommaAfter_app, Hfull, cut_end by done.
    do 2 f_equal. rewrite !str_length_app. simpl. lia. }
  unfold Index.rewritten, Index.textToInsert. rewrite Hrange.
  rewrite substringTo_app, Hpost.
  replace (pre +:+ lead +:+ src +:+ ws +:+ "," +:+ rest)
    with ((pre +:+ lead +:+ src +:+ ws +:+ ",") +:+ rest)
    by (by rewrite !str_app_assoc).
  by rewrite substringFrom_app, !str_app_assoc.
Qed.

(** The node is the only member of its block. *)
Lemma rewritten_only_member :
  length (ts.properties d) ≤ 1 →
  Index.rewritten p (pre +:+ lead +:+ src +:+ post) d node
  = pre +:+ Index.newTemplateUrlProperty p +:+ post.
Proof.
  intros Hcount.
  assert (Index.removalRange (pre +:+ lead +:+ src +:+ post)
            (length (ts.properties d)) node
          = (ts.getFullStart node, ts.getEnd node, false)) as Hrange.
  { unfold Index.removalRange.
    by destruct (Nat.ltb_spec 1 (length (ts.properties d))); [lia|]. }
  unfold Index.rewritten, Index.textToInsert. rewrite Hrange.
  by rewrite cut_after, cut_before, str_app_nil_r.
Qed.

End Cut.

(** No separator follows the node of a block with more than one member,
    and one stands in front of it. *)
Lemma rewritten_last_member p pre lead src post d node :
  ts.getFullStart node = String.length (pre +:+ ",") →
  ts.leadingWidth node = String.length lead →
  ts.width node = String.length src →
  1 < length (ts.properties d) →
  Js.matchCommaAfter post = None →
  Index.rewritten p ((pre +:+ ",") +:+ lead +:+ src +:+ post) d node
  = pre +:+ Index.newTemplateUrlProperty p +:+ post.
Proof.
  intros Hfull Hlead Hwidth Hcount Hafter.
  assert (Index.removalRange ((pre +:+ ",") +:+ lead +:+ src +:+ post)
            (length (ts.properties d)) node
          = (String.length pre, ts.getEnd node, false)) as Hrange.
  { unfold Index.removalRange.
    destruct (Nat.ltb_spec 1 (length (ts.properties d))); [|lia].
    rewrite cut_after, Hafter, cut_before by done.
    rewrite <- (str_app_nil_r (pre +:+ ",")), str_app_assoc.
    rewrite matchCommaBefore_app, Hfull by done.
    do 2 f_equal. rewrite !str_length_app. simpl. lia. }
  unfold Index.rewritten, Index.textToInsert. rewrite Hrange.
  rewrite cut_after by done. rewrite str_app_nil_r.
  by rewrite str_app_assoc, substringTo_app.
Qed.

(** *** The visit of a laid-out unit *)

Section Visit.
Variables (host : Host) (p : string) (w : World) (f : File).
Variables (es1 : list Entry) (e : Entry) (es2 : list Entry) (v : string).
Hypothesis Hends : Js.endsWith p ".component.ts" = true.
Hypothesis Hfile : files w !! p = Some (fileText f).
Hypothesis Hparse : parsedAs host p f.
Hypothesis Hes : entries (block f) = es1 ++ e :: es2.
Hypothesis Hurl : Forall (λ e', named "templateUrl" e' = false) (entries (block f)).
Hypothesis Htemplate : Forall (λ e', named "template" e' = false) es1.
Hypothesis Hkind :
  kind e = ts.PropertyAssignment (ts.Identifier "template") (ts.StringLiteral v)
  ∨ kind e = ts.PropertyAssignment (ts.Identifier "template")
               (ts.NoSubstitutionTemplateLiteral v).
Hypothesis Hfree : Index.emittable (files w) (Index.htmlFilePath p) = true.

Lemma visitFile_layout :
  ∃ w', Index.visitFile host p w = (Ok tt, w')
        ∧ files w' !! p
          = Some (Index.rewritten p (fileText f) (decorator f) (memberNode f es1 e)).
Proof.
  eexists. split.
  - apply (visitFile_processing host p w (fileText f) (decorator f) v
             (memberNode f es1 e)); [done| | |done].
    + by apply (decision_layout host p f es1 e es2 v).
    + rewrite (fileText_split f es1 e es2) by done. by apply cut_within.
  - cbn [files]. by rewrite lookup_insert_eq.
Qed.

Lemma count_layout : length (ts.properties (decorator f)) = length es1 + S (length es2).
Proof.
  unfold decorator. cbn [ts.properties].
  rewrite length_members, Hes, length_app. done.
Qed.

(** A member of a block with more than one member, followed by a
    separator: the block is the one with the reference in its place. *)
Lemma splice_before_separator :
  1 < length (entries (block f)) →
  es2 ≠ [] ∨ trailingComma (block f) = true →
  Js.allWhiteSpace (gap e) = true →
  ∃ w', Index.visitFile host p w = (Ok tt, w')
        ∧ files w' !! p
          = Some (fileText (withEntries f (es1 ++ reference p "" :: es2))).
Proof.
  intros Hcount Hsep Hgap.
  destruct visitFile_layout as (w' & Hvisit & Hp). exists w'. split; [done|].
  rewrite Hp. f_equal.
  assert (∃ rest, textAfter es2 +:+ blockEnd f = "," +:+ rest) as [rest Hrest].
  { destruct es2 as [|e2 es2'].
    - destruct Hsep as [?|Htc]; [done|]. unfold blockEnd. rewrite Htc.
      rewrite str_app_nil_l. eauto.
    - unfold textAfter. rewrite str_app_assoc. eauto. }
  rewrite (fileText_split f es1 e es2) by done.
  rewrite (rewritten_before_separator p (before f +:+ "{" +:+ textBefore es1)
             (leading e) (source e) (gap e +:+ textAfter es2 +:+ blockEnd f)
             (decorator f) (memberNode f es1 e) eq_refl eq_refl eq_refl (gap e) rest);
    [|rewrite count_layout; rewrite Hes, length_app in Hcount; simpl in Hcount; lia
     |done|by rewrite Hrest].
  rewrite (fileText_split (withEntries f (es1 ++ reference p "" :: es2))
             es1 (reference p "") es2) by done.
  cbn [withEntries before reference leading source gap].
  change (blockEnd (withEntries f _)) with (blockEnd f).
  rewrite !str_app_nil_l, Hrest. done.
Qed.

(** The only member of a block: the block is the one with the reference
    in its place. *)
Lemma splice_only_member :
  length (entries (block f)) = 1 →
  ∃ w', Index.visitFile host p w = (Ok tt, w')
        ∧ files w' !! p = Some (fileText (withEntries f [reference p (gap e)])).
Proof.
  intros Hcount.
  destruct visitFile_layout as (w' & Hvisit & Hp). exists w'. split; [done|].
  rewrite Hp. f_equal.
  assert (es1 = [] ∧ es2 = []) as [H1 H2].
  { rewrite Hes, length_app in Hcount. simpl in Hcount.
    destruct es1, es2; simpl in Hcount; (done || lia). }
  rewrite (fileText_split f es1 e es2) by done.
  rewrite (rewritten_only_member p (before f +:+ "{" +:+ textBefore es1)
             (leading e) (source e) (gap e +:+ textAfter es2 +:+ blockEnd f)
             (decorator f) (memberNode f es1 e) eq_refl eq_refl eq_refl)
    by (rewrite count_layout, H1, H2; simpl; lia).
  rewrite (fileText_split (withEntries f [reference p (gap e)])
             [] (reference p (gap e)) []) by done.
  cbn [withEntries before reference leading source gap].
  change (blockEnd (withEntries f _)) with (blockEnd f).
  by rewrite H1, H2, !str_app_nil_l.
Qed.

(** The last member of a block with more than one member and no separator
    after the last one: the reference follows the member before it with
    no separator between them, so the text is not the one of the block
    with the reference in the place of the member. *)
Lemma splice_last_member :
  es1 ≠ [] → es2 = [] → trailingComma (block f) = false →
  Js.matchCommaAfter (gap e +:+ closing (block f)) = None →
  ∃ w', Index.visitFile host p w = (Ok tt, w')
        ∧ files w' !! p
          = Some (before f +:+ "{" +:+ entriesText es1
                    +:+ Index.newTemplateUrlProperty p
                    +:+ gap e +:+ closing (block f) +:+ "}" +:+ after f)
        ∧ files w' !! p
          ≠ Some (fileText (withEntries f (es1 ++ [reference p (gap e)]))).
Proof.
  intros Hne Hlast Htc Hafter.
  destruct visitFile_layout as (w' & Hvisit & Hp). exists w'. split; [done|].
  assert (textBefore es1 = entriesText es1 +:+ ",") as Hbefore by (by destruct es1).
  assert (blockEnd f = closing (block f) +:+ "}" +:+ after f) as Hend
    by (unfold blockEnd; by rewrite Htc).
  assert (Index.rewritten p (fileText f) (decorator f) (memberNode f es1 e)
          = before f +:+ "{" +:+ entriesText es1
              +:+ Index.newTemplateUrlProperty p
              +:+ gap e +:+ closing (block f) +:+ "}" +:+ after f) as Htext.
  { rewrite (fileText_split f es1 e es2) by done.
    rewrite Hlast, Hbefore, Hend. cbn [textAfter]. rewrite str_app_nil_l.
    replace (before f +:+ "{" +:+ entriesText es1 +:+ ",")
      with ((before f +:+ "{" +:+ entriesText es1) +:+ ",")
      by (by rewrite !str_app_assoc).
    rewrite (rewritten_last_member p (before f +:+ "{" +:+ entriesText es1)).
    - by rewrite !str_app_assoc.
    - unfold memberNode. cbn [nodeOf ts.getFullStart].
      by rewrite Hbefore, !str_app_assoc.
    - done.
    - done.
    - rewrite count_layout. destruct es1; [done|simpl; lia].
    - rewrite <- str_app_assoc. by apply matchCommaAfter_brace. }
  rewrite Hp, Htext. split; [done|].
  rewrite (fileText_split (withEntries f (es1 ++ [reference p (gap e)]))
             es1 (reference p (gap e)) []) by done.
  cbn [withEntries before reference leading source gap textAfter].
  change (blockEnd (withEntries f _)) with (blockEnd f).
  rewrite Hbefore, !str_app_assoc. intros [= Heq].
  do 3 apply str_app_inv_head in Heq. discriminate Heq.
Qed.

End Visit.

(** [{ template: '<p>hi</p>', selector: 'x' }] becomes
    [{templateUrl: './x.component.html', selector: 'x' }]. *)
Lemma splice_first_of_two :
  ∃ w', Index.visitFile (Examples.tableHost [Examples.templateFirst] ["/x.component.ts"])
          "/x.component.ts"
          (Examples.worldOf [("/x.component.ts", fileText Examples.templateFirst)])
        = (Ok tt, w')
        ∧ files w' !! "/x.component.ts" = Some (fileText Examples.templateFirstMigrated).
Proof.
  apply (splice_before_separator
           (Examples.tableHost [Examples.templateFirst] ["/x.component.ts"])
           "/x.component.ts"
           (Examples.worldOf [("/x.component.ts", fileText Examples.templateFirst)])
           Examples.templateFirst [] Examples.templateHi [Examples.selectorX] "<p>hi</p>");
    [reflexivity|reflexivity|eexists; split; reflexivity|reflexivity
    |repeat constructor|constructor|by left|reflexivity|vm_compute; lia|by left|reflexivity].
Qed.

(** [{ selector: 'x', template: '<p>hi</p>' }] becomes
    [{ selector: 'x'templateUrl: './x.component.html' }]. *)
Lemma splice_last_of_two :
  ∃ w', Index.visitFile (Examples.tableHost [Examples.scenarioA] ["/x.component.ts"])
          "/x.component.ts"
          (Examples.worldOf [("/x.component.ts", fileText Examples.scenarioA)])
        = (Ok tt, w')
        ∧ files w' !! "/x.component.ts"
          = Some ("@Component({ selector: 'x'templateUrl: './x.component.html' })"
                    +:+ Js.newline +:+ "export class X {}").
Proof.
  destruct (splice_last_member
           (Examples.tableHost [Examples.scenarioA] ["/x.component.ts"])
           "/x.component.ts"
           (Examples.worldOf [("/x.component.ts", fileText Examples.scenarioA)])
           Examples.scenarioA [Examples.selectorX] Examples.templateHi [] "<p>hi</p>")
    as (w' & Hvisit & Hp & _);
    [reflexivity|reflexivity|eexists; split; reflexivity|reflexivity
    |repeat constructor|repeat constructor|by left|reflexivity
    |done|done|reflexivity|reflexivity|].
  exists w'. split; [done|]. rewrite Hp. reflexivity.
Qed.

End LayoutFacts.

(** ** index.ts: what a run does to the tree *)

Module IndexRun.
Import Helpers StringFacts MatchFacts RecorderFacts TreeFacts IndexFacts Frame.

(** The visitor on a path that is not in the state [Processing]: nothing
    but diagnostics. *)
Lemma visitFile_idle host p w :
  match Index.decision host p (files w !! p) with
  | Index.NotCandidate | Index.NoBlock => Index.visitFile host p w = (Ok tt, w)
  | Index.Unreadable =>
      Index.visitFile host p w
      = (Ok tt, {| files := files w;
                   events := events w ++ [Logged warn ("No se pudo leer el archivo: " +:+ p)] |})
  | Index.ParserFault thrown => Index.visitFile host p w = (Throw thrown, w)
  | Index.AlreadyMigrated =>
      Index.visitFile host p w
      = (Ok tt, {| files := files w;
                   events := events w
                     ++ [Logged debug ("Omitiendo " +:+ p +:+ ": ya tiene templateUrl.")] |})
  | Index.NoLiteral =>
      Index.visitFile host p w
      = (Ok tt, {| files := files w;
                   events := events w
                     ++ [Logged debug ("Omitiendo " +:+ p
                                         +:+ ": no se encontró template inline.")] |})
  | Index.Processing _ _ _ => True
  end.
Proof.
  unfold Index.decision, Index.visitFile.
  destruct (Js.endsWith p _); [|by destruct w]. cbn [negb].
  unfold mbind, M_bind, bind, tree_read.
  destruct (files w !! p) as [content|]; [|done].
  unfold createSourceFile, lift.
  destruct (parse host p content) as [nodes|thrown]; [|done].
  destruct (findComponentDecorator _) as [d|]; [|by destruct w].
  destruct (hasProperty d _); [done|].
  destruct (getDecoratorPropertyValue d _) as [v|] eqn:Hv; [|done].
  destruct (propertyNode_of_value _ _ _ Hv) as [node ->]. done.
Qed.

(** A unit in the state [Processing] whose external file cannot be
    emitted, its path being a directory: [tree.create] throws and nothing
    but the diagnostic of the start is recorded. *)
Lemma visitFile_blocked host p w content d v node :
  files w !! p = Some content →
  Index.decision host p (Some content) = Index.Processing d v node →
  Index.emittable (files w) (Index.htmlFilePath p) = false →
  ∃ thrown,
    Index.visitFile host p w =
      (Throw thrown,
       {| files := files w;
          events := events w
            ++ [Logged info ("Procesando " +:+ p +:+ ": migrando template inline.")] |}).
Proof.
  intros Hfile (Hends & (nodes & Hparse & Hfind) & Hno & Hval & Hnode)%decision_processing
    Hblocked.
  unfold Index.visitFile. rewrite Hends. cbn [negb].
  unfold mbind, M_bind, bind, tree_read. rewrite Hfile.
  unfold createSourceFile, lift. rewrite Hparse, Hfind, Hno, Hval.
  unfold log, emit, tree_exists. cbn [files events].
  destruct (tree_create_directory host (Index.htmlFilePath p) v w Hblocked) as [Hnone _].
  rewrite bool_decide_false by (rewrite Hnone; by intros [??]).
  match goal with |- context [tree_create host _ _ ?w1] =>
    destruct (tree_create_directory host (Index.htmlFilePath p) v w1 Hblocked)
      as [_ ->] end.
  by eexists.
Qed.

(** A unit in the state [Processing] whose node runs past the end of the
    text: the removal is refused, after the external file was emitted. *)
Lemma visitFile_refused host p w content d v node :
  files w !! p = Some content →
  Index.decision host p (Some content) = Index.Processing d v node →
  String.length content < ts.getEnd node →
  Index.emittable (files w) (Index.htmlFilePath p) = true →
  ∃ thrown,
    Index.visitFile host p w =
      (Throw thrown,
       {| files := Index.emitted (Index.htmlFilePath p) v (files w);
          events := events w ++ Index.emitterEvents p v (files w) |}).
Proof.
  intros Hfile (Hends & (nodes & Hparse & Hfind) & Hno & Hval & Hnode)%decision_processing Hlen
    Hfree.
  unfold Index.visitFile. rewrite Hends. cbn [negb].
  unfold mbind, M_bind, bind, tree_read. rewrite Hfile.
  unfold createSourceFile, lift. rewrite Hparse, Hfind, Hno, Hval, Hnode.
  cbn [ts.text].
  destruct (Index.removalRange content _ node) as [[rs re] comma] eqn:Hrange.
  assert (ts.getEnd node ≤ re) as Hre.
  { revert Hrange. unfold Index.removalRange.
    destruct (Nat.ltb 1 _); [|intros [= <- <- <-]; lia].
    destruct (Js.matchCommaAfter _); [intros [= <- <- <-]; lia|].
    destruct (Js.matchCommaBefore _); intros [= <- <- <-]; lia. }
  unfold log, emit, tree_exists, tree_beginUpdate, Index.emitted,
    Index.emitterEvents.
  cbn [files events].
  assert (∀ tree evs, ∃ thrown,
    (let (r, w') := recorder_remove host
          {| recorderPath := p; original := content; removals := []; insertions := [] |}
          rs (re - rs) {| files := tree; events := evs |} in
     match r with
     | Ok a =>
         let (r0, w'0) := recorder_insertLeft host a (ts.getStart node)
             (Index.newTemplateUrlProperty p +:+ (if comma then "," else "")) w' in
         match r0 with
         | Ok a0 =>
             let (r1, w'1) := tree_commitUpdate host a0 w'0 in
             match r1 with
             | Ok _ => (Ok (), {| files := files w'1; events := events w'1 ++
                   [Logged info ("Actualizado " +:+ p +:+ ": se reemplazó 'template' por 'templateUrl'.")] |})
             | Throw e => (Throw e, w'1)
             end
         | Throw e => (Throw e, w'0)
         end
     | Throw e => (Throw e, w')
     end) = (Throw thrown, {| files := tree; events := evs |})) as Hrefused.
  { intros tree evs.
    unfold recorder_remove, assertIndex, bind, ret, throw.
    cbn [original].
    destruct (Nat.ltb_spec (String.length content) rs); [by eexists|].
    destruct (Nat.eqb_spec (re - rs) 0); [lia|].
    destruct (Nat.ltb_spec (String.length content) (rs + (re - rs))); [by eexists|lia]. }
  destruct (files w !! Index.htmlFilePath p) as [h|] eqn:Hhtml.
  - rewrite bool_decide_true by eauto. cbn [files events]. rewrite Hfile.
    edestruct Hrefused as [thrown ->]. exists thrown. by rewrite <- !app_assoc.
  - rewrite bool_decide_false by (by intros [??]). cbn [files events].
    rewrite tree_create_free by done. cbn [files events].
    assert (Index.htmlFilePath p ≠ p) as Hne by congruence.
    rewrite lookup_insert_ne, Hfile by done.
    edestruct Hrefused as [thrown ->]. exists thrown. by rewrite <- !app_assoc.
Qed.

Lemma preserved_refl w : preserved w w.
Proof.
  exists []. rewrite app_nil_r. split_and!; [done|eauto|].
  intros q c Hin. by apply elem_of_nil in Hin.
Qed.

Lemma preserved_trans w1 w2 w3 : preserved w1 w2 → preserved w2 w3 → preserved w1 w3.
Proof.
  intros (evs1 & Hev1 & Hfiles1 & Hnew1) (evs2 & Hev2 & Hfiles2 & Hnew2).
  exists (evs1 ++ evs2). split_and!.
  - by rewrite Hev2, Hev1, app_assoc.
  - intros q c Hq. destruct (Hfiles1 q c Hq) as [Hsame|(Hcand & c1 & Hc1 & Hin1)].
    + destruct (Hfiles2 q c Hsame) as [?|(? & c2 & ? & ?)]; [by left|].
      right. split; [done|]. exists c2. split; [done|]. apply elem_of_app. by right.
    + right. split; [done|].
      destruct (Hfiles2 q c1 Hc1) as [?|(? & c2 & ? & ?)].
      * exists c1. split; [done|]. apply elem_of_app. by left.
      * exists c2. split; [done|]. apply elem_of_app. by right.
  - intros q c [Hin|Hin]%elem_of_app; [by eapply Hnew1|].
    destruct (files w1 !! q) as [c1|] eqn:Hq; [|done].
    specialize (Hnew2 q c Hin).
    destruct (Hfiles1 q c1 Hq) as [?|(? & c2 & ? & ?)]; congruence.
Qed.

Lemma preserved_logs w (evs : list Event) :
  forallb isLogged evs = true →
  preserved w {| files := files w; events := events w ++ evs |}.
Proof.
  intros Hlogs. exists evs. split_and!; [done|eauto|].
  intros q c Hin. rewrite forallb_forall in Hlogs.
  apply list_elem_of_In, Hlogs in Hin. done.
Qed.

Lemma emitted_keeps html v (tree : gmap string string) q c :
  tree !! q = Some c → Index.emitted html v tree !! q = Some c.
Proof. apply emitted_lookup_ne. Qed.

(** The external file is emitted (events [evs]) and then the tree becomes
    [tree'] (events [evs']). *)
Lemma preserved_emitted w html v (evs evs' : list Event) tree' :
  (∀ q c, Created q c ∈ evs → q = html ∧ files w !! q = None) →
  (∀ q c, Created q c ∈ evs' → False) →
  (∀ q c, Index.emitted html v (files w) !! q = Some c →
     tree' !! q = Some c
     ∨ (isCandidate q = true ∧ ∃ c', tree' !! q = Some c' ∧ Overwritten q c' ∈ evs')) →
  preserved w {| files := tree'; events := events w ++ evs ++ evs' |}.
Proof.
  intros Hcreated Hnone Htree. exists (evs ++ evs'). split_and!; [done| |].
  - intros q c Hq. cbn [files].
    destruct (Htree q c (emitted_keeps _ _ _ _ _ Hq)) as [?|(? & c' & ? & ?)]; [by left|].
    right. split; [done|]. exists c'. split; [done|]. apply elem_of_app. by right.
  - intros q c [Hin|Hin]%elem_of_app.
    + by apply Hcreated in Hin as [_ ?].
    + by apply Hnone in Hin.
Qed.

Lemma created_by_emitter p v (tree : gmap string string) q c :
  Created q c ∈ Index.emitterEvents p v tree →
  q = Index.htmlFilePath p ∧ tree !! q = None.
Proof.
  unfold Index.emitterEvents. intros [?|Hin]%elem_of_cons; [done|].
  destruct (tree !! Index.htmlFilePath p) eqn:Hh.
  - by apply list_elem_of_singleton in Hin.
  - apply elem_of_cons in Hin as [[= -> ->]|Hin]; [done|].
    by apply list_elem_of_singleton in Hin.
Qed.

Lemma created_by_commit p content new q c :
  Created q c ∈ Index.commitEvents p content new → False.
Proof.
  unfold Index.commitEvents. intros [Hq|Hq]%elem_of_app.
  - destruct (String.eqb _ _); [by apply elem_of_nil in Hq|].
    by apply list_elem_of_singleton in Hq.
  - by apply list_elem_of_singleton in Hq.
Qed.

Lemma overwritten_by_commit p content new :
  new ≠ content → Overwritten p new ∈ Index.commitEvents p content new.
Proof.
  intros Hne. unfold Index.commitEvents.
  destruct (String.eqb_spec new content); [done|].
  apply elem_of_app. left. by apply list_elem_of_singleton.
Qed.

(** One visit of index.ts keeps the files of the world it starts in. *)
Lemma visitFile_preserved host p w r w' :
  Index.visitFile host p w = (r, w') → preserved w w'.
Proof.
  intros Hvisit. pose proof (visitFile_idle host p w) as Hidle.
  destruct (Index.decision host p (files w !! p)) as [| |thrown| | | |d v node] eqn:Hdec;
    try rewrite Hidle in Hvisit; try (injection Hvisit as <- <-);
    try apply preserved_refl; try by apply preserved_logs.
  clear Hidle.
  destruct (files w !! p) as [content|] eqn:Hfile;
    [|by unfold Index.decision in Hdec; destruct (Js.endsWith p _)].
  pose proof Hdec as (Hends & _)%decision_processing.
  destruct (Index.emittable (files w) (Index.htmlFilePath p)) eqn:Hfree; cycle 1.
  { destruct (visitFile_blocked host p w content d v node) as [thrown Hblocked];
      [done..|].
    rewrite Hblocked in Hvisit. apply (inj2 pair) in Hvisit as [<- <-].
    by apply (preserved_logs w [_]). }
  destruct (decide (ts.getEnd node ≤ String.length content)) as [Hin|Hout].
  - rewrite (visitFile_processing host p w content d v node) in Hvisit by done.
    apply (inj2 pair) in Hvisit as [<- <-].
    apply (preserved_emitted w (Index.htmlFilePath p) v).
    + apply created_by_emitter.
    + apply created_by_commit.
    + intros q c Hq. destruct (decide (q = p)) as [->|Hne].
      * rewrite lookup_insert_eq.
        rewrite (emitted_keeps _ _ _ _ _ Hfile) in Hq. injection Hq as <-.
        destruct (decide (Index.rewritten p content d node = content)) as [Heq|Hneq].
        -- left. by rewrite Heq.
        -- right. split; [done|]. eexists. split; [done|].
           by apply overwritten_by_commit.
      * left. by rewrite lookup_insert_ne.
  - destruct (visitFile_refused host p w content d v node) as [thrown Hrefused];
      [done|done|lia|done|].
    rewrite Hrefused in Hvisit. apply (inj2 pair) in Hvisit as [<- <-].
    rewrite <- (app_nil_r (Index.emitterEvents _ _ _)).
    apply (preserved_emitted w (Index.htmlFilePath p) v).
    + apply created_by_emitter.
    + intros q c Hq. by apply elem_of_nil in Hq.
    + intros q c Hq. by left.
Qed.

Lemma forEach_preserved host paths w r w' :
  forEach paths (Index.visitFile host) w = (r, w') → preserved w w'.
Proof.
  revert w. induction paths as [|p paths IH]; intros w; simpl.
  - intros [= <- <-]. apply preserved_refl.
  - unfold bind. destruct (Index.visitFile host p w) as [[[]|thrown] w1] eqn:Hvisit.
    + intros Hrest. eapply preserved_trans; [by eapply visitFile_preserved|by eapply IH].
    + intros [= <- <-]. by eapply visitFile_preserved.
Qed.

(** A run of index.ts keeps the files of the world it starts in. *)
Lemma migrarTemplates_preserved host w r w' :
  Index.migrarTemplates host w = (r, w') → preserved w w'.
Proof.
  unfold Index.migrarTemplates, mbind, M_bind, bind, log, emit, visit. cbn [files events].
  destruct (listFiles host "/" (files w)) as [paths|thrown].
  - destruct (forEach paths _ _) as [[[]|thrown] w1] eqn:Hrun.
    + intros [= <- <-]. apply forEach_preserved in Hrun.
      eapply preserved_trans; [|eapply preserved_trans; [exact Hrun|]].
      * by apply (preserved_logs w [_]).
      * by apply (preserved_logs w1 [_]).
    + intros [= <- <-]. apply forEach_preserved in Hrun.
      eapply preserved_trans; [|exact Hrun]. by apply (preserved_logs w [_]).
  - intros [= <- <-]. by apply (preserved_logs w [_]).
Qed.

End IndexRun.

(** ** The guards of the migrations and the faults of a visit *)

Module GuardFacts.
Import Helpers StringFacts MatchFacts IndexFacts IndexRun.

Lemma found_is_named name (props : list ts.ObjectLiteralElement) prop :
  List.find (isNamed name) props = Some prop → prop ∈ props ∧ isNamed name prop = true.
Proof. intros [??]%find_some. by rewrite list_elem_of_In. Qed.

(** A value is extracted only from a literal member. *)
Lemma value_has_literal d name v :
  getDecoratorPropertyValue d name = Some v → hasLiteral isStringLiteral d name = true.
Proof.
  unfold getDecoratorPropertyValue, hasLiteral.
  destruct (List.find _ _) as [prop|] eqn:Hfind; [|done].
  apply found_is_named in Hfind as [Hin Hnamed]. intros Hv.
  apply existsb_exists. exists prop. split; [by apply list_elem_of_In|].
  rewrite Hnamed. by destruct (initializerOf prop).
Qed.

Lemma styles_value_has_literal d name v :
  Styles.getDecoratorPropertyValue d name = Some v →
  hasLiteral Styles.isLiteral d name = true.
Proof.
  unfold Styles.getDecoratorPropertyValue, hasLiteral.
  destruct (List.find _ _) as [prop|] eqn:Hfind; [|done].
  apply found_is_named in Hfind as [Hin Hnamed]. intros Hv.
  apply existsb_exists. exists prop. split; [by apply list_elem_of_In|].
  rewrite Hnamed. by destruct (initializerOf prop).
Qed.

(** The extractor of the styles revision on a member whose value is not a
    literal. *)
Lemma styles_value_of_other d name node :
  getDecoratorPropertyNode d name = Some node →
  Styles.isLiteral (initializerOf node) = false →
  Styles.getDecoratorPropertyValue d name = None.
Proof.
  unfold getDecoratorPropertyNode, Styles.getDecoratorPropertyValue.
  intros -> Hother. by destruct (initializerOf node).
Qed.

Lemma value_of_other d name node :
  getDecoratorPropertyNode d name = Some node →
  isStringLiteral (initializerOf node) = false →
  getDecoratorPropertyValue d name = None.
Proof.
  unfold getDecoratorPropertyNode, getDecoratorPropertyValue.
  intros -> Hother. by destruct (initializerOf node).
Qed.

Lemma migrateTemplate_idle host p content d w :
  hasProperty d "templateUrl" = true
  ∨ Styles.getDecoratorPropertyValue d "template" = None →
  Styles.migrateTemplate host p content d w = (Ok tt, w).
Proof.
  unfold Styles.migrateTemplate. intros [->| Hnone]; [done|].
  destruct (hasProperty d _); [done|]. by rewrite Hnone.
Qed.

Lemma migrateStyles_idle host p content d w :
  hasProperty d "styleUrls" = true
  ∨ Styles.getDecoratorPropertyValue d "styles" = None →
  Styles.migrateStyles host p content d w = (Ok tt, w).
Proof.
  unfold Styles.migrateStyles. intros [->| Hnone]; [done|].
  destruct (hasProperty d _); [done|]. by rewrite Hnone.
Qed.

Lemma migrateTemplate_guard host p content d w :
  files (snd (Styles.migrateTemplate host p content d w)) ≠ files w →
  hasProperty d "templateUrl" = false ∧ hasLiteral Styles.isLiteral d "template" = true.
Proof.
  intros Hchanged.
  destruct (hasProperty d "templateUrl") eqn:Hurl.
  { by rewrite migrateTemplate_idle in Hchanged by auto. }
  destruct (Styles.getDecoratorPropertyValue d "template") as [v|] eqn:Hv.
  - eauto using styles_value_has_literal.
  - by rewrite migrateTemplate_idle in Hchanged by auto.
Qed.

Lemma migrateStyles_guard host p content d w :
  files (snd (Styles.migrateStyles host p content d w)) ≠ files w →
  hasProperty d "styleUrls" = false ∧ hasLiteral Styles.isLiteral d "styles" = true.
Proof.
  intros Hchanged.
  destruct (hasProperty d "styleUrls") eqn:Hurl.
  { by rewrite migrateStyles_idle in Hchanged by auto. }
  destruct (Styles.getDecoratorPropertyValue d "styles") as [v|] eqn:Hv.
  - eauto using styles_value_has_literal.
  - by rewrite migrateStyles_idle in Hchanged by auto.
Qed.

Lemma visitFile_guard host p w :
  files (snd (Index.visitFile host p w)) ≠ files w →
  ∃ content d v node,
    files w !! p = Some content
    ∧ Index.decision host p (Some content) = Index.Processing d v node
    ∧ hasProperty d "templateUrl" = false
    ∧ hasLiteral isStringLiteral d "template" = true.
Proof.
  intros Hchanged. pose proof (visitFile_idle host p w) as Hidle.
  destruct (Index.decision host p (files w !! p)) as [| |thrown| | | |d v node] eqn:Hdec;
    try (by rewrite Hidle in Hchanged).
  destruct (files w !! p) as [content|] eqn:Hfile;
    [|by unfold Index.decision in Hdec; destruct (Js.endsWith p _)].
  pose proof Hdec as (_ & _ & Hurl & Hv & _)%decision_processing.
  exists content, d, v, node. eauto using value_has_literal.
Qed.

(** The body of the per-file [try] of the styles revision on a unit that
    is read and parsed and has a block: the template block, then the
    styles block. *)
Lemma processFile_blocks host p w content nodes d :
  Js.endsWith p ".component.ts" = true →
  files w !! p = Some content →
  parse host p content = Ok nodes →
  findComponentDecorator {| ts.text := content; ts.statements := nodes |} = Some d →
  Styles.processFile host p w
  = (Styles.migrateTemplate host p content d ≫= λ _, Styles.migrateStyles host p content d) w.
Proof.
  intros Hends Hfile Hparse Hfind. unfold Styles.processFile.
  rewrite Hends. cbn [negb]. unfold mbind at 1, M_bind at 1, bind at 1, tree_read.
  rewrite Hfile. unfold mbind at 1, M_bind at 1, bind at 1, createSourceFile, lift.
  by rewrite Hparse, Hfind.
Qed.

Lemma styles_removalRange_start content node rs re :
  Styles.removalRange content node = (rs, re) →
  rs ≤ ts.getFullStart node ∧ re = Nat.min (String.length content) (ts.getEnd node).
Proof.
  unfold Styles.removalRange. simpl.
  destruct (Js.matchCommaBefore _); intros [= <- <-]; split; lia.
Qed.

(** The template block of the styles revision does not throw on a unit
    that is in the tree with the content that was parsed, when the path
    of the external file is no directory. *)
Lemma migrateTemplate_returns host p content d w :
  files w !! p = Some content →
  Index.emittable (files w) (Styles.htmlFilePath p) = true →
  ∃ w', Styles.migrateTemplate host p content d w = (Ok tt, w').
Proof.
  intros Hfile Hfree. unfold Styles.migrateTemplate.
  destruct (hasProperty d _); [by eexists|].
  destruct (Styles.getDecoratorPropertyValue d _) as [v|]; [|by eexists].
  assert (∀ w1, files w1 !! p = Some content →
    ∃ w', (match getDecoratorPropertyNode d "template" with
     | Some templatePropertyNode =>
         recorder ← tree_beginUpdate host p;
         let fileLength := String.length content in
         let '(removalStart, removalEnd) := Styles.removalRange content templatePropertyNode in
         if Nat.ltb removalStart fileLength && Nat.leb removalEnd fileLength
         then
           recorder0 ← recorder_remove host recorder removalStart (removalEnd - removalStart);
           recorder1 ← recorder_insertLeft host recorder0 removalStart
             ("," +:+ Js.newline +:+ "  templateUrl: './" +:+ Styles.htmlFileName p +:+ "'");
           tree_commitUpdate host recorder1
         else log warn ("  ⚠️ Skipping template update for " +:+ p +:+ ": Invalid removal range")
     | None => mret ()
     end) w1 = (Ok tt, w')) as Hrest.
  { intros w1 Hfile1.
    destruct (getDecoratorPropertyNode d _) as [node|]; [|by eexists].
    unfold mbind, M_bind, bind, tree_beginUpdate. rewrite Hfile1.
    destruct (Styles.removalRange content node) as [rs re] eqn:Hrange.
    apply styles_removalRange_start in Hrange as [Hrs ->].
    destruct (Nat.ltb_spec rs (String.length content)) as [Hlt|]; [|by eexists].
    destruct (Nat.leb_spec (Nat.min (String.length content) (ts.getEnd node))
                (String.length content)) as [Hle|]; [|by eexists].
    cbn [andb].
    unfold recorder_remove, recorder_insertLeft, assertIndex, bind, ret, throw, tree_commitUpdate.
    cbn [original recorderPath].
    destruct (Nat.ltb_spec (String.length content) rs); [lia|].
    destruct (Nat.eqb _ 0); cbn [original recorderPath].
    - destruct (Nat.ltb_spec (String.length content) rs); [lia|].
      cbn [original recorderPath]. rewrite Hfile1, String.eqb_refl.
      destruct (String.eqb _ _); by eexists.
    - destruct (Nat.ltb_spec (String.length content)
                  (rs + (Nat.min (String.length content) (ts.getEnd node) - rs))); [lia|].
      cbn [original recorderPath].
      destruct (Nat.ltb_spec (String.length content) rs); [lia|].
      cbn [original recorderPath]. rewrite Hfile1, String.eqb_refl.
      destruct (String.eqb _ _); by eexists. }
  unfold mbind at 1 2, M_bind at 1 2, bind at 1 2, tree_exists.
  destruct (files w !! Styles.htmlFilePath p) eqn:Hhtml.
  - rewrite bool_decide_true by eauto. cbn [mret M_ret ret]. by apply Hrest.
  - rewrite bool_decide_false by (by intros [??]).
    rewrite TreeFacts.tree_create_free by done. apply Hrest.
    cbn [files]. rewrite lookup_insert_ne; [done|congruence].
Qed.

Ltac unfold_devkit :=
  unfold mbind, M_bind, bind, log, emit, tree_read, createSourceFile, lift, tree_exists,
    tree_create, tree_beginUpdate, recorder_remove, recorder_insertLeft, assertIndex,
    bind, ret, throw, tree_commitUpdate, mret, M_ret, ret in *;
  cbn [files events original recorderPath removals insertions] in *.

(** A fault in the body of the per-file [try] of the guarded revision
    leaves the file of the unit as it was: the commit is the last step
    that can change it and nothing after the commit throws. *)
Lemma guarded_fault_keeps_unit host p w thrown w1 :
  Guarded.processFile host p w = (Throw thrown, w1) →
  files w1 !! p = files w !! p.
Proof.
  unfold Guarded.processFile. unfold_devkit. intros Hrun.
  repeat (case_match; simplify_eq/=; try done);
    try (rewrite lookup_insert_ne; [done|congruence]).
Qed.

End GuardFacts.

Module FaultFacts.

Lemma report_spec level heading thrown w :
  Faults.report level heading thrown w
  = (Ok tt, {| files := files w;
               events := events w ++ (Logged level <$> heading :: Faults.lines thrown) |}).
Proof.
  unfold Faults.report, Faults.lines, mbind, M_bind, bind, log, emit, mret, M_ret, ret.
  cbn [files events].
  destruct thrown as [message [trace|]|text]; cbn [files events fmap list_fmap];
    try destruct (String.eqb trace ""); cbn [files events];
    by rewrite <- ?app_assoc.
Qed.

(** A visitor that wraps its body in try/catch returns normally: with the
    world of the body, or with the world at the throw and the report. *)
Lemma guarded_visit (body : M unit) heading w :
  tryCatch body (Faults.report error heading) w
  = match body w with
    | (Ok _, w1) => (Ok tt, w1)
    | (Throw thrown, w1) =>
        (Ok tt, {| files := files w1;
                   events := events w1 ++ (Logged error <$> heading :: Faults.lines thrown) |})
    end.
Proof.
  unfold tryCatch. destruct (body w) as [[[]|thrown] w1]; [done|apply report_spec].
Qed.

(** The traversal with its catch block, when the listing throws. *)
Lemma traversal_fault host root visitor thrown w :
  listFiles host root (files w) = Throw thrown →
  tryCatch (visit host root visitor)
    (λ thrown, Faults.report fatal "❌ Fatal error starting file traversal:" thrown;;
               throw thrown) w
  = (Throw thrown,
     {| files := files w;
        events := events w
          ++ (Logged fatal <$> "❌ Fatal error starting file traversal:"
                :: Faults.lines thrown) |}).
Proof.
  intros Hlist. unfold tryCatch, visit. rewrite Hlist.
  unfold mbind, M_bind, bind. by rewrite report_spec.
Qed.

End FaultFacts.

(** ** index.ts: a second run *)

Module Rerun.
Import Helpers StringFacts MatchFacts IndexFacts IndexRun PathFacts Frame.

Lemma candidate_decision host p buffer :
  Js.endsWith p ".component.ts" = false → Index.decision host p buffer = Index.NotCandidate.
Proof. unfold Index.decision. by intros ->. Qed.

Lemma unreadable_decision host p :
  Index.settled (Index.decision host p None) = true.
Proof. unfold Index.decision. by destruct (Js.endsWith p _). Qed.

(** A visit in a settled state adds diagnostics and nothing else. *)
Lemma visitFile_settled host p w :
  Index.settled (Index.decision host p (files w !! p)) = true →
  ∃ evs, Index.visitFile host p w
         = (Ok tt, {| files := files w; events := events w ++ evs |})
         ∧ forallb isLogged evs = true.
Proof.
  intros Hsettled. pose proof (visitFile_idle host p w) as Hidle.
  destruct (Index.decision host p (files w !! p)); try done.
  - exists []. rewrite Hidle, app_nil_r. by destruct w.
  - eexists [_]. by rewrite Hidle.
  - exists []. rewrite Hidle, app_nil_r. by destruct w.
  - eexists [_]. by rewrite Hidle.
  - eexists [_]. by rewrite Hidle.
Qed.

Lemma forEach_settled host paths w :
  Index.allSettled host (files w) →
  ∃ r evs, forEach paths (Index.visitFile host) w
           = (r, {| files := files w; events := events w ++ evs |})
           ∧ forallb isLogged evs = true.
Proof.
  intros Hall. revert w Hall. induction paths as [|p paths IH]; intros w Hall.
  - exists (Ok tt), []. rewrite app_nil_r. by destruct w.
  - destruct (visitFile_settled host p w) as (evs & Hvisit & Hlogs).
    { destruct (files w !! p) as [c|] eqn:Hfile; [by eapply Hall|].
      apply unreadable_decision. }
    simpl. unfold bind. rewrite Hvisit.
    destruct (IH {| files := files w; events := events w ++ evs |} Hall)
      as (r & evs' & -> & Hlogs').
    exists r, (evs ++ evs'). cbn [files events]. rewrite app_assoc. split; [done|].
    by rewrite forallb_app, Hlogs, Hlogs'.
Qed.

Section FirstRun.
Variables (host : Host) (tree0 : gmap string string).
Hypothesis reparse :
  ∀ p content d v node,
    tree0 !! p = Some content →
    Index.decision host p (Some content) = Index.Processing d v node →
    Index.decision host p (Some (Index.rewritten p content d node)) = Index.AlreadyMigrated.

Lemma visitFile_pending p rest w w' :
  Index.pending host tree0 (p :: rest) (files w) →
  Index.visitFile host p w = (Ok tt, w') →
  Index.pending host tree0 rest (files w').
Proof.
  intros Hpending Hvisit q c Hq.
  pose proof (visitFile_idle host p w) as Hidle.
  destruct (Index.decision host p (files w !! p)) as [| |thrown| | | |d v node] eqn:Hdec;
    try (rewrite Hidle in Hvisit; apply (inj2 pair) in Hvisit as [_ <-];
         cbn [files] in Hq;
         destruct (Hpending q c Hq) as [[[->|?]%elem_of_cons ?]|?]; [|by left|by right];
         right; rewrite Hq in Hdec; by rewrite Hdec).
  { by rewrite Hidle in Hvisit. }
  clear Hidle.
  destruct (files w !! p) as [content|] eqn:Hfile;
    [|by unfold Index.decision in Hdec; destruct (Js.endsWith p _)].
  destruct (Index.emittable (files w) (Index.htmlFilePath p)) eqn:Hfree; cycle 1.
  { destruct (visitFile_blocked host p w content d v node) as [thrown Hblocked];
      [done..|]. by rewrite Hblocked in Hvisit. }
  destruct (decide (ts.getEnd node ≤ String.length content)) as [Hin|Hout].
  - rewrite (visitFile_processing host p w content d v node) in Hvisit by done.
    apply (inj2 pair) in Hvisit as [_ <-]. cbn [files] in Hq.
    destruct (decide (q = p)) as [->|Hne].
    + rewrite lookup_insert_eq in Hq. injection Hq as <-. right.
      destruct (Hpending p content Hfile) as [[_ Hstart]|Hsettled].
      * by rewrite (reparse p content d v node).
      * by rewrite Hdec in Hsettled.
    + rewrite lookup_insert_ne in Hq by done. unfold Index.emitted in Hq.
      destruct (files w !! Index.htmlFilePath p) eqn:Hhtml.
      * destruct (Hpending q c Hq) as [[[->|?]%elem_of_cons ?]|?];
          [done|by left|by right].
      * destruct (decide (q = Index.htmlFilePath p)) as [->|Hne'].
        -- right. by rewrite candidate_decision by apply htmlFilePath_not_candidate.
        -- rewrite lookup_insert_ne in Hq by done.
           destruct (Hpending q c Hq) as [[[->|?]%elem_of_cons ?]|?];
             [done|by left|by right].
  - destruct (visitFile_refused host p w content d v node) as [thrown Hrefused];
      [done|done|lia|done|]. by rewrite Hrefused in Hvisit.
Qed.

Lemma forEach_pending paths w w' :
  Index.pending host tree0 paths (files w) →
  forEach paths (Index.visitFile host) w = (Ok tt, w') →
  Index.allSettled host (files w').
Proof.
  revert w. induction paths as [|p paths IH]; intros w Hpending; simpl.
  - intros [= <-] q c Hq. destruct (Hpending q c Hq) as [[Hin _]|?]; [|done].
    by apply elem_of_nil in Hin.
  - unfold bind. destruct (Index.visitFile host p w) as [[[]|thrown] w1] eqn:Hvisit; [|done].
    apply IH. by eapply visitFile_pending.
Qed.

End FirstRun.

End Rerun.

(** ** The claims on the splice of index.ts *)

Section SpliceClaims.
Import Helpers StringFacts MatchFacts IndexFacts.

(** C3. index.ts, a block with more than one entry whose migrated entry is
  the last one: the text is [pre , ws lead src rest], the node of the
  entry starting after the comma and the white space [ws], with leading
  trivia [lead] and tokens [src], and no separator follows it
  ([/^\s*,/] does not match [rest]). Then the removal starts at the
  comma (it is retracted over the comma and [ws]) and ends at the end of
  the node, the inserted text is the bare [templateUrl] property without
  a trailing comma, and the unit becomes [pre], the new property and
  [rest]: what followed the old entry follows the new one, and no
  separator begins it. The visit commits that text whenever the emitter
  does not throw, that is, unless the path of the external file is a
  directory of the tree. *)
Theorem C3_last_entry_consumes_preceding_separator
  host p w pre ws lead src rest d v node :
let content := pre +:+ "," +:+ ws +:+ lead +:+ src +:+ rest in
files w !! p = Some content →
Index.decision host p (Some content) = Index.Processing d v node →
1 < length (ts.properties d) →
Js.allWhiteSpace ws = true →
ts.getFullStart node = String.length (pre +:+ "," +:+ ws) →
ts.leadingWidth node = String.length lead →
ts.width node = String.length src →
Js.matchCommaAfter rest = None →
Index.removalRange content (length (ts.properties d)) node
  = (String.length pre, String.length (pre +:+ "," +:+ ws +:+ lead +:+ src), false)
∧ Index.textToInsert p content d node = "templateUrl: './" +:+ Index.htmlFileName p +:+ "'"
∧ (Index.emittable (files w) (Index.htmlFilePath p) = true →
   ∃ w', Index.visitFile host p w = (Ok tt, w')
         ∧ files w' !! p = Some (pre +:+ Index.textToInsert p content d node +:+ rest)).
Proof.
intros content Hfile Hdec Hcount Hws Hfull Hlead Hwidth Hafter.
assert (ts.getEnd node = String.length (pre +:+ "," +:+ ws +:+ lead +:+ src)) as Hend.
{ unfold ts.getEnd, ts.getStart. rewrite Hfull, Hlead, Hwidth.
  rewrite !str_length_app. lia. }
assert (content = (pre +:+ "," +:+ ws +:+ lead +:+ src) +:+ rest) as Hcut1.
{ unfold content. by rewrite !str_app_assoc. }
assert (content = (pre +:+ "," +:+ ws) +:+ lead +:+ src +:+ rest) as Hcut2.
{ unfold content. by rewrite !str_app_assoc. }
assert (Index.removalRange content (length (ts.properties d)) node
        = (String.length pre, String.length (pre +:+ "," +:+ ws +:+ lead +:+ src), false))
  as Hrange.
{ assert (Js.substringFrom (ts.getEnd node) content = rest) as Hrest
    by (rewrite Hend, Hcut1; apply substringFrom_app).
  assert (Js.substringTo (ts.getFullStart node) content = pre +:+ "," +:+ ws) as Hpre
    by (rewrite Hfull, Hcut2; apply substringTo_app).
  unfold Index.removalRange.
  destruct (Nat.ltb_spec 1 (length (ts.properties d))); [|lia].
  rewrite Hrest, Hafter, Hpre, matchCommaBefore_app, Hend, Hfull by done.
  do 2 f_equal. rewrite !str_length_app. simpl. lia. }
assert (Index.textToInsert p content d node
        = "templateUrl: './" +:+ Index.htmlFileName p +:+ "'") as Hins.
{ unfold Index.textToInsert. rewrite Hrange.
  unfold Index.newTemplateUrlProperty. by rewrite str_app_nil_r. }
split_and!; [done..|]. intros Hfree.
eexists. split.
- apply visitFile_processing; [done|done| |done].
  rewrite Hend. unfold content. rewrite !str_length_app. lia.
- cbn [files]. rewrite lookup_insert_eq. f_equal.
  unfold Index.rewritten. rewrite Hrange.
  replace (Js.substringFrom _ content) with rest
    by (rewrite Hcut1; symmetry; apply substringFrom_app).
  unfold content. by rewrite substringTo_app.
Qed.

Lemma C3_witness :
∃ w', Index.visitFile (Examples.tableHost [Examples.scenarioA] ["/x.component.ts"])
        "/x.component.ts"
        (Examples.worldOf [("/x.component.ts", Layout.fileText Examples.scenarioA)])
      = (Ok tt, w')
      ∧ files w' !! "/x.component.ts"
        = Some ("@Component({ selector: 'x'" +:+ "templateUrl: './x.component.html'"
                  +:+ " })" +:+ Js.newline +:+ "export class X {}").
Proof.
destruct (C3_last_entry_consumes_preceding_separator
            (Examples.tableHost [Examples.scenarioA] ["/x.component.ts"])
            "/x.component.ts"
            (Examples.worldOf [("/x.component.ts", Layout.fileText Examples.scenarioA)])
            "@Component({ selector: 'x'" "" " " "template: '<p>hi</p>'"
            (" })" +:+ Js.newline +:+ "export class X {}")
            (Layout.decorator Examples.scenarioA) "<p>hi</p>"
            (List.nth 1 (ts.properties (Layout.decorator Examples.scenarioA))
               {| ts.element := ts.OtherElement; ts.getFullStart := 0;
                  ts.leadingWidth := 0; ts.width := 0 |}))
  as (_ & Hins & Hcommit);
  [vm_compute; reflexivity
  |vm_compute; reflexivity
  |vm_compute; lia
  |reflexivity
  |reflexivity
  |reflexivity
  |reflexivity
  |reflexivity
  |].
destruct Hcommit as (w' & Hvisit & Hfile); [reflexivity|].
exists w'. split; [exact Hvisit|].
rewrite Hfile, Hins. reflexivity.
Defined.

(** C2 (code defect). Scenario A on index.ts: the block
  [{ selector: 'x', template: '<p>hi</p>' }] of /x.component.ts is
  rewritten to [{ selector: 'x'templateUrl: './x.component.html' }],
  without the separator between the two entries that the scenario
  expects; the new file /x.component.html holds [<p>hi</p>]. *)
Theorem C2_scenario_A_loses_the_separator :
let host := Examples.tableHost [Examples.scenarioA] ["/x.component.ts"] in
let w := Examples.worldOf [("/x.component.ts", Layout.fileText Examples.scenarioA)] in
let expected :=
  "@Component({ selector: 'x', templateUrl: './x.component.html' })"
    +:+ Js.newline +:+ "export class X {}" in
let actual :=
  "@Component({ selector: 'x'templateUrl: './x.component.html' })"
    +:+ Js.newline +:+ "export class X {}" in
Layout.blockText (Layout.block Examples.scenarioA)
  = "{ selector: 'x', template: '<p>hi</p>' }"
∧ fst (Index.migrarTemplates host w) = Ok tt
∧ files (snd (Index.migrarTemplates host w)) !! "/x.component.html" = Some "<p>hi</p>"
∧ files (snd (Index.migrarTemplates host w)) !! "/x.component.ts" = Some actual
∧ actual ≠ expected.
Proof. vm_compute. split_and!; try reflexivity. discriminate. Qed.

(** C1 (code defect). With two entries the splice must leave one
  separator. index.ts leaves none when the replaced entry is the last
  one (the comma before it is removed and none is inserted), and the
  guarded revision leaves two when it is the first one (a comma is
  inserted in front of the first entry). *)
Theorem C1_separator_count_not_kept :
(let host := Examples.tableHost [Examples.scenarioA] ["/x.component.ts"] in
 let w := Examples.worldOf [("/x.component.ts", Layout.fileText Examples.scenarioA)] in
 length (Layout.entries (Layout.block Examples.scenarioA)) = 2
 ∧ Examples.countCommas (Layout.blockText (Layout.block Examples.scenarioA)) = 1
 ∧ ∃ content,
     files (snd (Index.migrarTemplates host w)) !! "/x.component.ts" = Some content
     ∧ content = "@Component({ selector: 'x'templateUrl: './x.component.html' })"
                   +:+ Js.newline +:+ "export class X {}"
     ∧ Examples.countCommas content = 0)
∧
(let host := Examples.tableHost [Examples.templateFirst] ["/src/x.component.ts"] in
 let w := Examples.worldOf
            [("/src/x.component.ts", Layout.fileText Examples.templateFirst)] in
 length (Layout.entries (Layout.block Examples.templateFirst)) = 2
 ∧ Examples.countCommas (Layout.blockText (Layout.block Examples.templateFirst)) = 1
 ∧ ∃ content,
     files (snd (Guarded.migrarTemplates host w)) !! "/src/x.component.ts" = Some content
     ∧ content = "@Component({," +:+ Js.newline
                   +:+ "  templateUrl: './x.component.html', selector: 'x' })"
                   +:+ Js.newline +:+ "export class X {}"
     ∧ Examples.countCommas content = 2).
Proof.
split; (split; [reflexivity|split; [reflexivity|]]); eexists;
  (split; [vm_compute; reflexivity|split; vm_compute; reflexivity]).
Qed.

(** C10. The guard [hasTemplateUrl] holds exactly when a member of the
  block is a property assignment whose name is the identifier
  [templateUrl]. A block that spells the key as a string literal is not
  caught: for [{ template: '<p>hi</p>', 'templateUrl': './a.html' }] the
  migration fires and the block gets a second [templateUrl] entry. *)
Theorem C10_guard_sees_identifier_keys_only :
(∀ d, hasProperty d "templateUrl" = true
      ↔ ∃ prop initializer,
          prop ∈ ts.properties d
          ∧ ts.element prop
            = ts.PropertyAssignment (ts.Identifier "templateUrl") initializer)
∧
(let host := Examples.tableHost [Examples.stringKeyed] ["/x.component.ts"] in
 let w := Examples.worldOf [("/x.component.ts", Layout.fileText Examples.stringKeyed)] in
 Layout.blockText (Layout.block Examples.stringKeyed)
   = "{ template: '<p>hi</p>', 'templateUrl': './a.html' }"
 ∧ hasProperty (Layout.decorator Examples.stringKeyed) "templateUrl" = false
 ∧ fst (Index.migrarTemplates host w) = Ok tt
 ∧ files (snd (Index.migrarTemplates host w)) !! "/x.component.html" = Some "<p>hi</p>"
 ∧ files (snd (Index.migrarTemplates host w)) !! "/x.component.ts"
   = Some ("@Component({templateUrl: './x.component.html', 'templateUrl': './a.html' })"
             +:+ Js.newline +:+ "export class X {}")).
Proof.
split.
- intros d. unfold hasProperty. rewrite existsb_exists. split.
  + intros (prop & Hin & Hnamed). unfold isNamed in Hnamed.
    destruct (ts.element prop) as [[text| |] init| | |] eqn:Hel; try done.
    apply String.eqb_eq in Hnamed as ->.
    exists prop, init. by rewrite list_elem_of_In.
  + intros (prop & init & Hin & Hel). exists prop. split.
    * by apply list_elem_of_In.
    * unfold isNamed. by rewrite Hel.
- vm_compute. split_and!; reflexivity.
Qed.

End SpliceClaims.

(** ** The claims on the files that exist before a run *)

Section FrameClaims.
Import Helpers StringFacts MatchFacts TreeFacts IndexFacts IndexRun PathFacts Frame.

Lemma createScssFile_spec host dir base content index w :
  Index.emittable (files w) (Styles.scssFilePath dir base index) = true →
  Styles.createScssFile host dir base content index w =
    (Ok ("./" +:+ Styles.scssFileName base index),
     match files w !! Styles.scssFilePath dir base index with
     | Some _ => w
     | None =>
         {| files := <[Styles.scssFilePath dir base index := content]> (files w);
            events := events w ++ [Created (Styles.scssFilePath dir base index) content] |}
     end).
Proof.
  intros Hfree. fold (Styles.scssFilePath dir base index) in Hfree.
  unfold Styles.createScssFile, mbind, M_bind, bind, tree_exists, mret, M_ret, ret.
  fold (Styles.scssFilePath dir base index).
  destruct (files w !! _) eqn:Hfile.
  - by rewrite bool_decide_true by eauto.
  - rewrite bool_decide_false by (by intros [??]). by rewrite tree_create_free.
Qed.

(** [createScssFile] at a path that is a directory: [tree.create] throws
    and the world is as it was. *)
Lemma createScssFile_directory host dir base content index w :
  Index.emittable (files w) (Styles.scssFilePath dir base index) = false →
  ∃ thrown, Styles.createScssFile host dir base content index w = (Throw thrown, w).
Proof.
  intros Hblocked.
  destruct (tree_create_directory host _ content w Hblocked) as [Hnone Hcreate].
  unfold Styles.createScssFile, mbind, M_bind, bind, tree_exists, mret, M_ret, ret.
  fold (Styles.scssFilePath dir base index).
  rewrite bool_decide_false by (rewrite Hnone; by intros [??]).
  rewrite Hcreate. by eexists.
Qed.

(** C9. A run of index.ts only adds events; every file that exists when
    the run starts still exists when it ends (also when the run throws),
    with the same content unless it is a [.component.ts] unit that the run
    rewrote; and a file is created only at a path that did not exist.
    The emitter of the styles revision, [createScssFile], likewise leaves
    every existing file as it is. *)
Theorem C9_only_rewritten_units_change host w :
  preserved w (snd (Index.migrarTemplates host w))
  ∧ ∀ dir base content index,
      preserved w (snd (Styles.createScssFile host dir base content index w)).
Proof.
  split.
  - destruct (Index.migrarTemplates host w) as [r w'] eqn:Hrun.
    by eapply migrarTemplates_preserved.
  - intros dir base content index.
    destruct (Index.emittable (files w) (Styles.scssFilePath dir base index)) eqn:Hfree;
      [|by destruct (createScssFile_directory host dir base content index w Hfree)
             as [thrown ->]; apply preserved_refl].
    rewrite createScssFile_spec by done. cbn [snd].
    destruct (files w !! _) eqn:Hfile; [apply preserved_refl|].
    exists [Created (Styles.scssFilePath dir base index) content].
    split_and!; [done| |].
    + intros q c Hq. left. cbn [files]. rewrite lookup_insert_ne; [done|congruence].
    + intros q c [= -> ->]%list_elem_of_singleton. done.
Qed.



End FrameClaims.

(** ** The claims on guards, skipped values and faults *)

Section GuardClaims.
Import Helpers StringFacts MatchFacts IndexFacts IndexRun GuardFacts FaultFacts.

(** C5, the claim as stated, fails on the styles revision, whose
    extractor accepts every array literal: for
    [{ selector: 'x', styles: [shared] }], which has no literal [styles]
    entry (the element of the list is an identifier), the stylesheet
    migration fires: it emits an empty style file and rewrites the
    unit. *)
Lemma C5_styles_migration_fires_without_a_literal :
  let host := Examples.tableHost [Examples.stylesFromArrayOfIdentifier]
                ["/src/x.component.ts"] in
  let d := Layout.decorator Examples.stylesFromArrayOfIdentifier in
  let w := Examples.worldOf
             [("/src/x.component.ts", Layout.fileText Examples.stylesFromArrayOfIdentifier)] in
  let w' := snd (Styles.visitFile host "/src/x.component.ts" w) in
  hasLiteral Styles.specLiteral d "styles" = false
  ∧ hasProperty d "styleUrls" = false
  ∧ files w !! "/src/x.component.scss" = None
  ∧ files w' !! "/src/x.component.scss" = Some ""
  ∧ files w' !! "/src/x.component.ts"
    = Some ("@Component({ selector: 'x'," +:+ Js.newline
              +:+ "  styleUrls: ['./x.component.scss'] })"
              +:+ Js.newline +:+ "export class X {}").
Proof. split_and!; vm_compute; reflexivity. Qed.

(** C5, amended. A migration changes the tree only under its own guard:
    in index.ts, no [templateUrl] property and a [template] property
    whose value is a literal string; in the styles revision, for the
    template block no [templateUrl] property and a [template] property,
    for the styles block no [styleUrls] property and a [styles] property,
    whose value is a literal string or an array literal. The body of the
    styles revision runs the template block and then the styles block on
    the same parsed block, and a block whose guard fails does nothing, so
    the body is the other block alone: [{ selector, template }] fires the
    template block alone and [{ selector, styles }] the styles block
    alone. *)
Theorem C5_each_migration_has_its_own_guard host p content d w :
  (files (snd (Index.visitFile host p w)) ≠ files w →
     ∃ content' d' v node,
       files w !! p = Some content'
       ∧ Index.decision host p (Some content') = Index.Processing d' v node
       ∧ hasProperty d' "templateUrl" = false
       ∧ hasLiteral isStringLiteral d' "template" = true)
  ∧ (files (snd (Styles.migrateTemplate host p content d w)) ≠ files w →
       hasProperty d "templateUrl" = false
       ∧ hasLiteral Styles.isLiteral d "template" = true)
  ∧ (files (snd (Styles.migrateStyles host p content d w)) ≠ files w →
       hasProperty d "styleUrls" = false
       ∧ hasLiteral Styles.isLiteral d "styles" = true)
  ∧ (∀ nodes,
       Js.endsWith p ".component.ts" = true →
       files w !! p = Some content →
       parse host p content = Ok nodes →
       findComponentDecorator {| ts.text := content; ts.statements := nodes |} = Some d →
       Styles.processFile host p w
       = (Styles.migrateTemplate host p content d
            ≫= λ _, Styles.migrateStyles host p content d) w
       ∧ (hasProperty d "templateUrl" = true
          ∨ Styles.getDecoratorPropertyValue d "template" = None →
          Styles.migrateTemplate host p content d w = (Ok tt, w)
          ∧ Styles.processFile host p w = Styles.migrateStyles host p content d w)
       ∧ (hasProperty d "styleUrls" = true
          ∨ Styles.getDecoratorPropertyValue d "styles" = None →
          (∀ w1, Styles.migrateStyles host p content d w1 = (Ok tt, w1))
          ∧ Styles.processFile host p w = Styles.migrateTemplate host p content d w))
  ∧ (let host := Examples.tableHost [Examples.scenarioA] ["/src/x.component.ts"] in
     let text := Layout.fileText Examples.scenarioA in
     let d := Layout.decorator Examples.scenarioA in
     let w := Examples.worldOf [("/src/x.component.ts", text)] in
     files (snd (Styles.migrateTemplate host "/src/x.component.ts" text d w))
       !! "/src/x.component.html" = Some "<p>hi</p>"
     ∧ ∀ w', Styles.migrateStyles host "/src/x.component.ts" text d w' = (Ok tt, w'))
  ∧ (let host := Examples.tableHost [Examples.stylesOnly] ["/src/x.component.ts"] in
     let text := Layout.fileText Examples.stylesOnly in
     let d := Layout.decorator Examples.stylesOnly in
     let w := Examples.worldOf [("/src/x.component.ts", text)] in
     files (snd (Styles.migrateStyles host "/src/x.component.ts" text d w))
       !! "/src/x.component.scss" = Some "a{}"
     ∧ ∀ w', Styles.migrateTemplate host "/src/x.component.ts" text d w' = (Ok tt, w')).
Proof.
  split_and!.
  - apply visitFile_guard.
  - apply migrateTemplate_guard.
  - apply migrateStyles_guard.
  - intros nodes Hends Hfile Hparse Hfind.
    rewrite (processFile_blocks host p w content nodes d) by done.
    split_and!; [done| |].
    + intros Hidle. split; [by apply migrateTemplate_idle|].
      unfold mbind, M_bind, bind. by rewrite migrateTemplate_idle.
    + intros Hidle. split; [intros w1; by apply migrateStyles_idle|].
      unfold mbind, M_bind, bind.
      destruct (Styles.migrateTemplate host p content d w) as [[[]|thrown] w1]; [|done].
      by apply migrateStyles_idle.
  - split; [vm_compute; reflexivity|]. intros w'. apply migrateStyles_idle. by right.
  - split; [vm_compute; reflexivity|]. intros w'. apply migrateTemplate_idle. by right.
Qed.

Lemma C5_witness :
  hasProperty (Layout.decorator Examples.scenarioA) "templateUrl" = false
  ∧ hasLiteral Styles.isLiteral (Layout.decorator Examples.scenarioA) "template" = true.
Proof.
  refine (proj1 (proj2 (C5_each_migration_has_its_own_guard
            (Examples.tableHost [Examples.scenarioA] ["/src/x.component.ts"])
            "/src/x.component.ts" (Layout.fileText Examples.scenarioA)
            (Layout.decorator Examples.scenarioA)
            (Examples.worldOf
               [("/src/x.component.ts", Layout.fileText Examples.scenarioA)]))) _).
  intros Heq.
  apply (f_equal (λ tree : gmap string string, tree !! "/src/x.component.html")) in Heq.
  vm_compute in Heq. discriminate Heq.
Defined.

(** C7, the claim as stated, fails on the styles revision: for
    [{ selector: 'x', styles: cssText }], whose [styles] value is an
    identifier, the visit skips the entry without recording anything. *)
Lemma C7_styles_revision_records_no_diagnostic :
  let host := Examples.tableHost [Examples.stylesFromIdentifier] ["/src/x.component.ts"] in
  let w := Examples.worldOf
             [("/src/x.component.ts", Layout.fileText Examples.stylesFromIdentifier)] in
  (initializerOf <$>
     getDecoratorPropertyNode (Layout.decorator Examples.stylesFromIdentifier) "styles")
  = Some ts.OtherExpression
  ∧ Styles.visitFile host "/src/x.component.ts" w = (Ok tt, w)
  ∧ events (snd (Styles.visitFile host "/src/x.component.ts" w)) = [].
Proof. split_and!; vm_compute; reflexivity. Qed.

(** The styles revision on an array literal with an element that is not a
    literal string: the element counts as the empty string and an empty
    file is emitted for it. *)
Lemma styles_revision_reads_other_elements_as_empty :
  let host := Examples.tableHost [Examples.stylesFromArrayOfIdentifier]
                ["/src/x.component.ts"] in
  let w := Examples.worldOf
             [("/src/x.component.ts", Layout.fileText Examples.stylesFromArrayOfIdentifier)] in
  Styles.getDecoratorPropertyValue
    (Layout.decorator Examples.stylesFromArrayOfIdentifier) "styles"
  = Some (Styles.Texts [""])
  ∧ files (snd (Styles.visitFile host "/src/x.component.ts" w)) !! "/src/x.component.scss"
    = Some "".
Proof. split; vm_compute; reflexivity. Qed.

(** The styles revision on a unit with a literal [template] and a literal
    [styles]: the template block commits its edit, the styles block then
    stages its removal at the offsets of the text that was parsed, which
    lie outside the committed text, and the recorder throws. The fault is
    caught and recorded, and the unit keeps the edit of the template
    block. *)
Lemma styles_revision_fault_after_template_commit :
  let host := Examples.tableHost [Examples.templateAndStyles] ["/src/x.component.ts"] in
  let w := Examples.worldOf
             [("/src/x.component.ts", Layout.fileText Examples.templateAndStyles)] in
  let w' := snd (Styles.migrarTemplates host w) in
  fst (Styles.migrarTemplates host w) = Ok tt
  ∧ events w' !! 3 = Some (Logged error "💥 Error processing file /src/x.component.ts:")
  ∧ events w' !! 4 = Some (Logged error "  Message: Index 99 outside of range [0, 85].")
  ∧ files w' !! "/src/x.component.ts"
    = Some ("@Component({," +:+ Js.newline
              +:+ "  templateUrl: './x.component.html', styles: 'a{}' })"
              +:+ Js.newline +:+ "export class X {}")
  ∧ files w' !! "/src/x.component.scss" = None.
Proof. vm_compute. split_and!; reflexivity. Qed.

(** C7, amended. A [template] entry of index.ts whose value is not a
    literal string, and a [template] or [styles] entry of the styles
    revision whose value is neither a literal string nor an array literal:
    the extractor gives no value, the entry is skipped, the tree stays as
    it is and nothing is emitted or substituted. index.ts records the
    debug diagnostic of the skip; the styles revision records nothing. *)
Theorem C7_other_values_are_skipped host p w content nodes d node :
  (Js.endsWith p ".component.ts" = true →
   files w !! p = Some content →
   parse host p content = Ok nodes →
   findComponentDecorator {| ts.text := content; ts.statements := nodes |} = Some d →
   hasProperty d "templateUrl" = false →
   getDecoratorPropertyNode d "template" = Some node →
   isStringLiteral (initializerOf node) = false →
   getDecoratorPropertyValue d "template" = None
   ∧ Index.visitFile host p w
     = (Ok tt,
        {| files := files w;
           events := events w
             ++ [Logged debug ("Omitiendo " +:+ p
                                 +:+ ": no se encontró template inline.")] |}))
  ∧ (getDecoratorPropertyNode d "template" = Some node →
     Styles.isLiteral (initializerOf node) = false →
     Styles.getDecoratorPropertyValue d "template" = None
     ∧ Styles.migrateTemplate host p content d w = (Ok tt, w))
  ∧ (getDecoratorPropertyNode d "styles" = Some node →
     Styles.isLiteral (initializerOf node) = false →
     Styles.getDecoratorPropertyValue d "styles" = None
     ∧ Styles.migrateStyles host p content d w = (Ok tt, w)).
Proof.
  split_and!.
  - intros Hends Hfile Hparse Hfind Hurl Hnode Hother.
    pose proof (value_of_other d "template" node Hnode Hother) as Hvalue.
    split; [done|].
    pose proof (visitFile_idle host p w) as Hidle.
    unfold Index.decision in Hidle.
    by rewrite Hends, Hfile, Hparse, Hfind, Hurl, Hvalue in Hidle.
  - intros Hnode Hother.
    pose proof (styles_value_of_other d "template" node Hnode Hother) as Hvalue.
    split; [done|]. apply migrateTemplate_idle. by right.
  - intros Hnode Hother.
    pose proof (styles_value_of_other d "styles" node Hnode Hother) as Hvalue.
    split; [done|]. apply migrateStyles_idle. by right.
Qed.

(** C8, the claim as stated, fails on index.ts, which has no try/catch:
    when the parser throws on /a.component.ts the run throws, records no
    error diagnostic and never visits /b.component.ts, a unit that a visit
    would migrate. *)
Lemma C8_index_run_stops_at_the_first_fault :
  let host := Examples.faultyParserHost "/a.component.ts" [Examples.scenarioA]
                ["/a.component.ts"; "/b.component.ts"] in
  let w := Examples.worldOf
             [("/a.component.ts", Layout.fileText Examples.scenarioA);
              ("/b.component.ts", Layout.fileText Examples.scenarioA)] in
  Index.migrarTemplates host w
  = (Throw (ErrorInstance "Maximum call stack size exceeded" None),
     {| files := files w;
        events := [Logged info "Buscando componentes con templates inline..."] |})
  ∧ files (snd (Index.visitFile host "/b.component.ts" w)) !! "/b.component.html"
    = Some "<p>hi</p>".
Proof. split; vm_compute; reflexivity. Qed.

(** C8, amended. In the two revisions that wrap the visitor in try/catch
    (the styles revision and the guarded template revision): the visitor
    always returns normally, and when its body throws it records an error
    diagnostic (heading, then message and stack) in the world of the
    throw; so the traversal goes on with the next path. In the guarded
    template revision a fault leaves the file of the unit as it was; in
    the styles revision a fault of the parser leaves the whole tree as it
    was. A fault of the listing ends the run with a fatal diagnostic and
    the fault is thrown again. *)
Theorem C8_guarded_revisions_isolate_unit_faults host :
  (∀ p w,
     Styles.visitFile host p w
     = match Styles.processFile host p w with
       | (Ok _, w1) => (Ok tt, w1)
       | (Throw thrown, w1) =>
           (Ok tt, {| files := files w1;
                      events := events w1
                        ++ (Logged error <$> ("💥 Error processing file " +:+ p +:+ ":")
                              :: Faults.lines thrown) |})
       end)
  ∧ (∀ p w,
       Guarded.visitFile host p w
       = match Guarded.processFile host p w with
         | (Ok _, w1) => (Ok tt, w1)
         | (Throw thrown, w1) =>
             (Ok tt, {| files := files w1;
                        events := events w1
                          ++ (Logged error <$> ("💥 Error processing file " +:+ p +:+ ":")
                                :: Faults.lines thrown) |})
         end)
  ∧ (∀ p paths w,
       forEach (p :: paths) (Styles.visitFile host) w
       = forEach paths (Styles.visitFile host) (snd (Styles.visitFile host p w))
       ∧ forEach (p :: paths) (Guarded.visitFile host) w
         = forEach paths (Guarded.visitFile host) (snd (Guarded.visitFile host p w)))
  ∧ (∀ p w thrown w1,
       Guarded.processFile host p w = (Throw thrown, w1) →
       files w1 !! p = files w !! p)
  ∧ (∀ p w content thrown,
       Js.endsWith p ".component.ts" = true →
       files w !! p = Some content →
       parse host p content = Throw thrown →
       Styles.processFile host p w = (Throw thrown, w))
  ∧ (∀ w thrown,
       listFiles host "/src" (files w) = Throw thrown →
       Styles.migrarTemplates host w
       = (Throw thrown,
          {| files := files w;
             events := events w
               ++ [Logged info
                     "🚀 Starting search for components with inline templates and styles..."]
               ++ (Logged fatal <$> "❌ Fatal error starting file traversal:"
                     :: Faults.lines thrown) |})
       ∧ Guarded.migrarTemplates host w
         = (Throw thrown,
            {| files := files w;
               events := events w
                 ++ [Logged info "🚀 Starting search for components with inline templates..."]
                 ++ (Logged fatal <$> "❌ Fatal error starting file traversal:"
                       :: Faults.lines thrown) |})).
Proof.
  split_and!.
  - intros p w. apply guarded_visit.
  - intros p w. apply guarded_visit.
  - intros p paths w. split; simpl; unfold bind.
    + pose proof (guarded_visit (Styles.processFile host p)
                    ("💥 Error processing file " +:+ p +:+ ":") w) as Hvisit.
      fold (Styles.visitFile host p) in Hvisit. rewrite Hvisit.
      by destruct (Styles.processFile host p w) as [[[]|?] ?].
    + pose proof (guarded_visit (Guarded.processFile host p)
                    ("💥 Error processing file " +:+ p +:+ ":") w) as Hvisit.
      fold (Guarded.visitFile host p) in Hvisit. rewrite Hvisit.
      by destruct (Guarded.processFile host p w) as [[[]|?] ?].
  - intros p w thrown w1. apply guarded_fault_keeps_unit.
  - intros p w content thrown Hends Hfile Hparse.
    unfold Styles.processFile. rewrite Hends. cbn [negb].
    unfold mbind, M_bind, bind, tree_read, createSourceFile, lift.
    by rewrite Hfile, Hparse.
  - intros w thrown Hlist. split.
    + unfold Styles.migrarTemplates.
      unfold mbind at 1, M_bind at 1, bind at 1, log, emit.
      unfold mbind at 1, M_bind at 1, bind at 1.
      rewrite (traversal_fault _ _ _ thrown) by done. cbn [files events]. by rewrite <- app_assoc.
    + unfold Guarded.migrarTemplates.
      unfold mbind at 1, M_bind at 1, bind at 1, log, emit.
      unfold mbind at 1, M_bind at 1, bind at 1.
      rewrite (traversal_fault _ _ _ thrown) by done. cbn [files events]. by rewrite <- app_assoc.
Qed.

Lemma C7_witness :
  let host := Examples.tableHost [Examples.templateFromIdentifier] ["/x.component.ts"] in
  let w := Examples.worldOf
             [("/x.component.ts", Layout.fileText Examples.templateFromIdentifier)] in
  getDecoratorPropertyValue (Layout.decorator Examples.templateFromIdentifier) "template"
  = None
  ∧ Index.visitFile host "/x.component.ts" w
    = (Ok tt,
       {| files := files w;
          events := events w
            ++ [Logged debug ("Omitiendo " +:+ "/x.component.ts"
                                +:+ ": no se encontró template inline.")] |}).
Proof.
  intros host w.
  refine (proj1 (C7_other_values_are_skipped host "/x.component.ts" w
                   (Layout.fileText Examples.templateFromIdentifier)
                   (Layout.fileNodes Examples.templateFromIdentifier)
                   (Layout.decorator Examples.templateFromIdentifier)
                   (List.nth 1 (ts.properties
                                  (Layout.decorator Examples.templateFromIdentifier))
                      {| ts.element := ts.OtherElement; ts.getFullStart := 0;
                         ts.leadingWidth := 0; ts.width := 0 |}))
            _ _ _ _ _ _ _); vm_compute; reflexivity.
Defined.

Lemma C8_witness :
  let thrown := ErrorInstance "EACCES: permission denied" None in
  let w := Examples.worldOf [("/src/x.component.ts", Layout.fileText Examples.scenarioA)] in
  listFiles Examples.faultyTraversalHost "/src" (files w) = Throw thrown
  ∧ Guarded.migrarTemplates Examples.faultyTraversalHost w
    = (Throw thrown,
       {| files := files w;
          events := events w
            ++ [Logged info "🚀 Starting search for components with inline templates..."]
            ++ (Logged fatal <$> "❌ Fatal error starting file traversal:"
                  :: Faults.lines thrown) |}).
Proof.
  intros thrown w. split; [reflexivity|].
  destruct (C8_guarded_revisions_isolate_unit_faults Examples.faultyTraversalHost)
    as (_ & _ & _ & _ & _ & Hlisting).
  exact (proj2 (Hlisting w thrown eq_refl)).
Defined.

End GuardClaims.

(** ** The claim on a second run *)

Section RerunClaim.
Import Helpers StringFacts MatchFacts IndexFacts IndexRun PathFacts Frame Rerun.

(** A run of index.ts that returns, followed by a second run on its
    result: when the traversal lists every candidate unit of the tree and
    the parser finds the [templateUrl] property in the text of each unit
    that the first run rewrites, every unit is skipped by the second run,
    which leaves every file as it is, creates nothing and commits nothing:
    it only adds diagnostics. *)
Lemma second_run_skips_reparsed_units host w0 w1 :
  (∀ paths q,
     listFiles host "/" (files w0) = Ok paths →
     Js.endsWith q ".component.ts" = true → is_Some (files w0 !! q) → q ∈ paths) →
  (∀ p content d v node,
     files w0 !! p = Some content →
     Index.decision host p (Some content) = Index.Processing d v node →
     Index.decision host p (Some (Index.rewritten p content d node))
     = Index.AlreadyMigrated) →
  Index.migrarTemplates host w0 = (Ok tt, w1) →
  ∃ evs,
    files (snd (Index.migrarTemplates host w1)) = files w1
    ∧ events (snd (Index.migrarTemplates host w1)) = events w1 ++ evs
    ∧ forallb isLogged evs = true.
Proof.
  intros Hlisted Hreparse Hfirst.
  assert (Index.allSettled host (files w1)) as Hsettled.
  { revert Hfirst.
    unfold Index.migrarTemplates, mbind, M_bind, bind, log, emit, visit. cbn [files events].
    destruct (listFiles host "/" (files w0)) as [paths|thrown] eqn:Hlist; [|done].
    destruct (forEach paths _ _) as [[[]|thrown] w'] eqn:Hrun; [|done].
    intros [= <-]. cbn [files].
    eapply (forEach_pending host (files w0)); [exact Hreparse| |exact Hrun].
    intros q c Hq. cbn [files] in Hq.
    destruct (Js.endsWith q ".component.ts") eqn:Hends.
    - left. split; [|done]. eapply Hlisted; eauto.
    - right. by rewrite candidate_decision. }
  unfold Index.migrarTemplates, mbind, M_bind, bind, log, emit, visit. cbn [files events].
  destruct (listFiles host "/" (files w1)) as [paths|thrown].
  - destruct (forEach_settled host paths
                {| files := files w1;
                   events := events w1
                     ++ [Logged info "Buscando componentes con templates inline..."] |}
                Hsettled) as (r & evs & -> & Hlogs).
    cbn [files events]. destruct r as [[]|thrown]; cbn [snd files events].
    + eexists. split; [done|]. split; [by rewrite <- !app_assoc|].
      cbn [app forallb isLogged]. by rewrite forallb_app, Hlogs.
    + eexists. split; [done|]. split; [by rewrite <- !app_assoc|done].
  - eexists [_]. by split_and!.
Qed.

(** C4. A second run of index.ts is not always idle. The unit
    [@Component({ SEL, template: 'a' /* c */, template: 'b' })] has a
    [template] member that no separator follows directly (a comment
    stands between), so the first run takes the branch of the last
    member: it removes the separator in front of the member and inserts
    the reference without one. The reference is then glued to the
    identifier before it, [SELtemplateUrl: './x.component.html'], the
    rewritten unit has no [templateUrl] property and still has a literal
    [template], and the second run, which creates no file, rewrites the
    unit again and commits the edit. *)
Theorem C4_second_run_rewrites_a_unit_of_the_first :
  let p := "/x.component.ts" in
  let host := Examples.tableHost [Examples.twoTemplates; Examples.twoTemplatesGlued] [p] in
  let w0 := Examples.worldOf [(p, Layout.fileText Examples.twoTemplates)] in
  let w1 := snd (Index.migrarTemplates host w0) in
  let w2 := snd (Index.migrarTemplates host w1) in
  let once :=
    "@Component({ SELtemplateUrl: './x.component.html' /* c */, template: 'b' })"
      +:+ Js.newline +:+ "export class X {}" in
  let twice :=
    "@Component({ SELtemplateUrl: './x.component.html' /* c */templateUrl: './x.component.html' })"
      +:+ Js.newline +:+ "export class X {}" in
  Layout.fileText Examples.twoTemplates
  = "@Component({ SEL, template: 'a' /* c */, template: 'b' })"
      +:+ Js.newline +:+ "export class X {}"
  ∧ Layout.fileText Examples.twoTemplatesGlued = once
  ∧ fst (Index.migrarTemplates host w0) = Ok tt
  ∧ files w1 !! p = Some once
  ∧ files w1 !! "/x.component.html" = Some "a"
  ∧ fst (Index.migrarTemplates host w1) = Ok tt
  ∧ files w2 !! p = Some twice
  ∧ files w2 ≠ files w1
  ∧ ∃ evs, events w2 = events w1 ++ evs
           ∧ Agreement.effects evs = [Overwritten p twice].
Proof.
  intros p host w0 w1 w2 once twice.
  assert (files w1 !! p = Some once) as Honce by (vm_compute; reflexivity).
  assert (files w2 !! p = Some twice) as Htwice by (vm_compute; reflexivity).
  split_and!; try (vm_compute; reflexivity); [done..| |].
  - intros Heq. rewrite Heq, Honce in Htwice. discriminate Htwice.
  - exists (drop (length (events w1)) (events w2)). split; vm_compute; reflexivity.
Qed.

End RerunClaim.

(** * Further properties *)

(** ** The search for the configuration block *)

Module SearchFacts.
Import Helpers Classes.

Lemma node_ind' (P : ts.Node → Prop) :
  (∀ decorators children, Forall P children → P (ts.ClassDeclaration decorators children)) →
  (∀ children, Forall P children → P (ts.OtherNode children)) →
  ∀ node, P node.
Proof.
  intros Hclass Hother. fix IH 1. intros [decorators children|children].
  - apply Hclass. revert children. fix IHl 1.
    intros [|child children]; constructor; [apply IH|apply IHl].
  - apply Hother. revert children. fix IHl 1.
    intros [|child children]; constructor; [apply IH|apply IHl].
Qed.

(** [visitNode] unfolded once. *)
Lemma visitNode_class decorators children found :
  visitNode (ts.ClassDeclaration decorators children) found
  = match componentArgument decorators with
    | Some o => Some o
    | None =>
        match found with
        | None => fold_left (λ found child, visitNode child found) children None
        | Some _ => found
        end
    end.
Proof. reflexivity. Qed.

Lemma visitNode_other children found :
  visitNode (ts.OtherNode children) found
  = match found with
    | None => fold_left (λ found child, visitNode child found) children None
    | Some _ => found
    end.
Proof. reflexivity. Qed.

(** Once a block is found, the search never goes back to null. *)
Lemma visitNode_found node o : is_Some (visitNode node (Some o)).
Proof.
  destruct node as [decorators children|children].
  - rewrite visitNode_class. destruct (componentArgument decorators); eauto.
  - rewrite visitNode_other. eauto.
Qed.

Lemma fold_found children found :
  is_Some found →
  is_Some (fold_left (λ found child, visitNode child found) children found).
Proof.
  revert found. induction children as [|child children IH]; intros found [o ->]; [eauto|].
  simpl. apply IH, visitNode_found.
Qed.

(** What is found is the block of a class declaration of the tree, or
    what was found before. *)
Lemma visitNode_sound node found o :
  visitNode node found = Some o →
  found = Some o
  ∨ ∃ decorators, decorators ∈ classesOf node ∧ componentArgument decorators = Some o.
Proof.
  revert found o. induction node as [decorators children IH|children IH] using node_ind';
    intros found o.
  - rewrite visitNode_class. destruct (componentArgument decorators) as [o'|] eqn:Harg.
    + intros [= <-]. right. exists decorators. split; [|done]. simpl. by left.
    + destruct found as [o'|]; [by left|]. intros Hfold. right.
      assert (∀ acc, fold_left (λ found child, visitNode child found) children acc = Some o →
                acc = Some o ∨ ∃ ds, ds ∈ flat_map classesOf children
                                     ∧ componentArgument ds = Some o) as Hgen.
      { clear Hfold. induction IH as [|child children Hchild _ IHl]; intros acc; [by left|].
        simpl. intros [Hacc|(ds & Hin & Hds)]%IHl.
        - apply Hchild in Hacc as [?|(ds & Hin & Hds)]; [by left|].
          right. exists ds. split; [|done]. apply elem_of_app. by left.
        - right. exists ds. split; [|done]. apply elem_of_app. by right. }
      destruct (Hgen None Hfold) as [?|(ds & Hin & Hds)]; [done|].
      exists ds. split; [|done]. simpl. by right.
  - rewrite visitNode_other. destruct found as [o'|]; [by left|]. intros Hfold. right.
    assert (∀ acc, fold_left (λ found child, visitNode child found) children acc = Some o →
              acc = Some o ∨ ∃ ds, ds ∈ flat_map classesOf children
                                   ∧ componentArgument ds = Some o) as Hgen.
    { clear Hfold. induction IH as [|child children Hchild _ IHl]; intros acc; [by left|].
      simpl. intros [Hacc|(ds & Hin & Hds)]%IHl.
      - apply Hchild in Hacc as [?|(ds & Hin & Hds)]; [by left|].
        right. exists ds. split; [|done]. apply elem_of_app. by left.
      - right. exists ds. split; [|done]. apply elem_of_app. by right. }
    destruct (Hgen None Hfold) as [?|(ds & Hin & Hds)]; [done|].
    exists ds. split; [|done]. done.
Qed.

(** A tree with a component class gives a block. *)
Lemma visitNode_complete node decorators :
  decorators ∈ classesOf node → is_Some (componentArgument decorators) →
  is_Some (visitNode node None).
Proof.
  revert decorators. induction node as [ds children IH|children IH] using node_ind';
    intros decorators Hin Harg.
  - rewrite visitNode_class. destruct (componentArgument ds) as [o|] eqn:Hds; [eauto|].
    simpl in Hin. apply elem_of_cons in Hin as [->|Hin]; [by rewrite Hds in Harg; destruct Harg|].
    assert (∀ acc, is_Some (fold_left (λ found child, visitNode child found) children acc))
      as Hgen; [|apply Hgen].
    clear Hds. induction IH as [|child children Hchild _ IHl]; [by apply elem_of_nil in Hin|].
    intros acc. simpl in Hin. apply elem_of_app in Hin as [Hin|Hin].
    + simpl. apply fold_found. destruct acc as [o|]; [apply visitNode_found|eauto].
    + simpl. by apply IHl.
  - rewrite visitNode_other.
    assert (∀ acc, is_Some (fold_left (λ found child, visitNode child found) children acc))
      as Hgen; [|apply Hgen].
    simpl in Hin.
    induction IH as [|child children Hchild _ IHl]; [by apply elem_of_nil in Hin|].
    intros acc. simpl in Hin. apply elem_of_app in Hin as [Hin|Hin].
    + simpl. apply fold_found. destruct acc as [o|]; [apply visitNode_found|eauto].
    + simpl. by apply IHl.
Qed.

(** After a component class, a node that is not one leaves what was
    found. *)
Lemma visitNode_keeps node o :
  isComponentClass node = false → visitNode node (Some o) = Some o.
Proof.
  destruct node as [decorators children|children]; [|done].
  cbn [isComponentClass]. rewrite visitNode_class.
  destruct (componentArgument decorators); [|done].
  intros Hfalse. by rewrite bool_decide_true in Hfalse by eauto.
Qed.

Lemma fold_keeps nodes o :
  Forall (λ node, isComponentClass node = false) nodes →
  fold_left (λ found child, visitNode child found) nodes (Some o) = Some o.
Proof.
  induction 1 as [|node nodes Hnode _ IH]; [done|]. simpl.
  by rewrite visitNode_keeps.
Qed.

End SearchFacts.

Section SearchProperties.
Import Helpers Classes SearchFacts.

(** X1. [findComponentDecorator] returns the block of a class declaration
    of the file that carries [@Component({...})], and it returns null
    exactly when no class declaration of the file, at any depth, carries
    one. *)
Theorem findComponentDecorator_finds_a_component_class sourceFile :
  match findComponentDecorator sourceFile with
  | Some o =>
      ∃ decorators,
        decorators ∈ classesOf (ts.OtherNode (ts.statements sourceFile))
        ∧ componentArgument decorators = Some o
  | None =>
      ∀ decorators,
        decorators ∈ classesOf (ts.OtherNode (ts.statements sourceFile)) →
        componentArgument decorators = None
  end.
Proof.
  unfold findComponentDecorator.
  destruct (visitNode _ None) as [o|] eqn:Hvisit.
  - by apply visitNode_sound in Hvisit as [?|?].
  - intros decorators Hin.
    destruct (componentArgument decorators) as [o|] eqn:Harg; [|done].
    destruct (visitNode_complete _ decorators Hin) as [o' Ho']; [by rewrite Harg|].
    congruence.
Qed.

(** X2. Among the statements of a file the last class declaration that
    carries [@Component({...})] gives the block: a class found earlier is
    replaced, whatever stands before it, and later statements that are
    not such a class are not searched. *)
Theorem findComponentDecorator_last_sibling_wins
  sourceFile earlier decorators children later o :
  ts.statements sourceFile = earlier ++ ts.ClassDeclaration decorators children :: later →
  componentArgument decorators = Some o →
  Forall (λ node, isComponentClass node = false) later →
  findComponentDecorator sourceFile = Some o.
Proof.
  intros Hstatements Harg Hlater. unfold findComponentDecorator.
  rewrite visitNode_other, Hstatements, fold_left_app. cbn [fold_left].
  rewrite visitNode_class, Harg. by apply fold_keeps.
Qed.

Lemma findComponentDecorator_last_sibling_wins_witness :
  findComponentDecorator Samples.twoClasses = Some (Layout.decorator Examples.scenarioA).
Proof.
  apply (findComponentDecorator_last_sibling_wins Samples.twoClasses
           [ts.ClassDeclaration
              [ts.CallExpression (ts.CalleeIdentifier "Component")
                 [ts.ObjectLiteralArgument {| ts.properties := [] |}]] []]
           [ts.OtherDecorator;
            ts.CallExpression (ts.CalleeIdentifier "Component")
              [ts.ObjectLiteralArgument (Layout.decorator Examples.scenarioA)]]
           [] [ts.OtherNode []]).
  - reflexivity.
  - reflexivity.
  - repeat constructor.
Defined.

End SearchProperties.

(** ** The names and the places of the external files *)

Module ScssFacts.
Import Helpers StringFacts PathFacts LayoutFacts.

Lemma str_app_inv_tail a b s : a +:+ s = b +:+ s → a = b.
Proof.
  revert b. induction a as [|c a IH]; intros [|d b] Heq.
  - done.
  - apply (f_equal String.length) in Heq.
    rewrite str_app_nil_l, str_app_cons in Heq.
    simpl in Heq. rewrite str_length_app in Heq. lia.
  - apply (f_equal String.length) in Heq.
    rewrite str_app_nil_l, str_app_cons in Heq.
    simpl in Heq. rewrite str_length_app in Heq. lia.
  - rewrite !str_app_cons in Heq. injection Heq as -> Heq. f_equal. by apply IH.
Qed.

(** The file names of two elements of a [styles] array differ. *)
Lemma scssFileName_inj base i j :
  Styles.scssFileName base i = Styles.scssFileName base j → i = j.
Proof.
  unfold Styles.scssFileName.
  destruct (Nat.eqb_spec i 0) as [->|Hi], (Nat.eqb_spec j 0) as [->|Hj]; [done| | |].
  - intros Heq%str_app_inv_head. discriminate Heq.
  - intros Heq%str_app_inv_head. discriminate Heq.
  - intros Heq%str_app_inv_head. rewrite !str_app_cons, !str_app_nil_l in Heq.
    injection Heq as Heq. apply str_app_inv_tail in Heq.
    apply (inj pretty) in Heq. lia.
Qed.

Lemma isSlash_digit x : Path.isSlash (pretty_N_char x) = false.
Proof. unfold pretty_N_char. by repeat case_match. Qed.

Lemma hasSlash_pretty_N_go x s :
  Path.hasSlash (pretty_N_go x s) = Path.hasSlash s.
Proof.
  revert s. induction (N.lt_wf_0 x) as [x _ IH]; intros s.
  destruct (decide (0 < x)%N) as [Hpos|Hzero].
  - rewrite pretty_N_go_step by done.
    rewrite IH by (by apply N.div_lt). simpl. by rewrite isSlash_digit.
  - assert (x = 0%N) as -> by lia. by rewrite pretty_N_go_0.
Qed.

Lemma hasSlash_pretty (n : nat) : Path.hasSlash (pretty n) = false.
Proof.
  unfold pretty, pretty_nat, pretty, pretty_N.
  destruct (decide _); [done|]. apply hasSlash_pretty_N_go.
Qed.

(** The file name of an element is a segment that [normalize] keeps. *)
Lemma scssFileName_regular base i :
  Path.hasSlash base = false → Path.regular (Styles.scssFileName base i).
Proof.
  intros Hbase. unfold Styles.scssFileName, Path.regular.
  destruct (Nat.eqb i 0).
  - split_and!.
    + by rewrite hasSlash_app, Hbase.
    + intros Heq%(f_equal String.length). rewrite str_length_app in Heq. simpl in Heq. lia.
    + intros Heq%(f_equal String.length). rewrite str_length_app in Heq. simpl in Heq. lia.
    + intros Heq%(f_equal String.length). rewrite str_length_app in Heq. simpl in Heq. lia.
  - split_and!.
    + by rewrite !hasSlash_app, Hbase, hasSlash_pretty.
    + intros Heq%(f_equal String.length). rewrite !str_length_app in Heq. simpl in Heq. lia.
    + intros Heq%(f_equal String.length). rewrite !str_length_app in Heq. simpl in Heq. lia.
    + intros Heq%(f_equal String.length). rewrite !str_length_app in Heq. simpl in Heq. lia.
Qed.

(** The external files of two elements of a [styles] array differ. *)
Lemma scssFilePath_inj dir base i j :
  Path.hasSlash base = false →
  Styles.scssFilePath dir base i = Styles.scssFilePath dir base j → i = j.
Proof.
  intros Hbase Heq. apply (scssFileName_inj base).
  apply (f_equal Path.lastSegment) in Heq. unfold Styles.scssFilePath in Heq.
  rewrite !lastSegment_normalize, !lastSegment_join in Heq;
    rewrite ?lastSegment_join; auto using scssFileName_regular.
Qed.

End ScssFacts.

Module PlaceFacts.
Import Helpers StringFacts PathFacts LayoutFacts.

Lemma regular_eqb name :
  Path.regular name →
  String.eqb name "" = false ∧ String.eqb name "." = false ∧ String.eqb name ".." = false.
Proof.
  intros (_ & H1 & H2 & H3). split_and!; by apply String.eqb_neq.
Qed.

(** [normalize] keeps regular segments where they are. *)
Lemma resolve_regular absolute stack parts :
  Forall Path.regular parts →
  Path.resolve absolute stack parts = reverse stack ++ parts.
Proof.
  intros Hparts. revert stack.
  induction Hparts as [|seg parts Hseg _ IH]; intros stack; simpl.
  - by rewrite app_nil_r.
  - destruct (regular_eqb seg Hseg) as (-> & -> & ->). simpl.
    rewrite IH, reverse_cons, <- app_assoc. done.
Qed.

Lemma segments_absolute parts :
  parts ≠ [] → Forall Path.regular parts →
  Path.segments (Paths.absolute parts) = "" :: parts.
Proof.
  intros Hne Hparts. unfold Paths.absolute.
  rewrite str_app_cons, str_app_nil_l. cbn [Path.segments].
  change (Path.isSlash "/") with true. cbv iota.
  rewrite segments_join; [done..|].
  intros seg Hin. rewrite Forall_forall in Hparts. by destruct (Hparts seg Hin).
Qed.

Lemma normalize_absolute parts :
  parts ≠ [] → Forall Path.regular parts →
  Path.normalize (Paths.absolute parts) = Paths.absolute parts.
Proof.
  intros Hne Hparts. unfold Path.normalize.
  rewrite segments_absolute by done.
  unfold Paths.absolute at 1 2 3. rewrite str_app_cons, str_app_nil_l.
  cbn [Path.isAbsolute]. change (Path.isSlash "/") with true. cbv iota.
  cbn [Path.resolve String.eqb orb Ascii.eqb]. simpl.
  rewrite resolve_regular by done. done.
Qed.

Lemma join_snoc parts name :
  parts ≠ [] → Js.join "/" (parts ++ [name]) = Js.join "/" parts +:+ "/" +:+ name.
Proof.
  induction parts as [|seg parts IH]; [done|]. intros _.
  destruct parts as [|seg' parts]; [done|].
  change ((seg :: seg' :: parts) ++ [name]) with (seg :: ((seg' :: parts) ++ [name])).
  change (Js.join "/" (seg :: (seg' :: parts) ++ [name]))
    with (seg +:+ "/" +:+ Js.join "/" ((seg' :: parts) ++ [name])).
  rewrite IH by done.
  change (Js.join "/" (seg :: seg' :: parts))
    with (seg +:+ "/" +:+ Js.join "/" (seg' :: parts)).
  by rewrite !str_app_assoc.
Qed.

Lemma absolute_snoc parts name :
  parts ≠ [] → Paths.absolute (parts ++ [name]) = Paths.absolute parts +:+ "/" +:+ name.
Proof. intros Hne. unfold Paths.absolute. by rewrite join_snoc, !str_app_assoc. Qed.

Lemma lastSegment_absolute dirs name :
  Forall Path.regular dirs → Path.regular name →
  Path.lastSegment (Paths.absolute (dirs ++ [name])) = name.
Proof.
  intros Hdirs Hname. unfold Path.lastSegment.
  rewrite segments_absolute.
  - change ("" :: dirs ++ [name]) with (("" :: dirs) ++ [name]). apply last_snoc.
  - by destruct dirs.
  - apply Forall_app. split; [done|]. by constructor.
Qed.

Lemma length_join_regular parts :
  parts ≠ [] → Forall Path.regular parts → 0 < String.length (Js.join "/" parts).
Proof.
  intros Hne Hparts. destruct Hparts as [|seg parts (_ & Hseg & _) _]; [done|].
  assert (0 < String.length seg) by (destruct seg; [done|simpl; lia]).
  destruct parts; simpl; rewrite ?str_length_app; lia.
Qed.

(** [dirname] of a file in the root directory and of a file in a
    directory. *)
Lemma dirname_absolute dirs name :
  Forall Path.regular dirs → Path.regular name →
  Path.dirname (Paths.absolute (dirs ++ [name]))
  = match dirs with [] => "/" | _ => Paths.absolute dirs end.
Proof.
  intros Hdirs Hname. unfold Path.dirname.
  rewrite lastSegment_absolute by done.
  destruct dirs as [|dir dirs].
  - unfold Paths.absolute. simpl. rewrite str_app_cons, str_app_nil_l. simpl.
    replace (S (String.length name) - String.length name) with 1 by lia. done.
  - rewrite absolute_snoc by done.
    pose proof (length_join_regular (dir :: dirs) ltac:(done) Hdirs) as Hlen.
    assert (2 ≤ String.length (Paths.absolute (dir :: dirs))) as Habs.
    { unfold Paths.absolute. rewrite str_length_app. simpl String.length at 1. lia. }
    remember (Paths.absolute (dir :: dirs)) as A eqn:HA. clear HA.
    rewrite !str_length_app. change (String.length "/") with 1.
    replace (String.length A + (1 + String.length name) - String.length name)
      with (S (String.length A)) by lia.
    destruct (String.length A) as [|[|n]] eqn:Hn; [lia|lia|].
    rewrite <- Hn. apply substringTo_app.
Qed.

Lemma endsWith_refl s : Js.endsWith s s = true.
Proof. destruct s; simpl; [done|]. by rewrite Ascii.eqb_refl, String.eqb_refl. Qed.

Lemma endsWith_app a s : Js.endsWith (a +:+ s) s = true.
Proof.
  induction a as [|c a IH]; [by rewrite str_app_nil_l, endsWith_refl|].
  rewrite str_app_cons. cbn [Js.endsWith]. rewrite IH.
  by destruct (String.eqb _ _).
Qed.

(** [basename(p, ".ts")] of a file named [name.ts]. *)
Lemma basename_absolute dirs name :
  Forall Path.regular dirs → Path.hasSlash name = false → name ≠ "" →
  Path.basename (Paths.absolute (dirs ++ [name +:+ ".ts"])) ".ts" = name.
Proof.
  intros Hdirs Hslash Hname.
  assert (Path.regular (name +:+ ".ts")) as Hfile.
  { unfold Path.regular. rewrite hasSlash_app, Hslash. split_and!; [done|..];
      intros Heq%(f_equal String.length); rewrite str_length_app in Heq; simpl in Heq; lia. }
  unfold Path.basename. rewrite lastSegment_absolute by done.
  rewrite endsWith_app. 
  assert (String.eqb (Paths.absolute (dirs ++ [name +:+ ".ts"])) ".ts" = false) as ->.
  { apply String.eqb_neq. unfold Paths.absolute. rewrite str_app_cons. discriminate. }
  assert (String.eqb (name +:+ ".ts") ".ts" = false) as ->.
  { apply String.eqb_neq. intros Heq%(f_equal String.length).
    rewrite str_length_app in Heq. simpl in Heq. destruct name; [done|simpl in Heq; lia]. }
  cbn [andb negb]. rewrite str_length_app.
  replace (String.length name + String.length ".ts" - String.length ".ts")
    with (String.length name) by lia.
  apply substringTo_app.
Qed.

Lemma regular_with_extension name ext :
  Path.hasSlash name = false → Path.hasSlash ext = false → 2 < String.length ext →
  Path.regular (name +:+ ext).
Proof.
  intros Hname Hext Hlen. unfold Path.regular. rewrite hasSlash_app, Hname, Hext.
  split_and!; [done|..];
    intros Heq%(f_equal String.length); rewrite str_length_app in Heq; simpl in Heq; lia.
Qed.

(** [normalize(join(dirname(p), file))] for a file [p] with an absolute
    normal path: [file] in the directory of [p]. *)
Lemma join_dirname_absolute dirs name file :
  Forall Path.regular dirs → Path.regular name → Path.regular file →
  Path.normalize (Path.join (Path.dirname (Paths.absolute (dirs ++ [name]))) file)
  = Paths.absolute (dirs ++ [file]).
Proof.
  intros Hdirs Hname Hfile. rewrite dirname_absolute by done.
  assert (Forall Path.regular (dirs ++ [file])) as Hall
    by (apply Forall_app; split; [done|by constructor]).
  assert (dirs ++ [file] ≠ []) as Hne by (by destruct dirs).
  assert (String.eqb file "" = false) as Hf by (by destruct (regular_eqb file Hfile)).
  unfold Path.join. rewrite Hf.
  destruct dirs as [|dir dirs].
  - change (String.eqb "/" "") with false. cbv iota.
    assert (Path.normalize ("/" +:+ "/" +:+ file) = Paths.absolute [file]) as ->.
    { unfold Path.normalize. rewrite !str_app_cons, !str_app_nil_l.
      cbn [Path.isAbsolute Path.segments]. change (Path.isSlash "/") with true. cbv iota.
      rewrite segments_no_slash by (by destruct Hfile).
      cbn [Path.resolve String.eqb orb Ascii.eqb]. simpl.
      destruct (regular_eqb file Hfile) as (-> & -> & ->). simpl. done. }
    by apply (normalize_absolute [file]).
  - assert (String.eqb (Paths.absolute (dir :: dirs)) "" = false) as ->.
    { apply String.eqb_neq. unfold Paths.absolute. rewrite str_app_cons. discriminate. }
    rewrite <- absolute_snoc by done. by rewrite !normalize_absolute.
Qed.

End PlaceFacts.

(** ** The steps of an update *)

Module RecorderSteps.
Import Helpers StringFacts MatchFacts RecorderFacts IndexFacts.

(** The steps of an update on a recorder whose indices lie within the
    text. *)
Lemma recorder_remove_within host r index length w :
  index + length ≤ String.length (original r) →
  recorder_remove host r index length w
  = (Ok (if Nat.eqb length 0 then r
         else {| recorderPath := recorderPath r; original := original r;
                 removals := removals r ++ [(index, length)];
                 insertions := insertions r |}), w).
Proof.
  intros Hlen. unfold recorder_remove, assertIndex, bind, ret, throw.
  destruct (Nat.ltb_spec (String.length (original r)) index); [lia|].
  destruct (Nat.eqb length 0); [done|].
  by destruct (Nat.ltb_spec (String.length (original r)) (index + length)); [lia|].
Qed.

Lemma recorder_insertLeft_within host r index content w :
  index ≤ String.length (original r) →
  recorder_insertLeft host r index content w
  = (Ok {| recorderPath := recorderPath r; original := original r;
           removals := removals r;
           insertions := insertions r ++ [(index, content)] |}, w).
Proof.
  intros Hlen. unfold recorder_insertLeft, assertIndex, bind, ret, throw.
  by destruct (Nat.ltb_spec (String.length (original r)) index); [lia|].
Qed.

Lemma tree_commitUpdate_current host r w :
  files w !! recorderPath r = Some (original r) →
  tree_commitUpdate host r w
  = (Ok tt, {| files := <[recorderPath r := edited r]> (files w);
               events := events w
                 ++ (if String.eqb (edited r) (original r) then []
                     else [Overwritten (recorderPath r) (edited r)]) |}).
Proof.
  intros Hfile. unfold tree_commitUpdate. rewrite Hfile, String.eqb_refl.
  destruct (String.eqb_spec (edited r) (original r)) as [Heq|Hne]; [|done].
  rewrite Heq, insert_id, app_nil_r by done. by destruct w.
Qed.

(** The edited text of one removal and one insertion within it, the
    removal being staged or, when it is empty, left out. *)
Lemma edited_after_remove path content rs re pos ins :
  rs ≤ pos → pos ≤ re → re ≤ String.length content →
  edited {| recorderPath := path; original := content;
            removals := (if Nat.eqb (re - rs) 0 then [] else [(rs, re - rs)]);
            insertions := [(pos, ins)] |}
  = Js.substringTo rs content +:+ ins +:+ Js.substringFrom re content.
Proof.
  intros Hrs Hpos Hre. apply edited_splice; [done..|].
  destruct (Nat.eqb_spec (re - rs) 0); [right; split; [done|lia]|by left].
Qed.

End RecorderSteps.

(** ** The guarded revision on a unit *)

Module GuardedFacts.
Import Helpers StringFacts MatchFacts RecorderFacts TreeFacts IndexFacts RecorderSteps.

Lemma guarded_removalRange_bounds content node rs re :
  Guarded.removalRange content node = (rs, re) →
  rs ≤ ts.getFullStart node ∧ re = ts.getEnd node.
Proof.
  unfold Guarded.removalRange.
  destruct (Js.matchCommaBefore _); intros [= <- <-]; split; (done || lia).
Qed.

(** A unit with a literal [template] and no [templateUrl] whose node lies
    within the text: the guarded revision emits the external file and
    commits the spliced text. *)
Lemma processFile_processing host p w content d v node :
  files w !! p = Some content →
  Index.decision host p (Some content) = Index.Processing d v node →
  ts.getEnd node ≤ String.length content →
  Index.emittable (files w) (Index.htmlFilePath p) = true →
  ∃ w', Guarded.processFile host p w = (Ok tt, w')
        ∧ files w' = <[p := GuardedSplice.rewritten p content node]>
                       (Index.emitted (Index.htmlFilePath p) v (files w)).
Proof.
  intros Hfile (Hends & (nodes & Hparse & Hfind) & Hno & Hval & Hnode)%decision_processing Hlen
    Hfree.
  unfold Guarded.processFile. rewrite Hends. cbn [negb].
  unfold mbind, M_bind, bind, log, emit, tree_read, createSourceFile, lift. cbn [files events].
  rewrite Hfile, Hparse. cbn [files events]. rewrite Hfind, Hno, Hval, Hnode. cbn [ts.text].
  destruct (Guarded.removalRange content node) as [rs re] eqn:Hrange.
  destruct (guarded_removalRange_bounds _ _ _ _ Hrange) as [Hrs ->].
  assert (ts.getFullStart node ≤ ts.getStart node ∧ ts.getStart node ≤ ts.getEnd node) as [??]
    by (unfold ts.getEnd, ts.getStart; lia).
  unfold GuardedSplice.rewritten. rewrite Hrange.
  unfold tree_exists, tree_beginUpdate, Index.emitted. cbn [files events].
  change (Guarded.htmlFilePath p) with (Index.htmlFilePath p).
  assert (Index.htmlFilePath p ≠ p) as Hne.
  { intros Heq. by rewrite <- Heq, PathFacts.htmlFilePath_not_candidate in Hends. }
  destruct (files w !! Index.htmlFilePath p) as [h|] eqn:Hhtml.
  - rewrite bool_decide_true by eauto. cbn [files events]. rewrite Hfile.
    rewrite recorder_remove_within by (cbn [original]; lia). cbn [files events].
    rewrite recorder_insertLeft_within by (destruct (Nat.eqb _ _); cbn [original]; lia).
    cbn [files events].
    rewrite tree_commitUpdate_current
      by (destruct (Nat.eqb _ _); cbn [recorderPath original files]; done).
    eexists. split; [reflexivity|]. cbn [files].
    destruct (Nat.eqb_spec (ts.getEnd node - rs) 0) as [Hz|Hz];
      cbn [recorderPath original removals insertions app];
      (rewrite (edited_splice p content _ rs (ts.getEnd node)); [done|lia|lia|lia|]);
      [right; split; [done|lia]|by left].
  - rewrite bool_decide_false by (by intros [??]). cbn [files events].
    rewrite tree_create_free by done.
    cbn [files events]. rewrite lookup_insert_ne, Hfile by done.
    rewrite recorder_remove_within by (cbn [original]; lia). cbn [files events].
    rewrite recorder_insertLeft_within by (destruct (Nat.eqb _ _); cbn [original]; lia).
    cbn [files events].
    rewrite tree_commitUpdate_current
      by (destruct (Nat.eqb _ _); cbn [recorderPath original files];
          by rewrite lookup_insert_ne).
    eexists. split; [reflexivity|]. cbn [files].
    destruct (Nat.eqb_spec (ts.getEnd node - rs) 0) as [Hz|Hz];
      cbn [recorderPath original removals insertions app];
      (rewrite (edited_splice p content _ rs (ts.getEnd node)); [done|lia|lia|lia|]);
      [right; split; [done|lia]|by left].
Qed.

(** A unit with a literal [template] and no [templateUrl] whose external
    file cannot be emitted, its path being a directory: [tree.create]
    throws and no file has changed. *)
Lemma processFile_blocked host p w content d v node :
  files w !! p = Some content →
  Index.decision host p (Some content) = Index.Processing d v node →
  Index.emittable (files w) (Index.htmlFilePath p) = false →
  ∃ thrown w', Guarded.processFile host p w = (Throw thrown, w') ∧ files w' = files w.
Proof.
  intros Hfile (Hends & (nodes & Hparse & Hfind) & Hno & Hval & Hnode)%decision_processing
    Hblocked.
  unfold Guarded.processFile. rewrite Hends. cbn [negb].
  unfold mbind, M_bind, bind, log, emit, tree_read, createSourceFile, lift. cbn [files events].
  rewrite Hfile, Hparse. cbn [files events]. rewrite Hfind, Hno, Hval.
  unfold tree_exists. cbn [files events].
  change (Guarded.htmlFilePath p) with (Index.htmlFilePath p).
  destruct (tree_create_directory host (Index.htmlFilePath p) v w Hblocked) as [Hnone _].
  rewrite bool_decide_false by (rewrite Hnone; by intros [??]). cbn [files events].
  match goal with |- context [tree_create host _ _ ?w1] =>
    destruct (tree_create_directory host (Index.htmlFilePath p) v w1 Hblocked)
      as [_ ->] end.
  by eexists _, _.
Qed.

End GuardedFacts.

Module GuardedLayoutFacts.
Import Helpers Layout StringFacts MatchFacts IndexFacts LayoutFacts RecorderSteps GuardedFacts.

(** [/,\s*$/] does not match a text that ends with an opening brace. *)
Lemma matchCommaBefore_brace s : Js.matchCommaBefore (s +:+ "{") = None.
Proof.
  induction s as [|c s IH]; [done|]. rewrite str_app_cons. cbn [Js.matchCommaBefore].
  rewrite allWhiteSpace_app. cbn. by rewrite !andb_false_r.
Qed.

Section GuardedVisit.
Variables (host : Host) (p : string) (w : World) (f : File).
Variables (es1 : list Entry) (e : Entry) (es2 : list Entry) (v : string).
Hypothesis Hends : Js.endsWith p ".component.ts" = true.
Hypothesis Hfile : files w !! p = Some (fileText f).
Hypothesis Hparse : parsedAs host p f.
Hypothesis Hes : entries (block f) = es1 ++ e :: es2.
Hypothesis Hurl : Forall (λ e', named "templateUrl" e' = false) (entries (block f)).
Hypothesis Htemplate : Forall (λ e', named "template" e' = false) es1.
Hypothesis Hkind :
  kind e = ts.PropertyAssignment (ts.Identifier "template") (ts.StringLiteral v)
  ∨ kind e = ts.PropertyAssignment (ts.Identifier "template")
               (ts.NoSubstitutionTemplateLiteral v).
Hypothesis Hfree : Index.emittable (files w) (Index.htmlFilePath p) = true.

Lemma guarded_layout :
  ∃ w', Guarded.processFile host p w = (Ok tt, w')
        ∧ files w' = <[p := GuardedSplice.rewritten p (fileText f) (memberNode f es1 e)]>
                       (Index.emitted (Index.htmlFilePath p) v (files w)).
Proof.
  apply (processFile_processing host p w (fileText f) (decorator f) v); [done| | |done].
  - by apply (decision_layout host p f es1 e es2 v).
  - rewrite (fileText_split f es1 e es2) by done. by apply cut_within.
Qed.

(** A member that is not the first one: the reference takes its place on
    a line of its own, and the separators stay as they are. *)
Lemma guarded_splice_after_separator :
  es1 ≠ [] →
  ∃ w', Guarded.processFile host p w = (Ok tt, w')
        ∧ files w' !! p
          = Some (fileText (withEntries f (es1 ++ GuardedSplice.reference p (gap e) :: es2))).
Proof.
  intros Hne. destruct guarded_layout as (w' & Hrun & Hfiles).
  exists w'. split; [done|]. rewrite Hfiles, lookup_insert_eq. f_equal.
  assert (textBefore es1 = entriesText es1 +:+ ",") as Hbefore by (by destruct es1).
  rewrite (fileText_split (withEntries f (es1 ++ GuardedSplice.reference p (gap e) :: es2))
             es1 (GuardedSplice.reference p (gap e)) es2) by done.
  cbn [withEntries before GuardedSplice.reference leading source gap].
  change (blockEnd (withEntries f _)) with (blockEnd f).
  rewrite (fileText_split f es1 e es2) by done. rewrite Hbefore.
  assert (Guarded.removalRange
            ((before f +:+ "{" +:+ entriesText es1 +:+ ",")
               +:+ leading e +:+ source e +:+ gap e +:+ textAfter es2 +:+ blockEnd f)
            (memberNode f es1 e)
          = (String.length (before f +:+ "{" +:+ entriesText es1),
             ts.getEnd (memberNode f es1 e))) as Hrange.
  { unfold Guarded.removalRange.
    rewrite cut_before by (unfold memberNode; cbn [nodeOf ts.getFullStart]; by rewrite Hbefore).
    replace (before f +:+ "{" +:+ entriesText es1 +:+ ",")
      with ((before f +:+ "{" +:+ entriesText es1) +:+ "," +:+ "")
      by (by rewrite str_app_nil_r, !str_app_assoc).
    rewrite matchCommaBefore_app by done.
    unfold memberNode at 1. cbn [nodeOf ts.getFullStart]. rewrite Hbefore.
    f_equal. rewrite !str_length_app. simpl. lia. }
  unfold GuardedSplice.rewritten. rewrite Hrange.
  rewrite cut_after
    by (unfold memberNode; cbn [nodeOf ts.getFullStart ts.leadingWidth ts.width];
        by rewrite ?Hbefore).
  replace (before f +:+ "{" +:+ entriesText es1 +:+ ",")
    with ((before f +:+ "{" +:+ entriesText es1) +:+ ",")
    by (by rewrite !str_app_assoc).
  rewrite (str_app_assoc _ "," (leading e +:+ _)), substringTo_app.
  unfold GuardedSplice.textToInsert. by rewrite !str_app_assoc.
Qed.

(** The first member: a separator is written directly after the opening
    brace, in front of the reference. *)
Lemma guarded_splice_first_member :
  es1 = [] →
  ∃ w', Guarded.processFile host p w = (Ok tt, w')
        ∧ files w' !! p
          = Some (before f +:+ "{" +:+ "," +:+ Js.newline +:+ "  "
                    +:+ Guarded.newTemplateUrlProperty p
                    +:+ gap e +:+ textAfter es2 +:+ blockEnd f).
Proof.
  intros Hfirst. destruct guarded_layout as (w' & Hrun & Hfiles).
  exists w'. split; [done|]. rewrite Hfiles, lookup_insert_eq. f_equal.
  rewrite (fileText_split f es1 e es2) by done. rewrite Hfirst.
  cbn [textBefore]. rewrite str_app_nil_r.
  assert (Guarded.removalRange
            ((before f +:+ "{")
               +:+ leading e +:+ source e +:+ gap e +:+ textAfter es2 +:+ blockEnd f)
            (memberNode f [] e)
          = (String.length (before f +:+ "{"), ts.getEnd (memberNode f [] e))) as Hrange.
  { unfold Guarded.removalRange.
    rewrite cut_before
      by (unfold memberNode; cbn [nodeOf ts.getFullStart textBefore];
          by rewrite str_app_nil_r).
    rewrite matchCommaBefore_brace.
    unfold memberNode at 1. cbn [nodeOf ts.getFullStart textBefore].
    by rewrite str_app_nil_r. }
  unfold GuardedSplice.rewritten. rewrite Hrange.
  rewrite cut_after
    by (unfold memberNode; cbn [nodeOf ts.getFullStart ts.leadingWidth ts.width textBefore];
        by rewrite ?str_app_nil_r).
  rewrite substringTo_app.
  unfold GuardedSplice.textToInsert. by rewrite !str_app_assoc.
Qed.

End GuardedVisit.
End GuardedLayoutFacts.

(** ** The styles block on a unit *)

Module StylesFacts.
Import Helpers StringFacts MatchFacts RecorderFacts TreeFacts SiblingFacts IndexFacts
  RecorderSteps ScssFacts StylesSplice.

Lemma createScssFile_files host dir base content index w :
  Index.emittable (files w) (Styles.scssFilePath dir base index) = true →
  files (snd (Styles.createScssFile host dir base content index w))
  = Index.emitted (Styles.scssFilePath dir base index) content (files w).
Proof.
  intros Hfree. rewrite createScssFile_spec by done. unfold Index.emitted. cbn [snd].
  by destruct (files w !! _).
Qed.

(** A style file does not lie below another style file of the unit, and
    the HTML file of a unit lies below none of its style files. *)
Lemma scss_not_below dir base i j :
  Path.hasSlash base = false →
  Js.startsWith (Styles.scssFilePath dir base j) (Styles.scssFilePath dir base i +:+ "/")
  = false.
Proof.
  intros Hbase. unfold Styles.scssFilePath.
  apply sibling_not_below; by apply scssFileName_regular.
Qed.

Lemma html_not_below_scss p i :
  Js.startsWith (Index.htmlFilePath p)
    (Styles.scssFilePath (Path.dirname p) (Path.basename p ".ts") i +:+ "/")
  = false.
Proof.
  unfold Styles.scssFilePath, Index.htmlFilePath.
  apply sibling_not_below;
    [apply scssFileName_regular, PathFacts.basename_slash_free
    |apply PathFacts.htmlFileName_regular].
Qed.

Lemma stylesEmittable_cons dir base index count tree :
  stylesEmittable dir base index (S count) tree
  = Index.emittable tree (Styles.scssFilePath dir base index)
    && stylesEmittable dir base (S index) count tree.
Proof. done. Qed.

(** The emitter at a path that lies below no style path leaves the style
    paths free. *)
Lemma stylesEmittable_emitted dir base index count (tree : gmap string string) q c :
  (∀ i, Js.startsWith q (Styles.scssFilePath dir base i +:+ "/") = false) →
  stylesEmittable dir base index count tree = true →
  stylesEmittable dir base index count (Index.emitted q c tree) = true.
Proof.
  intros Hq. unfold stylesEmittable. rewrite !forallb_forall.
  intros Hall i Hi. apply emittable_emitted; [done|by apply Hall].
Qed.

Lemma stylesEmittable_overwrite dir base index count (tree : gmap string string) q c :
  is_Some (tree !! q) →
  stylesEmittable dir base index count tree = true →
  stylesEmittable dir base index count (<[q := c]> tree) = true.
Proof.
  intros Hq. unfold stylesEmittable. rewrite !forallb_forall.
  intros Hall i Hi. apply emittable_overwrite; [done|by apply Hall].
Qed.

(** The map over the elements of a [styles] array, when no style path is
    a directory: one relative path per element, in the order of the
    elements; the files are emitted one after the other. *)
Lemma createScssFiles_run host dir base styles index w :
  Path.hasSlash base = false →
  stylesEmittable dir base index (length styles) (files w) = true →
  ∃ w', Styles.createScssFiles host dir base styles index w
        = (Ok (styleUrls base index (length styles)), w')
        ∧ files w' = emittedStyles dir base styles index (files w).
Proof.
  intros Hbase. revert index w.
  induction styles as [|style styles IH]; intros index w Hfree.
  - by exists w.
  - cbn [length] in Hfree. rewrite stylesEmittable_cons in Hfree.
    apply andb_true_iff in Hfree as [Hfirst Hrest].
    cbn [Styles.createScssFiles]. unfold mbind, M_bind, bind.
    pose proof (createScssFile_files host dir base style index w Hfirst) as Hfiles.
    rewrite createScssFile_spec in Hfiles |- * by done. cbn [snd] in Hfiles.
    destruct (IH (S index)
                (match files w !! Styles.scssFilePath dir base index with
                 | Some _ => w
                 | None =>
                     {| files := <[Styles.scssFilePath dir base index := style]> (files w);
                        events := events w
                          ++ [Created (Styles.scssFilePath dir base index) style] |}
                 end)) as (w' & Hrun & Hfiles').
    { rewrite Hfiles. apply stylesEmittable_emitted; [|done].
      intros i. by apply scss_not_below. }
    rewrite Hrun. exists w'. split; [done|].
    rewrite Hfiles'. cbn [emittedStyles]. by rewrite Hfiles.
Qed.

(** The map over the elements of a [styles] array when the path of one
    of the style files is a directory: [tree.create] throws. *)
Lemma createScssFiles_directory host dir base styles index w :
  Path.hasSlash base = false →
  stylesEmittable dir base index (length styles) (files w) = false →
  ∃ thrown w', Styles.createScssFiles host dir base styles index w = (Throw thrown, w').
Proof.
  intros Hbase. revert index w.
  induction styles as [|style styles IH]; intros index w Hblocked; [done|].
  cbn [length] in Hblocked. rewrite stylesEmittable_cons in Hblocked.
  cbn [Styles.createScssFiles]. unfold mbind, M_bind, bind.
  destruct (Index.emittable (files w) (Styles.scssFilePath dir base index)) eqn:Hfirst.
  - pose proof (createScssFile_files host dir base style index w Hfirst) as Hfiles.
    rewrite createScssFile_spec in Hfiles |- * by done. cbn [snd] in Hfiles.
    cbn [andb] in Hblocked.
    destruct (IH (S index)
                (match files w !! Styles.scssFilePath dir base index with
                 | Some _ => w
                 | None =>
                     {| files := <[Styles.scssFilePath dir base index := style]> (files w);
                        events := events w
                          ++ [Created (Styles.scssFilePath dir base index) style] |}
                 end)) as (thrown & w' & Hrun).
    { rewrite Hfiles. apply not_true_iff_false. intros Hafter.
      apply not_true_iff_false in Hblocked. apply Hblocked. revert Hafter.
      unfold stylesEmittable. rewrite !forallb_forall. intros Hall i Hi.
      specialize (Hall i Hi). revert Hall. unfold Index.emitted.
      destruct (files w !! Styles.scssFilePath dir base index) eqn:Hpath; [done|].
      rewrite !emittable_true. intros [[x Hsome]|Hdir].
      - left. destruct (decide (Styles.scssFilePath dir base i
                                = Styles.scssFilePath dir base index)) as [Heq|Hne].
        + apply scssFilePath_inj in Heq; [|done]. apply in_seq in Hi. lia.
        + rewrite lookup_insert_ne in Hsome by done. eauto.
      - right. rewrite isDirectory_insert_other in Hdir; [done|by apply scss_not_below]. }
    rewrite Hrun. by eexists _, _.
  - destruct (createScssFile_directory host dir base style index w Hfirst) as [thrown ->].
    by eexists _, _.
Qed.

Lemma emitted_subseteq path content (tree : gmap string string) :
  tree ⊆ Index.emitted path content tree.
Proof.
  unfold Index.emitted. destruct (tree !! path) eqn:Hpath; [done|].
  by apply insert_subseteq.
Qed.

(** Emitting never changes a file that exists. *)
Lemma emittedStyles_subseteq dir base styles index (tree : gmap string string) :
  tree ⊆ emittedStyles dir base styles index tree.
Proof.
  revert index tree. induction styles as [|style styles IH]; intros index tree; [done|].
  cbn [emittedStyles]. etrans; [apply emitted_subseteq|apply IH].
Qed.

Lemma emitted_lookup path content (tree : gmap string string) q :
  Index.emitted path content tree !! q
  = if decide (q = path)
    then Some (default content (tree !! path))
    else tree !! q.
Proof.
  unfold Index.emitted. destruct (decide (q = path)) as [->|Hne].
  - destruct (tree !! path) eqn:Hpath; [done|]. by rewrite lookup_insert_eq.
  - destruct (tree !! path); [done|]. by rewrite lookup_insert_ne.
Qed.

(** Every style has its own file: the file of the element [i] holds its
    text, unless the path existed before. *)
Lemma emittedStyles_lookup dir base styles index (tree : gmap string string) i style :
  Path.hasSlash base = false →
  styles !! i = Some style →
  emittedStyles dir base styles index tree !! Styles.scssFilePath dir base (index + i)
  = Some (default style (tree !! Styles.scssFilePath dir base (index + i))).
Proof.
  intros Hbase. revert index tree i.
  induction styles as [|first styles IH]; intros index tree i Hi; [done|].
  cbn [emittedStyles]. destruct i as [|i].
  - injection Hi as ->. rewrite Nat.add_0_r.
    eapply lookup_weaken; [|apply emittedStyles_subseteq].
    rewrite emitted_lookup. by rewrite decide_True.
  - replace (index + S i) with (S index + i) by lia.
    rewrite (IH (S index) _ i) by done. rewrite emitted_lookup.
    rewrite decide_False; [done|].
    intros Heq%scssFilePath_inj; [lia|done].
Qed.

(** The text inserted for a single style and the one inserted for an
    array with that style only are the same. *)
Lemma textToInsert_one base :
  textToInsert base 1
  = "," +:+ Js.newline +:+ "  styleUrls: ['"
      +:+ ("./" +:+ Styles.scssFileName base 0) +:+ "']".
Proof.
  unfold textToInsert, styleUrlsProperty, styleUrls. cbn [seq fmap list_fmap Js.join].
  rewrite !str_app_assoc. reflexivity.
Qed.

Lemma styles_removalRange_within content node :
  ts.getEnd node ≤ String.length content →
  ∃ rs, Styles.removalRange content node = (rs, ts.getEnd node)
        ∧ rs ≤ ts.getFullStart node.
Proof.
  intros Hlen. unfold Styles.removalRange.
  rewrite Nat.min_r, !Nat.max_0_l by done.
  destruct (Js.matchCommaBefore _); eexists; (split; [reflexivity|lia]).
Qed.

(** A unit with a literal [styles] and no [styleUrls], read from the
    tree, whose node ends before the end of the text: the styles block
    emits the files of the styles and commits the spliced text. *)
Lemma migrateStyles_processing host p content d value node w :
  files w !! p = Some content →
  hasProperty d "styleUrls" = false →
  Styles.getDecoratorPropertyValue d "styles" = Some value →
  getDecoratorPropertyNode d "styles" = Some node →
  ts.getEnd node < String.length content →
  stylesEmittable (Path.dirname p) (Path.basename p ".ts") 0 (length (stylesOf value))
    (files w) = true →
  ∃ w', Styles.migrateStyles host p content d w = (Ok tt, w')
        ∧ files w' = <[p := rewritten p content node value]>
                       (emittedStyles (Path.dirname p) (Path.basename p ".ts")
                          (stylesOf value) 0 (files w)).
Proof.
  intros Hfile Hno Hvalue Hnode Hlen Hfree.
  destruct (styles_removalRange_within content node) as (rs & Hrange & Hrs); [lia|].
  assert (ts.getFullStart node ≤ ts.getStart node ∧ ts.getStart node ≤ ts.getEnd node) as [??]
    by (unfold ts.getEnd, ts.getStart; lia).
  unfold Styles.migrateStyles. rewrite Hno, Hvalue, Hnode.
  unfold mbind, M_bind, bind, tree_beginUpdate. rewrite Hfile, Hrange.
  destruct (Nat.ltb_spec rs (String.length content)); [|lia].
  destruct (Nat.leb_spec (ts.getEnd node) (String.length content)); [|lia].
  cbn [andb]. rewrite recorder_remove_within by (cbn [original]; lia).
  unfold rewritten. rewrite Hrange.
  destruct value as [style|styles]; cbn [stylesOf length].
  - cbn [stylesOf length] in Hfree. rewrite stylesEmittable_cons in Hfree.
    apply andb_true_iff in Hfree as [Hfirst _].
    rewrite createScssFile_spec by done.
    pose proof (createScssFile_files host (Path.dirname p) (Path.basename p ".ts") style 0 w
                  Hfirst) as Hfiles.
    rewrite createScssFile_spec in Hfiles by done. cbn [snd] in Hfiles.
    set (w1 := match files w !! Styles.scssFilePath _ _ 0 with Some _ => w | None => _ end)
      in Hfiles |- *.
    assert (files w1 !! p = Some content) as Hfile1.
    { rewrite Hfiles. eapply lookup_weaken; [done|apply emitted_subseteq]. }
    rewrite recorder_insertLeft_within by (destruct (Nat.eqb _ _); cbn [original]; lia).
    rewrite tree_commitUpdate_current
      by (destruct (Nat.eqb _ _); cbn [recorderPath original]; done).
    eexists. split; [reflexivity|]. cbn [files emittedStyles]. rewrite Hfiles.
    destruct (Nat.eqb_spec (ts.getEnd node - rs) 0);
      cbn [recorderPath original removals insertions app];
      (rewrite (edited_splice p content _ rs (ts.getEnd node)); [|lia|lia|lia|]);
      [by rewrite textToInsert_one|right; split; [done|lia]
      |by rewrite textToInsert_one|by left].
  - destruct (createScssFiles_run host (Path.dirname p) (Path.basename p ".ts") styles 0 w)
      as (w1 & Hrun & Hfiles); [apply PathFacts.basename_slash_free|done|].
    rewrite Hrun.
    assert (files w1 !! p = Some content) as Hfile1.
    { rewrite Hfiles. eapply lookup_weaken; [done|apply emittedStyles_subseteq]. }
    rewrite recorder_insertLeft_within by (destruct (Nat.eqb _ _); cbn [original]; lia).
    rewrite tree_commitUpdate_current
      by (destruct (Nat.eqb _ _); cbn [recorderPath original]; done).
    eexists. split; [reflexivity|]. cbn [files]. rewrite Hfiles.
    destruct (Nat.eqb_spec (ts.getEnd node - rs) 0);
      cbn [recorderPath original removals insertions app];
      (rewrite (edited_splice p content _ rs (ts.getEnd node)); [|lia|lia|lia|]);
      [done|right; split; [done|lia]|done|by left].
Qed.

End StylesFacts.

Module StylesLayoutFacts.
Import Helpers Layout StringFacts MatchFacts PathFacts IndexFacts LayoutFacts RecorderSteps GuardFacts.
Import ScssFacts StylesSplice StylesFacts GuardedLayoutFacts.

Lemma find_members_none name pos es :
  Forall (λ e, named name e = false) es →
  List.find (isNamed name) (members pos es) = None.
Proof.
  intros Hes. revert pos. induction Hes as [|e es He _ IH]; intros pos; [done|].
  cbn [members List.find]. by rewrite isNamed_nodeOf, He.
Qed.

Lemma str_app_inv_length a b s t :
  String.length s = String.length t → a +:+ s = b +:+ t → s = t.
Proof.
  intros Hlen Heq.
  assert (String.length a = String.length b) as Hab.
  { apply (f_equal String.length) in Heq. rewrite !str_length_app in Heq. lia. }
  rewrite <- (substringFrom_app a s), Heq, Hab. apply substringFrom_app.
Qed.

(** The path of the file of a style is never the name of a candidate. *)
Lemma scssFilePath_not_candidate dir base index :
  Path.hasSlash base = false →
  Js.endsWith (Styles.scssFilePath dir base index) ".component.ts" = false.
Proof.
  intros Hbase. destruct (Js.endsWith _ _) eqn:Hends; [|done].
  apply endsWith_inv in Hends as [pre Hpre].
  assert (Path.lastSegment (Styles.scssFilePath dir base index)
          = Styles.scssFileName base index) as Hlast.
  { unfold Styles.scssFilePath.
    rewrite lastSegment_normalize; rewrite lastSegment_join;
      auto using scssFileName_regular. }
  rewrite Hpre, lastSegment_app in Hlast by done.
  assert (∃ name, Styles.scssFileName base index = name +:+ "ss") as [name Hname].
  { unfold Styles.scssFileName. destruct (Nat.eqb index 0).
    - exists (base +:+ ".sc"). by rewrite !str_app_assoc.
    - exists (base +:+ "-" +:+ pretty (index + 1) +:+ ".sc"). by rewrite !str_app_assoc. }
  rewrite Hname in Hlast.
  replace (Path.lastSegment pre +:+ ".component.ts")
    with ((Path.lastSegment pre +:+ ".component.") +:+ "ts") in Hlast
    by (by rewrite !str_app_assoc).
  by apply str_app_inv_length in Hlast.
Qed.

Lemma blockEnd_nonempty f : 0 < String.length (blockEnd f).
Proof.
  unfold blockEnd. rewrite !str_length_app. simpl. lia.
Qed.

Section StylesVisit.
Variables (host : Host) (p : string) (w : World) (f : File).
Variables (es1 : list Entry) (e : Entry) (es2 : list Entry).
Variables (initializer : ts.Expression) (value : Styles.PropertyValue).
Hypothesis Hends : Js.endsWith p ".component.ts" = true.
Hypothesis Hfile : files w !! p = Some (fileText f).
Hypothesis Hparse : parsedAs host p f.
Hypothesis Hes : entries (block f) = es1 ++ e :: es2.
Hypothesis Htemplate : Forall (λ e', named "template" e' = false) (entries (block f)).
Hypothesis Hurls : Forall (λ e', named "styleUrls" e' = false) (entries (block f)).
Hypothesis Hstyles : Forall (λ e', named "styles" e' = false) es1.
Hypothesis Hkind : kind e = ts.PropertyAssignment (ts.Identifier "styles") initializer.
Hypothesis Hvalue : StylesSplice.valueOf initializer = Some value.
Hypothesis Hfree :
  stylesEmittable (Path.dirname p) (Path.basename p ".ts") 0 (length (stylesOf value))
    (files w) = true.

Lemma styles_layout :
  ∃ w', Styles.processFile host p w = (Ok tt, w')
        ∧ files w' = <[p := rewritten p (fileText f) (memberNode f es1 e) value]>
                       (emittedStyles (Path.dirname p) (Path.basename p ".ts")
                          (stylesOf value) 0 (files w)).
Proof.
  destruct Hparse as (nodes & Hnodes & Hfind).
  rewrite (processFile_blocks host p w (fileText f) nodes (decorator f)); [|done..].
  unfold mbind, M_bind, bind. rewrite migrateTemplate_idle.
  2: { right. unfold Styles.getDecoratorPropertyValue, decorator. cbn [ts.properties].
       by rewrite find_members_none. }
  apply migrateStyles_processing; [done| | | | |done].
  - unfold hasProperty, decorator. cbn [ts.properties]. by apply existsb_members.
  - unfold Styles.getDecoratorPropertyValue, decorator. cbn [ts.properties].
    rewrite Hes, (find_members "styles") by (done || by unfold named; rewrite Hkind).
    unfold initializerOf. cbn [nodeOf ts.element]. rewrite Hkind.
    unfold StylesSplice.valueOf in Hvalue. by destruct initializer.
  - unfold getDecoratorPropertyNode, decorator. cbn [ts.properties].
    rewrite Hes, (find_members "styles") by (done || by unfold named; rewrite Hkind).
    unfold memberNode. by rewrite length_before.
  - rewrite (fileText_split f es1 e es2) by done.
    rewrite (cut_end _ (leading e) (source e)) by done.
    pose proof (blockEnd_nonempty f). rewrite !str_length_app. lia.
Qed.

(** A [styles] member that is not the first one, in a unit without a
    [template] member: the [styleUrls] member takes its place on a line
    of its own and every style has its file. *)
Lemma styles_splice_after_separator :
  es1 ≠ [] →
  ∃ w', Styles.processFile host p w = (Ok tt, w')
        ∧ files w' !! p
          = Some (fileText
                    (withEntries f
                       (es1 ++ StylesSplice.reference p (length (stylesOf value)) (gap e)
                            :: es2)))
        ∧ ∀ i style,
            stylesOf value !! i = Some style →
            files w' !! Styles.scssFilePath (Path.dirname p) (Path.basename p ".ts") i
            = Some (default style
                      (files w !! Styles.scssFilePath (Path.dirname p)
                                    (Path.basename p ".ts") i)).
Proof.
  intros Hne. destruct styles_layout as (w' & Hrun & Hfiles).
  exists w'. split; [done|]. rewrite Hfiles. split.
  - rewrite lookup_insert_eq. f_equal.
    assert (textBefore es1 = entriesText es1 +:+ ",") as Hbefore by (by destruct es1).
    rewrite (fileText_split
               (withEntries f (es1 ++ StylesSplice.reference p _ (gap e) :: es2))
               es1 (StylesSplice.reference p (length (stylesOf value)) (gap e)) es2)
      by done.
    cbn [withEntries before StylesSplice.reference leading source gap].
    change (blockEnd (withEntries f _)) with (blockEnd f).
    rewrite (fileText_split f es1 e es2) by done. rewrite Hbefore.
    assert (Styles.removalRange
              ((before f +:+ "{" +:+ entriesText es1 +:+ ",")
                 +:+ leading e +:+ source e +:+ gap e +:+ textAfter es2 +:+ blockEnd f)
              (memberNode f es1 e)
            = (String.length (before f +:+ "{" +:+ entriesText es1),
               ts.getEnd (memberNode f es1 e))) as Hrange.
    { unfold Styles.removalRange. rewrite !Nat.max_0_l.
      rewrite Nat.min_r.
      2: { rewrite (cut_end _ (leading e) (source e))
             by (unfold memberNode; cbn [nodeOf ts.getFullStart ts.leadingWidth ts.width];
                 by rewrite ?Hbefore).
           rewrite !str_length_app. lia. }
      rewrite cut_before
        by (unfold memberNode; cbn [nodeOf ts.getFullStart]; by rewrite Hbefore).
      replace (before f +:+ "{" +:+ entriesText es1 +:+ ",")
        with ((before f +:+ "{" +:+ entriesText es1) +:+ "," +:+ "")
        by (by rewrite str_app_nil_r, !str_app_assoc).
      rewrite matchCommaBefore_app by done.
      unfold memberNode at 1. cbn [nodeOf ts.getFullStart]. rewrite Hbefore.
      f_equal. rewrite !str_length_app. simpl. lia. }
    unfold rewritten. rewrite Hrange.
    rewrite cut_after
      by (unfold memberNode; cbn [nodeOf ts.getFullStart ts.leadingWidth ts.width];
          by rewrite ?Hbefore).
    replace (before f +:+ "{" +:+ entriesText es1 +:+ ",")
      with ((before f +:+ "{" +:+ entriesText es1) +:+ ",")
      by (by rewrite !str_app_assoc).
    rewrite (str_app_assoc _ "," (leading e +:+ _)), substringTo_app.
    unfold textToInsert. by rewrite !str_app_assoc.
  - intros i style Hi.
    rewrite lookup_insert_ne.
    2: { intros Heq. pose proof (scssFilePath_not_candidate (Path.dirname p)
                                   (Path.basename p ".ts") i (basename_slash_free p ".ts"))
           as Hscss.
         by rewrite <- Heq, Hends in Hscss. }
    by rewrite (emittedStyles_lookup _ _ _ 0 _ i style)
      by (done || apply basename_slash_free).
Qed.

End StylesVisit.

End StylesLayoutFacts.

(** ** Agreement of revisions *)

Module AgreementFacts.
Import Helpers Agreement.

Lemma effects_app evs evs' : effects (evs ++ evs') = effects evs ++ effects evs'.
Proof. unfold effects. apply List.filter_app. Qed.

Lemma alike_refl w : alike w w.
Proof. done. Qed.

Lemma alike_log_l w1 w2 level message :
  alike w1 w2 →
  alike {| files := files w1; events := events w1 ++ [Logged level message] |} w2.
Proof.
  intros [Hfiles Heffects]. split; [done|]. cbn [events].
  by rewrite effects_app, app_nil_r.
Qed.

Lemma alike_log_r w1 w2 level message :
  alike w1 w2 →
  alike w1 {| files := files w2; events := events w2 ++ [Logged level message] |}.
Proof.
  intros [Hfiles Heffects]. split; [done|]. cbn [events].
  by rewrite effects_app, app_nil_r.
Qed.

Lemma agree_ret {A} (a : A) : agree (mret a) (mret a).
Proof. by intros w1 w2 Hw. Qed.

Lemma agree_bind {A B} (m1 m2 : M A) (k1 k2 : A → M B) :
  agree m1 m2 → (∀ a, agree (k1 a) (k2 a)) → agree (m1 ≫= k1) (m2 ≫= k2).
Proof.
  intros Hm Hk w1 w2 Hw. unfold mbind, M_bind, bind.
  destruct (Hm w1 w2 Hw) as [Hr Hw'].
  destruct (m1 w1) as [[a1|e1] w1'], (m2 w2) as [[a2|e2] w2']; simplify_eq/=; [|done].
  by apply Hk.
Qed.

(** A diagnostic on one side only. *)
Lemma agree_log_l {A} level message (m1 m2 : M A) :
  agree m1 m2 → agree (log level message ≫= λ _, m1) m2.
Proof.
  intros Hm w1 w2 Hw. unfold mbind, M_bind, bind, log, emit.
  by apply Hm, alike_log_l.
Qed.

Lemma agree_log_r {A} level message (m1 m2 : M A) :
  agree m1 m2 → agree m1 (log level message ≫= λ _, m2).
Proof.
  intros Hm w1 w2 Hw. unfold mbind, M_bind, bind, log, emit.
  by apply Hm, alike_log_r.
Qed.

Lemma agree_log_ret_l level message : agree (log level message) (mret tt).
Proof. intros w1 w2 Hw. split; [done|]. by apply alike_log_l. Qed.

Lemma agree_log_ret_r level message : agree (mret tt) (log level message).
Proof. intros w1 w2 Hw. split; [done|]. by apply alike_log_r. Qed.

Lemma agree_log_log level message level' message' :
  agree (log level message) (log level' message').
Proof. intros w1 w2 Hw. split; [done|]. by apply alike_log_l, alike_log_r. Qed.

(** The operations of the tree and of the recorder. *)
Lemma agree_read path : agree (tree_read path) (tree_read path).
Proof. intros w1 w2 [Hfiles Heffects]. unfold tree_read. cbn. by rewrite Hfiles. Qed.

Lemma agree_exists path : agree (tree_exists path) (tree_exists path).
Proof. intros w1 w2 [Hfiles Heffects]. unfold tree_exists. cbn. by rewrite Hfiles. Qed.

Lemma agree_parse host path content :
  agree (createSourceFile host path content) (createSourceFile host path content).
Proof. by intros w1 w2 Hw. Qed.

Lemma agree_create host path content :
  agree (tree_create host path content) (tree_create host path content).
Proof.
  intros w1 w2 [Hfiles Heffects]. unfold tree_create. rewrite Hfiles.
  destruct (files w2 !! path); [done|].
  destruct (isDirectory (files w2) path); [done|]. cbn. split; [done|].
  split; cbn; [done|by rewrite !effects_app, Heffects].
Qed.

Lemma agree_beginUpdate host path :
  agree (tree_beginUpdate host path) (tree_beginUpdate host path).
Proof.
  intros w1 w2 [Hfiles Heffects]. unfold tree_beginUpdate. rewrite Hfiles.
  by destruct (files w2 !! path).
Qed.

Lemma agree_remove host r index length :
  agree (recorder_remove host r index length) (recorder_remove host r index length).
Proof.
  intros w1 w2 Hw. unfold recorder_remove, assertIndex, bind, ret, throw.
  repeat case_match; simplify_eq/=; done.
Qed.

Lemma agree_insertLeft host r index content :
  agree (recorder_insertLeft host r index content)
    (recorder_insertLeft host r index content).
Proof.
  intros w1 w2 Hw. unfold recorder_insertLeft, assertIndex, bind, ret, throw.
  repeat case_match; simplify_eq/=; done.
Qed.

Lemma agree_commitUpdate host r :
  agree (tree_commitUpdate host r) (tree_commitUpdate host r).
Proof.
  intros w1 w2 [Hfiles Heffects]. unfold tree_commitUpdate. rewrite Hfiles.
  repeat case_match; try done. cbn. split; [done|].
  split; cbn; [done|by rewrite !effects_app, Heffects].
Qed.

Lemma agree_forEach paths (visitor1 visitor2 : string → M unit) :
  (∀ path, agree (visitor1 path) (visitor2 path)) →
  agree (forEach paths visitor1) (forEach paths visitor2).
Proof.
  intros Hvisitor. induction paths as [|path paths IH]; [by apply (agree_ret tt)|].
  cbn [forEach]. by apply (agree_bind (visitor1 path) (visitor2 path)).
Qed.

Lemma agree_visit host root (visitor1 visitor2 : string → M unit) :
  (∀ path, agree (visitor1 path) (visitor2 path)) →
  agree (visit host root visitor1) (visit host root visitor2).
Proof.
  intros Hvisitor w1 w2 Hw. unfold visit. rewrite (proj1 Hw).
  destruct (listFiles host root (files w2)); [|done].
  by apply agree_forEach.
Qed.

End AgreementFacts.

Module RevisionFacts.
Import Helpers Agreement AgreementFacts.

(** One step of two computations that run the same operations. *)
Ltac agree_step :=
  first
    [ apply agree_log_log
    | apply agree_log_ret_l
    | apply agree_log_ret_r
    | apply (agree_ret tt)
    | apply agree_log_l
    | apply agree_log_r
    | apply agree_bind;
        [ first [ apply agree_read | apply agree_exists | apply agree_parse
                | apply agree_create | apply agree_beginUpdate | apply agree_remove
                | apply agree_insertLeft | apply agree_commitUpdate ]
        | intros ? ]
    | match goal with
      | |- agree ((if _ then _ else _) ≫= _) ((if _ then _ else _) ≫= _) =>
          apply agree_bind; [|intros ?]
      end
    | match goal with
      | |- agree (if ?b then _ else _) _ => destruct b
      | |- agree (match ?x with _ => _ end) _ => destruct x
      | |- agree (let '(_, _) := ?x in _) _ => destruct x
      end ].

Lemma reviewed_visitFile host p :
  agree (Reviewed.visitFile host p) (Index.visitFile host p).
Proof.
  unfold Reviewed.visitFile, Index.visitFile.
  repeat agree_step.
Qed.

Lemma verbose_removalRange content count node :
  agree (Verbose.removalRange content count node)
    (mret (Index.removalRange content count node)).
Proof.
  unfold Verbose.removalRange, Index.removalRange.
  repeat first [ apply agree_log_l | apply agree_ret
               | match goal with |- agree (if ?b then _ else _) _ => destruct b
                                | |- agree (match ?x with _ => _ end) _ => destruct x end ].
Qed.

Lemma agree_bind_ret {A B} (m : M A) (v : A) (k1 k2 : A → M B) :
  agree m (mret v) → (∀ a, agree (k1 a) (k2 a)) → agree (m ≫= k1) (k2 v).
Proof.
  intros Hm Hk w1 w2 Hw. exact (agree_bind m (mret v) k1 k2 Hm Hk w1 w2 Hw).
Qed.

Lemma verbose_visitFile host p :
  agree (Verbose.visitFile host p) (Index.visitFile host p).
Proof.
  unfold Verbose.visitFile, Index.visitFile.
  repeat agree_step.
  match goal with
  | |- agree (Verbose.removalRange ?content ?count ?node ≫= ?k1) _ =>
      apply (agree_bind_ret (Verbose.removalRange content count node)
               (Index.removalRange content count node) k1
               (λ range,
                  let '(removalStart, removalEnd, needsCommaInserted) := range in
                  recorder ← recorder_remove host _ removalStart (removalEnd - removalStart);
                  recorder ← recorder_insertLeft host recorder (ts.getStart node)
                               (Index.newTemplateUrlProperty p
                                  +:+ (if needsCommaInserted then "," else ""));
                  tree_commitUpdate host recorder;;
                  log info ("Actualizado " +:+ p
                              +:+ ": se reemplazó 'template' por 'templateUrl'.")));
        [apply verbose_removalRange|intros [[removalStart removalEnd] needsCommaInserted]]
  end.
  repeat agree_step.
Qed.

End RevisionFacts.

(** ** Invariants of the steps *)

Module StepsFacts.
Import Helpers Frame Steps IndexRun.

Section Relation.
Variable R : World → World → Prop.
Hypothesis R_refl : ∀ w, R w w.
Hypothesis R_trans : ∀ w1 w2 w3, R w1 w2 → R w2 w3 → R w1 w3.

Lemma within_weaken {A} (m : M A) (post post' : A → Prop) :
  within R m post → (∀ a, post a → post' a) → within R m post'.
Proof. intros Hm Himp w. destruct (Hm w) as [Hw Ha]. split; [done|]. naive_solver. Qed.

Lemma within_ret {A} (a : A) (post : A → Prop) : post a → within R (mret a) post.
Proof. intros Ha w. split; [apply R_refl|]. by intros a' [= <-]. Qed.

Lemma within_bind {A B} (m : M A) (k : A → M B) (mid : A → Prop) (post : B → Prop) :
  within R m mid → (∀ a, mid a → within R (k a) post) → within R (m ≫= k) post.
Proof.
  intros Hm Hk w. unfold mbind, M_bind, bind.
  destruct (Hm w) as [Hw Ha]. destruct (m w) as [[a|e] w']; cbn [fst snd] in *.
  - destruct (Hk a (Ha a eq_refl) w') as [Hw' Hb]. split; [|done].
    by apply (R_trans w w').
  - by split.
Qed.

Lemma within_tryCatch {A} (body : M A) (handler : Thrown → M A) (post : A → Prop) :
  within R body post → (∀ e, within R (handler e) post) →
  within R (tryCatch body handler) post.
Proof.
  intros Hbody Hhandler w. unfold tryCatch.
  destruct (Hbody w) as [Hw Ha]. destruct (body w) as [[a|e] w']; cbn [fst snd] in *.
  - by split.
  - destruct (Hhandler e w') as [Hw' Hb]. split; [|done].
    by apply (R_trans w w').
Qed.

Lemma within_throw {A} thrown (post : A → Prop) : within R (throw thrown) post.
Proof. intros w. split; [apply R_refl|done]. Qed.

(** The operations that leave the world as it is. *)
Lemma within_read path : within R (tree_read path) (λ _, True).
Proof. intros w. split; [apply R_refl|done]. Qed.

Lemma within_exists path : within R (tree_exists path) (λ _, True).
Proof. intros w. split; [apply R_refl|done]. Qed.

Lemma within_parse host path content :
  within R (createSourceFile host path content) (λ _, True).
Proof. intros w. split; [apply R_refl|done]. Qed.

Lemma within_beginUpdate host path :
  within R (tree_beginUpdate host path) (λ r, recorderPath r = path).
Proof.
  intros w. unfold tree_beginUpdate.
  destruct (files w !! path); (split; [apply R_refl|]); [|done].
  by intros r [= <-].
Qed.

Lemma within_remove host r index length :
  within R (recorder_remove host r index length) (λ r', recorderPath r' = recorderPath r).
Proof.
  intros w. unfold recorder_remove, assertIndex, bind, ret, throw.
  repeat case_match; simplify_eq/=; (split; [apply R_refl|]); try done;
    by intros r' [= <-].
Qed.

Lemma within_insertLeft host r index content :
  within R (recorder_insertLeft host r index content)
    (λ r', recorderPath r' = recorderPath r).
Proof.
  intros w. unfold recorder_insertLeft, assertIndex, bind, ret, throw.
  repeat case_match; simplify_eq/=; (split; [apply R_refl|]); try done;
    by intros r' [= <-].
Qed.

Lemma within_forEach paths (visitor : string → M unit) :
  (∀ path, within R (visitor path) (λ _, True)) →
  within R (forEach paths visitor) (λ _, True).
Proof.
  intros Hvisitor. induction paths as [|path paths IH]; [by apply (within_ret tt)|].
  cbn [forEach]. by apply (within_bind (visitor path) _ (λ _, True)).
Qed.

Lemma within_visit host root (visitor : string → M unit) :
  (∀ path, within R (visitor path) (λ _, True)) →
  within R (visit host root visitor) (λ _, True).
Proof.
  intros Hvisitor w. unfold visit.
  destruct (listFiles host root (files w)); [|split; [apply R_refl|done]].
  by apply within_forEach.
Qed.

End Relation.

(** *** The files that exist are preserved *)

Lemma preserved_log level message : within preserved (log level message) (λ _, True).
Proof.
  intros w. split; [|done]. by apply (preserved_logs w [Logged level message]).
Qed.

(** [tree.create] writes at a path that does not exist, or throws. *)
Lemma preserved_create host path content :
  within preserved (tree_create host path content) (λ _, True).
Proof.
  intros w. split; [|done]. unfold tree_create.
  destruct (files w !! path) eqn:Hpath; [apply preserved_refl|].
  destruct (isDirectory (files w) path); [apply preserved_refl|]. cbn [snd].
  exists [Created path content]. split_and!; [done| |].
  - intros q c Hq. left. cbn [files]. rewrite lookup_insert_ne; [done|congruence].
  - by intros q c [= -> ->]%list_elem_of_singleton.
Qed.

(** [tree.commitUpdate] overwrites the file of the recorder only. *)
Lemma preserved_commitUpdate host r :
  isCandidate (recorderPath r) = true →
  within preserved (tree_commitUpdate host r) (λ _, True).
Proof.
  intros Hcandidate w. split; [|done]. unfold tree_commitUpdate.
  repeat case_match; try apply preserved_refl. cbn [snd].
  exists [Overwritten (recorderPath r) (edited r)]. split_and!; [done| |].
  - intros q c Hq. cbn [files]. destruct (decide (q = recorderPath r)) as [->|Hne].
    + right. split; [done|]. exists (edited r). rewrite lookup_insert_eq.
      split; [done|]. by apply list_elem_of_singleton.
    + left. by rewrite lookup_insert_ne.
  - by intros q c [=]%list_elem_of_singleton.
Qed.

(** *** No diagnostic of the level error or fatal *)

Lemma calm_refl w : calm w w.
Proof. exists []. by rewrite app_nil_r. Qed.

Lemma calm_trans w1 w2 w3 : calm w1 w2 → calm w2 w3 → calm w1 w3.
Proof.
  intros (evs & Hevs & Hcalm) (evs' & Hevs' & Hcalm'). exists (evs ++ evs').
  split; [by rewrite Hevs', Hevs, app_assoc|].
  by rewrite existsb_app, Hcalm, Hcalm'.
Qed.

Lemma calm_log level message :
  severe (Logged level message) = false → within calm (log level message) (λ _, True).
Proof.
  intros Hlevel w. split; [|done]. exists [Logged level message].
  split; [done|]. cbn [existsb]. by rewrite Hlevel.
Qed.

Lemma calm_create host path content :
  within calm (tree_create host path content) (λ _, True).
Proof.
  intros w. split; [|done]. unfold tree_create.
  destruct (files w !! path); [apply calm_refl|].
  destruct (isDirectory (files w) path); [apply calm_refl|].
  by exists [Created path content].
Qed.

Lemma calm_commitUpdate host r : within calm (tree_commitUpdate host r) (λ _, True).
Proof.
  intros w. split; [|done]. unfold tree_commitUpdate.
  repeat case_match; try apply calm_refl.
  by exists [Overwritten (recorderPath r) (edited r)].
Qed.

End StepsFacts.

Module RunFacts.
Import Helpers Frame Steps StepsFacts IndexFacts IndexRun StylesFacts FaultFacts.

(** One step through a computation built from the operations of the
    devkit; [prim] proves the steps that change the world. *)
Ltac run_step Hrefl Htrans prim :=
  first
    [ prim
    | apply (within_ret _ Hrefl); exact I
    | apply (within_bind _ Htrans _ _ (λ _, True));
        [ first [ prim | apply (within_read _ Hrefl) | apply (within_exists _ Hrefl)
                | apply (within_parse _ Hrefl) ]
        | intros ? _ ]
    | apply (within_bind _ Htrans _ _ _ _ (within_beginUpdate _ Hrefl _ _)); intros ? ?
    | apply (within_bind _ Htrans _ _ _ _ (within_remove _ Hrefl _ _ _ _)); intros ? ?
    | apply (within_bind _ Htrans _ _ _ _ (within_insertLeft _ Hrefl _ _ _ _)); intros ? ?
    | match goal with
      | |- within _ ((if _ then _ else _) ≫= _) _ =>
          apply (within_bind _ Htrans _ _ (λ _, True)); [|intros ? _]
      end
    | match goal with
      | |- within _ (if negb (Js.endsWith ?p ?s) then _ else _) _ =>
          destruct (Js.endsWith p s) eqn:?; cbn [negb]
      | |- within _ (if ?b then _ else _) _ => destruct b eqn:?
      | |- within _ (match ?x with _ => _ end) _ => destruct x eqn:?
      end ].

Ltac preserved_prim :=
  first [ apply preserved_log | apply preserved_create
        | apply preserved_commitUpdate; unfold isCandidate; congruence ].

Ltac preserved_step := run_step preserved_refl preserved_trans ltac:(preserved_prim).

Ltac calm_prim :=
  first [ apply calm_log; reflexivity | apply calm_create | apply calm_commitUpdate ].

Ltac calm_step := run_step calm_refl calm_trans ltac:(calm_prim).

Lemma preserved_report level heading thrown :
  within preserved (Faults.report level heading thrown) (λ _, True).
Proof. unfold Faults.report. repeat preserved_step. Qed.

Lemma guarded_processFile_preserved host p :
  within preserved (Guarded.processFile host p) (λ _, True).
Proof. unfold Guarded.processFile. repeat preserved_step. Qed.

Lemma guarded_visitFile_preserved host p :
  within preserved (Guarded.visitFile host p) (λ _, True).
Proof.
  apply (within_tryCatch _ preserved_trans);
    [apply guarded_processFile_preserved|intros e; apply preserved_report].
Qed.

Lemma createScssFile_preserved host dir base content index :
  within preserved (Styles.createScssFile host dir base content index) (λ _, True).
Proof. unfold Styles.createScssFile. repeat preserved_step. Qed.

Lemma createScssFiles_preserved host dir base styles index :
  within preserved (Styles.createScssFiles host dir base styles index) (λ _, True).
Proof.
  revert index. induction styles as [|style styles IH]; intros index;
    [by apply (within_ret _ preserved_refl)|].
  cbn [Styles.createScssFiles].
  apply (within_bind _ preserved_trans _ _ (λ _, True));
    [apply createScssFile_preserved|intros ? _].
  apply (within_bind _ preserved_trans _ _ (λ _, True)); [apply IH|intros ? _].
  by apply (within_ret _ preserved_refl).
Qed.

Lemma styles_migrateTemplate_preserved host p content d :
  Js.endsWith p ".component.ts" = true →
  within preserved (Styles.migrateTemplate host p content d) (λ _, True).
Proof. intros Hends. unfold Styles.migrateTemplate. repeat preserved_step. Qed.

Lemma styles_migrateStyles_preserved host p content d :
  Js.endsWith p ".component.ts" = true →
  within preserved (Styles.migrateStyles host p content d) (λ _, True).
Proof.
  intros Hends. unfold Styles.migrateStyles. repeat preserved_step.
  apply (within_bind _ preserved_trans _ _ (λ r', recorderPath r' = p));
    [|intros ? ?; repeat preserved_step].
  match goal with |- within _ (match ?value with _ => _ end) _ => destruct value end.
  - apply (within_bind _ preserved_trans _ _ (λ _, True));
      [apply createScssFile_preserved|intros ? _].
    eapply within_weaken; [apply (within_insertLeft _ preserved_refl)|]. cbn. congruence.
  - apply (within_bind _ preserved_trans _ _ (λ _, True));
      [apply createScssFiles_preserved|intros ? _].
    eapply within_weaken; [apply (within_insertLeft _ preserved_refl)|]. cbn. congruence.
Qed.

Lemma styles_processFile_preserved host p :
  within preserved (Styles.processFile host p) (λ _, True).
Proof.
  unfold Styles.processFile. repeat preserved_step.
  apply (within_bind _ preserved_trans _ _ (λ _, True));
    [by apply styles_migrateTemplate_preserved|intros ? _].
  by apply styles_migrateStyles_preserved.
Qed.

Lemma styles_visitFile_preserved host p :
  within preserved (Styles.visitFile host p) (λ _, True).
Proof.
  apply (within_tryCatch _ preserved_trans);
    [apply styles_processFile_preserved|intros e; apply preserved_report].
Qed.

(** The node of a property is found whenever its value is: the branch
    of the critical error is never taken. *)
Ltac no_node :=
  match goal with
  | Hvalue : getDecoratorPropertyValue ?d ?name = Some _,
    Hnode : getDecoratorPropertyNode ?d ?name = None |- _ =>
      destruct (propertyNode_of_value d name _ Hvalue) as [? ?]; congruence
  end.

Lemma index_visitFile_calm host p : within calm (Index.visitFile host p) (λ _, True).
Proof. unfold Index.visitFile. repeat calm_step. no_node. Qed.

Lemma reviewed_visitFile_calm host p : within calm (Reviewed.visitFile host p) (λ _, True).
Proof. unfold Reviewed.visitFile. repeat calm_step. no_node. Qed.

Lemma verbose_removalRange_calm content count node :
  within calm (Verbose.removalRange content count node) (λ _, True).
Proof. unfold Verbose.removalRange. repeat calm_step. Qed.

Lemma verbose_visitFile_calm host p : within calm (Verbose.visitFile host p) (λ _, True).
Proof.
  unfold Verbose.visitFile. repeat calm_step; [|no_node].
  apply (within_bind _ calm_trans _ _ (λ _, True));
    [apply verbose_removalRange_calm|intros [[??]?] _].
  repeat calm_step.
Qed.

End RunFacts.

Module ReturnFacts.
Import Helpers FaultFacts.

Lemma forEach_returns paths (visitor : string → M unit) w :
  (∀ path w, fst (visitor path w) = Ok tt) →
  fst (forEach paths visitor w) = Ok tt.
Proof.
  intros Hvisitor. revert w. induction paths as [|path paths IH]; intros w; [done|].
  cbn [forEach]. unfold bind. pose proof (Hvisitor path w) as Hpath.
  destruct (visitor path w) as [[[]|thrown] w']; [apply IH|done].
Qed.

Lemma guarded_visitor_returns (body : M unit) heading w :
  fst (tryCatch body (Faults.report error heading) w) = Ok tt.
Proof. rewrite guarded_visit. by destruct (body w) as [[[]|thrown] w']. Qed.

(** The traversal inside its [try]: it returns when the listing does and
    it throws what the listing throws. *)
Lemma guarded_traversal_returns host root (body : string → M unit)
  (heading : string → string) w :
  fst (tryCatch
         (visit host root (λ path, tryCatch (body path) (Faults.report error (heading path))))
         (λ thrown, Faults.report fatal "❌ Fatal error starting file traversal:" thrown;;
                    throw thrown) w)
  = match listFiles host root (files w) with
    | Ok _ => Ok tt
    | Throw thrown => Throw thrown
    end.
Proof.
  destruct (listFiles host root (files w)) as [paths|thrown] eqn:Hlist.
  - unfold tryCatch at 1, visit. rewrite Hlist.
    pose proof (forEach_returns paths
                  (λ path, tryCatch (body path) (Faults.report error (heading path))) w
                  (λ path w', guarded_visitor_returns (body path) (heading path) w'))
      as Hrun.
    by destruct (forEach paths _ w) as [[[]|thrown] w'].
  - by rewrite (traversal_fault host root _ thrown).
Qed.

(** The styles block on the text that the tree holds, when no path of a
    style file is a directory: every index that it hands to the recorder
    lies within that text. *)
Lemma migrateStyles_returns host p content d w :
  files w !! p = Some content →
  (∀ value, Styles.getDecoratorPropertyValue d "styles" = Some value →
            StylesSplice.stylesEmittable (Path.dirname p) (Path.basename p ".ts") 0
              (length (StylesSplice.stylesOf value)) (files w) = true) →
  ∃ w', Styles.migrateStyles host p content d w = (Ok tt, w').
Proof.
  intros Hfile Hfree. unfold Styles.migrateStyles.
  destruct (hasProperty d "styleUrls"); [by eexists|].
  destruct (Styles.getDecoratorPropertyValue d "styles") as [value|]; [|by eexists].
  specialize (Hfree value eq_refl).
  destruct (getDecoratorPropertyNode d "styles") as [node|]; [|by eexists].
  unfold mbind, M_bind, bind, tree_beginUpdate. rewrite Hfile.
  destruct (Styles.removalRange content node) as [rs re] eqn:Hrange.
  apply GuardFacts.styles_removalRange_start in Hrange as [Hrs ->].
  destruct (Nat.ltb_spec rs (String.length content)); [|by eexists].
  destruct (Nat.leb_spec (Nat.min (String.length content) (ts.getEnd node))
              (String.length content)); [|lia].
  cbn [andb].
  assert (∀ r, original r = content →
            ∃ r', recorder_remove host r rs
                    (Nat.min (String.length content) (ts.getEnd node) - rs) w = (Ok r', w)
                  ∧ original r' = content ∧ recorderPath r' = recorderPath r) as Hremove.
  { intros r Hr. unfold recorder_remove, assertIndex, bind, ret, throw. rewrite Hr.
    destruct (Nat.ltb_spec (String.length content) rs); [lia|].
    destruct (Nat.eqb _ 0); [by eexists|].
    destruct (Nat.ltb_spec (String.length content)
                (rs + (Nat.min (String.length content) (ts.getEnd node) - rs))); [lia|].
    by eexists. }
  destruct (Hremove {| recorderPath := p; original := content;
                       removals := []; insertions := [] |} eq_refl)
    as (r' & -> & Hr' & Hpath).
  cbn [recorderPath] in Hpath.
  assert (∀ w1 text, files w1 !! p = Some content →
            ∃ w2, (recorder_insertLeft host r' rs text
                     ≫= λ recorder, tree_commitUpdate host recorder) w1 = (Ok tt, w2))
    as Hfinish.
  { intros w1 text Hfile1. unfold mbind, M_bind, bind.
    rewrite RecorderSteps.recorder_insertLeft_within by (rewrite Hr'; lia).
    rewrite RecorderSteps.tree_commitUpdate_current
      by (cbn [recorderPath original]; by rewrite Hpath, Hr').
    by eexists. }
  destruct value as [style|styles]; cbn [StylesSplice.stylesOf length] in Hfree.
  - rewrite StylesFacts.stylesEmittable_cons in Hfree.
    apply andb_true_iff in Hfree as [Hfirst _].
    rewrite createScssFile_spec by done.
    apply Hfinish.
    destruct (files w !! Styles.scssFilePath _ _ 0) eqn:Hscss; [done|].
    cbn [files]. rewrite lookup_insert_ne; [done|congruence].
  - destruct (StylesFacts.createScssFiles_run host (Path.dirname p) (Path.basename p ".ts")
                styles 0 w) as (w1 & -> & Hfiles);
      [apply PathFacts.basename_slash_free|done|].
    apply Hfinish. rewrite Hfiles.
    eapply lookup_weaken; [done|apply StylesFacts.emittedStyles_subseteq].
Qed.

End ReturnFacts.

Module UnitFacts.
Import Helpers Layout Units StringFacts PathFacts IndexFacts LayoutFacts StylesFacts.

(** The external file of a unit is another file than the unit. *)
Lemma htmlFilePath_ne p :
  Js.endsWith p ".component.ts" = true → Index.htmlFilePath p ≠ p.
Proof. intros Hends Heq. by rewrite <- Heq, htmlFilePath_not_candidate in Hends. Qed.

(** What a visit of index.ts leaves of a laid-out unit. *)
Lemma index_layout host p w f es1 e es2 v :
  templateUnit host p w f es1 e es2 v →
  ∃ w', Index.visitFile host p w = (Ok tt, w')
        ∧ files w' = <[p := Index.rewritten p (fileText f) (decorator f) (memberNode f es1 e)]>
                       (Index.emitted (Index.htmlFilePath p) v (files w)).
Proof.
  intros (Hends & Hfile & Hparse & Hes & Hurl & Htemplate & Hkind & Hfree).
  eexists. split.
  - apply (visitFile_processing host p w (fileText f) (decorator f) v (memberNode f es1 e));
      [done| | |done].
    + by apply (decision_layout host p f es1 e es2 v).
    + rewrite (fileText_split f es1 e es2) by done. by apply cut_within.
  - done.
Qed.

Lemma emitted_html p v (tree : gmap string string) new :
  Js.endsWith p ".component.ts" = true →
  <[p := new]> (Index.emitted (Index.htmlFilePath p) v tree) !! Index.htmlFilePath p
  = Some (default v (tree !! Index.htmlFilePath p)).
Proof.
  intros Hends. rewrite lookup_insert_ne by (by apply not_eq_sym, htmlFilePath_ne).
  rewrite emitted_lookup. by rewrite decide_True.
Qed.

End UnitFacts.

(** ** Properties of the places of the external files and of the emitter *)

Section PlaceProperties.
Import Helpers StringFacts PathFacts ScssFacts PlaceFacts StylesLayoutFacts.

(** X3. The external files are no units: the path of the HTML file and the
    paths of the style files never end with [.component.ts], so the
    emitter never writes a file that the visitor would take for a unit,
    and never the unit itself. *)
Theorem external_files_are_no_units p index :
  Js.endsWith (Index.htmlFilePath p) ".component.ts" = false
  ∧ Js.endsWith (Styles.scssFilePath (Path.dirname p) (Path.basename p ".ts") index)
      ".component.ts" = false.
Proof.
  split; [apply htmlFilePath_not_candidate|].
  apply scssFilePath_not_candidate, basename_slash_free.
Qed.

(** X4. For a unit [name.ts] in the directory with the segments [dirs] of an
    absolute normal path, the HTML file is [name.html] in the same
    directory and the inserted reference names it relative to that
    directory. *)
Theorem html_file_lies_beside_the_unit dirs name :
  Forall Path.regular dirs → Path.hasSlash name = false → name ≠ "" →
  Index.htmlFilePath (Paths.absolute (dirs ++ [name +:+ ".ts"]))
  = Paths.absolute (dirs ++ [name +:+ ".html"])
  ∧ Index.newTemplateUrlProperty (Paths.absolute (dirs ++ [name +:+ ".ts"]))
    = "templateUrl: './" +:+ name +:+ ".html'".
Proof.
  intros Hdirs Hslash Hname.
  assert (Index.htmlFileName (Paths.absolute (dirs ++ [name +:+ ".ts"])) = name +:+ ".html")
    as Hfile by (unfold Index.htmlFileName; by rewrite basename_absolute).
  split.
  - unfold Index.htmlFilePath. rewrite Hfile.
    apply join_dirname_absolute;
      [done|apply regular_with_extension; (done || (simpl; lia))..].
  - unfold Index.newTemplateUrlProperty. by rewrite Hfile, !str_app_assoc.
Qed.

Lemma html_file_lies_beside_the_unit_witness :
  Index.htmlFilePath "/src/app/hero.component.ts" = "/src/app/hero.component.html"
  ∧ Index.newTemplateUrlProperty "/src/app/hero.component.ts"
    = "templateUrl: './hero.component.html'".
Proof.
  apply (html_file_lies_beside_the_unit ["src"; "app"] "hero.component").
  - repeat constructor; done.
  - reflexivity.
  - done.
Defined.

(** X5. For a unit [name.ts] in the directory with the segments [dirs]
    of an absolute normal path, the file of the style with the index
    [index] is [name.scss] for the first style and [name-(index+1).scss]
    for the others, in the directory of the unit. *)
Theorem style_files_lie_beside_the_unit dirs name index :
  Forall Path.regular dirs → Path.hasSlash name = false → name ≠ "" →
  let p := Paths.absolute (dirs ++ [name +:+ ".ts"]) in
  Styles.scssFilePath (Path.dirname p) (Path.basename p ".ts") index
  = Paths.absolute
      (dirs ++ [if Nat.eqb index 0 then name +:+ ".scss"
                else name +:+ "-" +:+ pretty (index + 1) +:+ ".scss"]).
Proof.
  intros Hdirs Hslash Hname p. unfold p, Styles.scssFilePath.
  rewrite basename_absolute by done.
  change (if Nat.eqb index 0 then _ else _) with (Styles.scssFileName name index).
  apply join_dirname_absolute;
    [done|apply regular_with_extension; (done || (simpl; lia))|].
  by apply scssFileName_regular.
Qed.

Lemma style_files_lie_beside_the_unit_witness :
  Styles.scssFilePath (Path.dirname "/src/app/hero.component.ts")
    (Path.basename "/src/app/hero.component.ts" ".ts") 2
  = "/src/app/hero.component-3.scss".
Proof.
  apply (style_files_lie_beside_the_unit ["src"; "app"] "hero.component" 2).
  - repeat constructor; done.
  - reflexivity.
  - done.
Defined.

End PlaceProperties.

Section EmitterProperties.
Import Helpers StringFacts PathFacts ScssFacts StylesFacts StylesSplice.

(** X6. [createScssFile] mapped over the styles of an array, with a base
    name that has no separator. When the path of every style file holds a
    file or is no directory of the tree, the map returns: it gives one
    relative path per style, in the order of the styles, named by the
    index of the style, and every file that existed before is still there
    with its content. When one of those paths is a directory, the map
    throws. *)
Theorem createScssFiles_gives_one_path_per_style host dir base styles index w :
  Path.hasSlash base = false →
  (stylesEmittable dir base index (length styles) (files w) = true →
   ∃ w', Styles.createScssFiles host dir base styles index w
         = (Ok ((λ i, "./" +:+ Styles.scssFileName base i) <$> seq index (length styles)),
            w')
         ∧ files w ⊆ files w')
  ∧ (stylesEmittable dir base index (length styles) (files w) = false →
     ∃ thrown w', Styles.createScssFiles host dir base styles index w = (Throw thrown, w')).
Proof.
  intros Hbase. split; intros Hfree.
  - destruct (createScssFiles_run host dir base styles index w) as (w' & Hrun & Hfiles);
      [done..|].
    exists w'. split; [done|]. rewrite Hfiles. apply emittedStyles_subseteq.
  - by apply createScssFiles_directory.
Qed.

Lemma createScssFiles_gives_one_path_per_style_witness :
  (∃ w', Styles.createScssFiles (Examples.tableHost [] []) "/src" "x.component"
           ["a{}"; "b{}"] 0 (Examples.worldOf [])
         = (Ok ["./x.component.scss"; "./x.component-2.scss"], w'))
  ∧ (∃ thrown w',
       Styles.createScssFiles (Examples.tableHost [] []) "/src" "x.component"
         ["a{}"; "b{}"] 0 (Examples.worldOf [("/src/x.component-2.scss/keep", "")])
       = (Throw thrown, w')).
Proof.
  split.
  - destruct (createScssFiles_gives_one_path_per_style (Examples.tableHost [] [])
                "/src" "x.component" ["a{}"; "b{}"] 0 (Examples.worldOf []))
      as [Hreturns _]; [reflexivity|].
    destruct (Hreturns eq_refl) as (w' & Hrun & _). exists w'. exact Hrun.
  - destruct (createScssFiles_gives_one_path_per_style (Examples.tableHost [] [])
                "/src" "x.component" ["a{}"; "b{}"] 0
                (Examples.worldOf [("/src/x.component-2.scss/keep", "")]))
      as [_ Hthrows]; [reflexivity|].
    exact (Hthrows eq_refl).
Defined.

(** X7. Every style of the array has a file of its own: when the path of
    every style file holds a file or is no directory of the tree, then
    after the map the file of the style at the position [i] holds the
    text of that style, or what it held before if the path existed. *)
Theorem createScssFiles_writes_each_style_to_its_file
  host dir base styles index w i style :
  Path.hasSlash base = false →
  stylesEmittable dir base index (length styles) (files w) = true →
  styles !! i = Some style →
  files (snd (Styles.createScssFiles host dir base styles index w))
    !! Styles.scssFilePath dir base (index + i)
  = Some (default style (files w !! Styles.scssFilePath dir base (index + i))).
Proof.
  intros Hbase Hfree Hi.
  destruct (createScssFiles_run host dir base styles index w) as (w' & Hrun & Hfiles);
    [done..|].
  rewrite Hrun. cbn [snd]. rewrite Hfiles. by apply emittedStyles_lookup.
Qed.

Lemma createScssFiles_writes_each_style_to_its_file_witness :
  files (snd (Styles.createScssFiles (Examples.tableHost [] []) "/src" "x.component"
                ["a{}"; "b{}"; "c{}"] 0 (Examples.worldOf [])))
    !! "/src/x.component-3.scss"
  = Some "c{}".
Proof.
  apply (createScssFiles_writes_each_style_to_its_file (Examples.tableHost [] [])
           "/src" "x.component" ["a{}"; "b{}"; "c{}"] 0 (Examples.worldOf []) 2 "c{}");
    reflexivity.
Defined.

End EmitterProperties.

(** ** Properties of the splices on laid-out units *)

Section SpliceProperties.
Import Helpers Layout Units StringFacts PathFacts IndexFacts LayoutFacts StylesFacts UnitFacts.
Import GuardedFacts GuardedLayoutFacts StylesLayoutFacts StylesSplice.

(** X8. index.ts on a [template] member that a separator follows, in a block
    with more than one member, in any file that the parser reads with
    this block in its first decorated class (imports and other statements
    included) and whose HTML path is no directory: the unit becomes the same file with the
    [templateUrl] reference in the place of the member, every other
    member and every separator where it was; the external file holds the
    template text, or what it held if it existed. *)
Theorem index_replaces_a_member_before_a_separator host p w f es1 e es2 v :
  templateUnit host p w f es1 e es2 v →
  1 < length (entries (block f)) →
  es2 ≠ [] ∨ trailingComma (block f) = true →
  Js.allWhiteSpace (gap e) = true →
  ∃ w', Index.visitFile host p w = (Ok tt, w')
        ∧ files w' !! p = Some (fileText (withEntries f (es1 ++ Layout.reference p "" :: es2)))
        ∧ files w' !! Index.htmlFilePath p
          = Some (default v (files w !! Index.htmlFilePath p)).
Proof.
  intros Hunit Hcount Hsep Hgap.
  destruct (index_layout _ _ _ _ _ _ _ _ Hunit) as (w' & Hvisit & Hfiles).
  destruct Hunit as (Hends & Hfile & Hparse & Hes & Hurl & Htemplate & Hkind & Hfree).
  destruct (splice_before_separator host p w f es1 e es2 v) as (w'' & Hvisit' & Hp);
    [done..|].
  assert (w'' = w') as -> by congruence.
  exists w'. split_and!; [done..|]. rewrite Hfiles. by apply emitted_html.
Qed.

Lemma index_replaces_a_member_before_a_separator_witness :
  let unit := Samples.withImport Examples.templateFirst in
  let host := Samples.importingHost [unit] ["/x.component.ts"] in
  let w := Examples.worldOf [("/x.component.ts", fileText unit)] in
  fileText unit
  = "import { Component } from '@angular/core';" +:+ Js.newline
      +:+ "@Component({ template: '<p>hi</p>', selector: 'x' })"
      +:+ Js.newline +:+ "export class X {}"
  ∧ ∃ w', Index.visitFile host "/x.component.ts" w = (Ok tt, w')
          ∧ files w' !! "/x.component.ts"
            = Some ("import { Component } from '@angular/core';" +:+ Js.newline
                      +:+ "@Component({templateUrl: './x.component.html', selector: 'x' })"
                      +:+ Js.newline +:+ "export class X {}")
          ∧ files w' !! "/x.component.html" = Some "<p>hi</p>".
Proof.
  intros unit host w. split; [reflexivity|].
  apply (index_replaces_a_member_before_a_separator host "/x.component.ts" w
           unit [] Examples.templateHi [Examples.selectorX] "<p>hi</p>").
  - split_and!; [reflexivity|reflexivity|by eexists|reflexivity
                |repeat constructor|constructor|by left|reflexivity].
  - vm_compute. lia.
  - by left.
  - reflexivity.
Defined.

(** X9. index.ts on a [template] member that is the only member of its
    block, in any file that the parser reads with this block and whose
    HTML path is no directory: the reference takes its place and the
    trivia after it stays. *)
Theorem index_replaces_the_only_member host p w f e v :
  templateUnit host p w f [] e [] v →
  ∃ w', Index.visitFile host p w = (Ok tt, w')
        ∧ files w' !! p = Some (fileText (withEntries f [Layout.reference p (gap e)]))
        ∧ files w' !! Index.htmlFilePath p
          = Some (default v (files w !! Index.htmlFilePath p)).
Proof.
  intros Hunit.
  destruct (index_layout _ _ _ _ _ _ _ _ Hunit) as (w' & Hvisit & Hfiles).
  destruct Hunit as (Hends & Hfile & Hparse & Hes & Hurl & Htemplate & Hkind & Hfree).
  destruct (splice_only_member host p w f [] e [] v) as (w'' & Hvisit' & Hp);
    [done..|by rewrite Hes|].
  assert (w'' = w') as -> by congruence.
  exists w'. split_and!; [done..|]. rewrite Hfiles. by apply emitted_html.
Qed.

Lemma index_replaces_the_only_member_witness :
  let host := Examples.tableHost [Samples.templateOnly] ["/x.component.ts"] in
  let w := Examples.worldOf [("/x.component.ts", fileText Samples.templateOnly)] in
  ∃ w', Index.visitFile host "/x.component.ts" w = (Ok tt, w')
        ∧ files w' !! "/x.component.ts"
          = Some ("@Component({templateUrl: './x.component.html' })"
                    +:+ Js.newline +:+ "export class X {}")
        ∧ files w' !! "/x.component.html" = Some "<p>hi</p>".
Proof.
  intros host w.
  apply (index_replaces_the_only_member host "/x.component.ts" w
           Samples.templateOnly Examples.templateHi "<p>hi</p>").
  split_and!; [reflexivity|reflexivity|by eexists|reflexivity
              |repeat constructor|constructor|by left|reflexivity].
Defined.

(** X10. The guarded revision on a [template] member that is not the first
    member of its block, in any file that the parser reads with this
    block and whose HTML path is no directory: the unit becomes the same file with the
    [templateUrl] reference, on a line of its own, in the place of the
    member; every other member and every separator stay where they were,
    and the external file holds the template text, or what it held if it
    existed. *)
Theorem guarded_replaces_a_later_member host p w f es1 e es2 v :
  templateUnit host p w f es1 e es2 v →
  es1 ≠ [] →
  ∃ w', Guarded.visitFile host p w = (Ok tt, w')
        ∧ files w' !! p
          = Some (fileText (withEntries f (es1 ++ GuardedSplice.reference p (gap e) :: es2)))
        ∧ files w' !! Guarded.htmlFilePath p
          = Some (default v (files w !! Guarded.htmlFilePath p)).
Proof.
  intros (Hends & Hfile & Hparse & Hes & Hurl & Htemplate & Hkind & Hfree) Hne.
  destruct (guarded_layout host p w f es1 e es2 v) as (w' & Hrun & Hfiles); [done..|].
  destruct (guarded_splice_after_separator host p w f es1 e es2 v)
    as (w'' & Hrun' & Hp); [done..|].
  assert (w'' = w') as -> by congruence.
  exists w'. unfold Guarded.visitFile, tryCatch. rewrite Hrun.
  split_and!; [done..|]. rewrite Hfiles. by apply emitted_html.
Qed.

Lemma guarded_replaces_a_later_member_witness :
  let host := Examples.tableHost [Examples.scenarioA] ["/src/x.component.ts"] in
  let w := Examples.worldOf [("/src/x.component.ts", fileText Examples.scenarioA)] in
  ∃ w', Guarded.visitFile host "/src/x.component.ts" w = (Ok tt, w')
        ∧ files w' !! "/src/x.component.ts"
          = Some ("@Component({ selector: 'x'," +:+ Js.newline
                    +:+ "  templateUrl: './x.component.html' })"
                    +:+ Js.newline +:+ "export class X {}")
        ∧ files w' !! "/src/x.component.html" = Some "<p>hi</p>".
Proof.
  intros host w.
  apply (guarded_replaces_a_later_member host "/src/x.component.ts" w
           Examples.scenarioA [Examples.selectorX] Examples.templateHi [] "<p>hi</p>").
  - split_and!; [reflexivity|reflexivity|by eexists|reflexivity
                |repeat constructor|repeat constructor|by left|reflexivity].
  - done.
Defined.

(** X11. The guarded revision on a [template] member that is the first member
    of its block, in any file that the parser reads with this block and
    whose HTML path is no directory: the inserted text starts with a separator, which then
    stands directly after the opening brace, in front of the
    reference. *)
Theorem guarded_writes_a_separator_before_a_first_member host p w f e es2 v :
  templateUnit host p w f [] e es2 v →
  ∃ w', Guarded.visitFile host p w = (Ok tt, w')
        ∧ files w' !! p
          = Some (before f +:+ "{" +:+ "," +:+ Js.newline +:+ "  "
                    +:+ Guarded.newTemplateUrlProperty p
                    +:+ gap e +:+ textAfter es2 +:+ blockEnd f).
Proof.
  intros (Hends & Hfile & Hparse & Hes & Hurl & Htemplate & Hkind & Hfree).
  destruct (guarded_splice_first_member host p w f [] e es2 v)
    as (w' & Hrun & Hp); [done..|].
  exists w'. unfold Guarded.visitFile, tryCatch. by rewrite Hrun.
Qed.

Lemma guarded_writes_a_separator_before_a_first_member_witness :
  let host := Examples.tableHost [Examples.templateFirst] ["/src/x.component.ts"] in
  let w := Examples.worldOf [("/src/x.component.ts", fileText Examples.templateFirst)] in
  ∃ w', Guarded.visitFile host "/src/x.component.ts" w = (Ok tt, w')
        ∧ files w' !! "/src/x.component.ts"
          = Some ("@Component({," +:+ Js.newline
                    +:+ "  templateUrl: './x.component.html', selector: 'x' })"
                    +:+ Js.newline +:+ "export class X {}").
Proof.
  intros host w.
  apply (guarded_writes_a_separator_before_a_first_member host "/src/x.component.ts" w
           Examples.templateFirst Examples.templateHi [Examples.selectorX] "<p>hi</p>").
  split_and!; [reflexivity|reflexivity|by eexists|reflexivity
              |repeat constructor|constructor|by left|reflexivity].
Defined.

(** X12. The styles block on a [styles] member that is not the first member
    of its block, in a unit without a [template] member, in any file that
    the parser reads with this block and in which no path of a style file
    is a directory: the unit becomes
    the same file with the [styleUrls] member, on a line of its own, in
    the place of the member, with one relative path per style in the
    order of the styles; every other member and every separator stay
    where they were, and the file of each style holds its text, or what
    it held if it existed. *)
Theorem styles_replaces_a_later_member host p w f es1 e es2 value :
  stylesUnit host p w f es1 e es2 value →
  es1 ≠ [] →
  ∃ w', Styles.visitFile host p w = (Ok tt, w')
        ∧ files w' !! p
          = Some (fileText
                    (withEntries f
                       (es1 ++ StylesSplice.reference p (length (stylesOf value)) (gap e)
                            :: es2)))
        ∧ ∀ i style,
            stylesOf value !! i = Some style →
            files w' !! Styles.scssFilePath (Path.dirname p) (Path.basename p ".ts") i
            = Some (default style
                      (files w !! Styles.scssFilePath (Path.dirname p)
                                    (Path.basename p ".ts") i)).
Proof.
  intros (Hends & Hfile & Hparse & Hes & Htemplate & Hurls & Hstyles & Hfree
          & initializer & Hkind & Hvalue) Hne.
  destruct (styles_splice_after_separator host p w f es1 e es2 initializer value)
    as (w' & Hrun & Hp & Hscss); [done..|].
  exists w'. unfold Styles.visitFile, tryCatch. by rewrite Hrun.
Qed.

Lemma styles_replaces_a_later_member_witness :
  let unit := Samples.withImport Samples.stylesArray in
  let host := Samples.importingHost [unit] ["/src/x.component.ts"] in
  let w := Examples.worldOf [("/src/x.component.ts", fileText unit)] in
  ∃ w', Styles.visitFile host "/src/x.component.ts" w = (Ok tt, w')
        ∧ files w' !! "/src/x.component.ts"
          = Some ("import { Component } from '@angular/core';" +:+ Js.newline
                    +:+ "@Component({ selector: 'x'," +:+ Js.newline
                    +:+ "  styleUrls: ['./x.component.scss', './x.component-2.scss'] })"
                    +:+ Js.newline +:+ "export class X {}")
        ∧ files w' !! "/src/x.component.scss" = Some "a{}"
        ∧ files w' !! "/src/x.component-2.scss" = Some "b{}".
Proof.
  intros unit host w.
  destruct (styles_replaces_a_later_member host "/src/x.component.ts" w
              unit [Examples.selectorX] Samples.stylesPair []
              (Styles.Texts ["a{}"; "b{}"]))
    as (w' & Hvisit & Hunit & Hscss).
  - split_and!; [reflexivity|reflexivity|by eexists|reflexivity
                |repeat constructor|repeat constructor|repeat constructor|reflexivity|].
    by eexists.
  - done.
  - exists w'. split; [exact Hvisit|]. split; [exact Hunit|]. split.
    + exact (Hscss 0 "a{}" eq_refl).
    + exact (Hscss 1 "b{}" eq_refl).
Defined.

End SpliceProperties.

(** ** Properties of the runs *)

Section RunProperties.
Import Helpers Frame Steps StepsFacts RunFacts ReturnFacts Agreement AgreementFacts RevisionFacts.
Import IndexFacts IndexRun.

(** X14. index.ts and its two copies never record a diagnostic of the level
    error or fatal: the only such message in them, the critical error for
    a [template] property whose node is missing, is never logged, because
    the node is found whenever the value was. *)
Theorem template_only_revisions_record_no_error host w :
  calm w (snd (Index.migrarTemplates host w))
  ∧ calm w (snd (Reviewed.migrarTemplates host w))
  ∧ calm w (snd (Verbose.migrarTemplates host w)).
Proof.
  assert (∀ visitor first final,
            (∀ path, within calm (visitor path) (λ _, True)) →
            within calm (log info first;; visit host "/" visitor;; log info final)
              (λ _, True)) as Hrun.
  { intros visitor first final Hvisitor.
    apply (within_bind _ calm_trans _ _ (λ _, True)); [by apply calm_log|intros _ _].
    apply (within_bind _ calm_trans _ _ (λ _, True)); [|intros _ _; by apply calm_log].
    by apply (within_visit _ calm_refl calm_trans). }
  split_and!.
  - exact (proj1 (Hrun _ _ _ (index_visitFile_calm host) w)).
  - exact (proj1 (Hrun _ _ _ (reviewed_visitFile_calm host) w)).
  - exact (proj1 (Hrun _ _ _ (verbose_visitFile_calm host) w)).
Qed.

(** X15. The visitor of index.ts throws in three cases only: the parser
    throws, and then the world is as it was; or the path of the HTML file
    is a directory of the tree, and then [tree.create] throws and the
    tree is as it was; or the parser reports a [template] node that ends
    beyond the text, and then the recorder refuses the removal after the
    external file has been emitted, which stays. The unit keeps its text
    in all three cases. *)
Theorem index_visit_throws_in_three_cases_only host p w thrown w' :
  Index.visitFile host p w = (Throw thrown, w') →
  ∃ content,
    files w !! p = Some content
    ∧ files w' !! p = Some content
    ∧ ((parse host p content = Throw thrown ∧ w' = w)
       ∨ ∃ d v node,
           Index.decision host p (Some content) = Index.Processing d v node
           ∧ ((Index.emittable (files w) (Index.htmlFilePath p) = false
               ∧ files w' = files w)
              ∨ (Index.emittable (files w) (Index.htmlFilePath p) = true
                 ∧ String.length content < ts.getEnd node
                 ∧ files w' = Index.emitted (Index.htmlFilePath p) v (files w)))).
Proof.
  intros Hvisit. pose proof (visitFile_idle host p w) as Hidle.
  destruct (Index.decision host p (files w !! p)) as [| |fault| | | |d v node] eqn:Hdec;
    try (rewrite Hidle in Hvisit; discriminate Hvisit).
  - rewrite Hidle in Hvisit. injection Hvisit as -> <-.
    unfold Index.decision in Hdec.
    destruct (Js.endsWith p ".component.ts"); [|done]. cbn [negb] in Hdec.
    destruct (files w !! p) as [content|] eqn:Hfile; [|done].
    exists content. split_and!; [done..|]. left. split; [|done].
    destruct (parse host p content); [|congruence].
    by repeat case_match.
  - destruct (files w !! p) as [content|] eqn:Hfile.
    2: { unfold Index.decision in Hdec. by destruct (negb _). }
    exists content. split; [done|].
    destruct (Index.emittable (files w) (Index.htmlFilePath p)) eqn:Hfree.
    2: { destruct (visitFile_blocked host p w content d v node) as [fault Hfault];
           [done..|].
         rewrite Hfault in Hvisit. injection Hvisit as -> <-. cbn [files].
         split; [done|]. right. exists d, v, node. split; [done|]. by left. }
    destruct (Nat.le_gt_cases (ts.getEnd node) (String.length content)) as [Hle|Hgt].
    + rewrite (visitFile_processing host p w content d v node) in Hvisit by done.
      discriminate Hvisit.
    + destruct (visitFile_refused host p w content d v node) as [fault Hfault]; [done..|].
      rewrite Hfault in Hvisit. injection Hvisit as -> <-. cbn [files]. split.
      * by apply emitted_keeps.
      * right. exists d, v, node. split; [done|]. by right.
Qed.

Lemma index_visit_throws_in_three_cases_only_witness :
  (let host := Samples.staleParserHost Examples.scenarioA in
   let w := Examples.worldOf [("/x.component.ts", "@Component({})")] in
   let thrown := ErrorInstance "Index 27 outside of range [0, 14]." None in
   let w' := snd (Index.visitFile host "/x.component.ts" w) in
   Index.visitFile host "/x.component.ts" w = (Throw thrown, w')
   ∧ ∃ content,
       files w !! "/x.component.ts" = Some content
       ∧ files w' !! "/x.component.ts" = Some content
       ∧ ((parse host "/x.component.ts" content = Throw thrown ∧ w' = w)
          ∨ ∃ d v node,
              Index.decision host "/x.component.ts" (Some content)
              = Index.Processing d v node
              ∧ ((Index.emittable (files w) (Index.htmlFilePath "/x.component.ts") = false
                  ∧ files w' = files w)
                 ∨ (Index.emittable (files w) (Index.htmlFilePath "/x.component.ts") = true
                    ∧ String.length content < ts.getEnd node
                    ∧ files w'
                      = Index.emitted (Index.htmlFilePath "/x.component.ts") v (files w)))))
  ∧ (let host := Examples.tableHost [Examples.scenarioA] ["/x.component.ts"] in
     let w := Examples.worldOf
                [("/x.component.ts", Layout.fileText Examples.scenarioA);
                 ("/x.component.html/index.html", "")] in
     let thrown := ErrorInstance
                     ("Path " +:+ quote +:+ "/x.component.html" +:+ quote +:+ " already exist.")
                     None in
     let w' := snd (Index.visitFile host "/x.component.ts" w) in
     Index.visitFile host "/x.component.ts" w = (Throw thrown, w')
     ∧ ∃ content,
         files w !! "/x.component.ts" = Some content
         ∧ files w' !! "/x.component.ts" = Some content
         ∧ ((parse host "/x.component.ts" content = Throw thrown ∧ w' = w)
            ∨ ∃ d v node,
                Index.decision host "/x.component.ts" (Some content)
                = Index.Processing d v node
                ∧ ((Index.emittable (files w) (Index.htmlFilePath "/x.component.ts") = false
                    ∧ files w' = files w)
                   ∨ (Index.emittable (files w) (Index.htmlFilePath "/x.component.ts") = true
                      ∧ String.length content < ts.getEnd node
                      ∧ files w'
                        = Index.emitted (Index.htmlFilePath "/x.component.ts") v
                            (files w))))).
Proof.
  split.
  - intros host w thrown w'.
    assert (Index.visitFile host "/x.component.ts" w = (Throw thrown, w')) as Hvisit
      by (vm_compute; reflexivity).
    split; [exact Hvisit|].
    exact (index_visit_throws_in_three_cases_only host "/x.component.ts" w
             thrown w' Hvisit).
  - intros host w thrown w'.
    assert (Index.visitFile host "/x.component.ts" w = (Throw thrown, w')) as Hvisit
      by (vm_compute; reflexivity).
    split; [exact Hvisit|].
    exact (index_visit_throws_in_three_cases_only host "/x.component.ts" w
             thrown w' Hvisit).
Defined.

(** X16. The two revisions with fault handling return exactly when the
    listing of /src returns, whatever happens in the units, and throw what
    the listing throws. *)
Theorem guarded_runs_return_when_the_listing_does host w :
  fst (Guarded.migrarTemplates host w)
  = match listFiles host "/src" (files w) with
    | Ok _ => Ok tt
    | Throw thrown => Throw thrown
    end
  ∧ fst (Styles.migrarTemplates host w)
    = match listFiles host "/src" (files w) with
      | Ok _ => Ok tt
      | Throw thrown => Throw thrown
      end.
Proof.
  split.
  - unfold Guarded.migrarTemplates.
    unfold mbind at 1, M_bind at 1, bind at 1, log at 1, emit.
    unfold mbind at 1, M_bind at 1, bind at 1.
    pose proof (guarded_traversal_returns host "/src" (Guarded.processFile host)
                  (λ path, "💥 Error processing file " +:+ path +:+ ":")
                  {| files := files w;
                     events := events w
                       ++ [Logged info
                             "🚀 Starting search for components with inline templates..."] |})
      as Hrun.
    cbn [files] in Hrun. unfold Guarded.visitFile.
    destruct (tryCatch _ _ _) as [[[]|thrown] w'];
      cbn [fst] in Hrun; by rewrite <- Hrun.
  - unfold Styles.migrarTemplates.
    unfold mbind at 1, M_bind at 1, bind at 1, log at 1, emit.
    unfold mbind at 1, M_bind at 1, bind at 1.
    pose proof (guarded_traversal_returns host "/src" (Styles.processFile host)
                  (λ path, "💥 Error processing file " +:+ path +:+ ":")
                  {| files := files w;
                     events := events w
                       ++ [Logged info
                             "🚀 Starting search for components with inline templates and styles..."] |})
      as Hrun.
    cbn [files] in Hrun. unfold Styles.visitFile.
    destruct (tryCatch _ _ _) as [[[]|thrown] w'];
      cbn [fst] in Hrun; by rewrite <- Hrun.
Qed.

(** X17. A run of either revision with fault handling only adds events; a
    file that exists when the run starts still exists when it ends, with
    the same content unless it is a [.component.ts] unit that the run
    rewrote, and files are created only at paths that did not exist. *)
Theorem guarded_runs_preserve_the_files host w :
  preserved w (snd (Guarded.migrarTemplates host w))
  ∧ preserved w (snd (Styles.migrarTemplates host w)).
Proof.
  assert (∀ visitor first final,
            (∀ path, within preserved (visitor path) (λ _, True)) →
            within preserved
              (log info first;;
               tryCatch (visit host "/src" visitor)
                 (λ thrown,
                    Faults.report fatal "❌ Fatal error starting file traversal:" thrown;;
                    throw thrown);;
               log info final)
              (λ _, True)) as Hrun.
  { intros visitor first final Hvisitor.
    apply (within_bind _ preserved_trans _ _ (λ _, True)); [apply preserved_log|intros _ _].
    apply (within_bind _ preserved_trans _ _ (λ _, True));
      [|intros _ _; apply preserved_log].
    apply (within_tryCatch _ preserved_trans).
    - by apply (within_visit _ preserved_refl preserved_trans).
    - intros thrown.
      apply (within_bind _ preserved_trans _ _ (λ _, True));
        [apply preserved_report|intros _ _].
      apply (within_throw _ preserved_refl). }
  split.
  - exact (proj1 (Hrun _ _ _ (guarded_visitFile_preserved host) w)).
  - exact (proj1 (Hrun _ _ _ (styles_visitFile_preserved host) w)).
Qed.

Lemma agree_run (m1 m2 : M unit) w :
  agree m1 m2 →
  fst (m1 w) = fst (m2 w)
  ∧ files (snd (m1 w)) = files (snd (m2 w))
  ∧ effects (events (snd (m1 w))) = effects (events (snd (m2 w))).
Proof. intros Hagree. by destruct (Hagree w w (alike_refl w)) as [? [??]]. Qed.

(** X18. The copy of index.ts with English messages and one more message
    per file, and index.ts: from any world they give the same result and
    the same tree, and they create and overwrite the same files in the
    same order; only the diagnostics differ. *)
Theorem reviewed_revision_agrees_with_index host w :
  fst (Reviewed.migrarTemplates host w) = fst (Index.migrarTemplates host w)
  ∧ files (snd (Reviewed.migrarTemplates host w)) = files (snd (Index.migrarTemplates host w))
  ∧ effects (events (snd (Reviewed.migrarTemplates host w)))
    = effects (events (snd (Index.migrarTemplates host w))).
Proof.
  apply agree_run. unfold Reviewed.migrarTemplates, Index.migrarTemplates.
  apply agree_log_l, agree_log_r.
  apply agree_bind; [|intros _; apply agree_log_log].
  apply agree_visit. apply reviewed_visitFile.
Qed.

(** X19. The revision that logs every step and index.ts: the same result, the
    same tree, the same files created and overwritten in the same order;
    only the diagnostics differ. *)
Theorem verbose_revision_agrees_with_index host w :
  fst (Verbose.migrarTemplates host w) = fst (Index.migrarTemplates host w)
  ∧ files (snd (Verbose.migrarTemplates host w)) = files (snd (Index.migrarTemplates host w))
  ∧ effects (events (snd (Verbose.migrarTemplates host w)))
    = effects (events (snd (Index.migrarTemplates host w))).
Proof.
  apply agree_run. unfold Verbose.migrarTemplates, Index.migrarTemplates.
  apply agree_log_l, agree_log_r.
  apply agree_bind; [|intros _; apply agree_log_log].
  apply agree_visit. apply verbose_visitFile.
Qed.

(** X20. The two blocks of the styles revision return whenever the tree
    holds the text that was parsed and no path of an external file (the
    HTML file, the file of a style that the block has) is a directory of
    the tree: every index handed to the recorder lies within that text
    and the emitter finds every path free or taken by a file. *)
Theorem styles_blocks_return_on_the_parsed_text host p content d w :
  files w !! p = Some content →
  Index.emittable (files w) (Styles.htmlFilePath p) = true →
  (∀ value, Styles.getDecoratorPropertyValue d "styles" = Some value →
            StylesSplice.stylesEmittable (Path.dirname p) (Path.basename p ".ts") 0
              (length (StylesSplice.stylesOf value)) (files w) = true) →
  (∃ w', Styles.migrateTemplate host p content d w = (Ok tt, w'))
  ∧ (∃ w', Styles.migrateStyles host p content d w = (Ok tt, w')).
Proof.
  intros Hfile Hhtml Hscss. split.
  - by apply GuardFacts.migrateTemplate_returns.
  - by apply migrateStyles_returns.
Qed.

Lemma styles_blocks_return_on_the_parsed_text_witness :
  let host := Examples.tableHost [Examples.templateAndStyles] ["/src/x.component.ts"] in
  let text := Layout.fileText Examples.templateAndStyles in
  let d := Layout.decorator Examples.templateAndStyles in
  let w := Examples.worldOf [("/src/x.component.ts", text)] in
  (∃ w', Styles.migrateTemplate host "/src/x.component.ts" text d w = (Ok tt, w'))
  ∧ (∃ w', Styles.migrateStyles host "/src/x.component.ts" text d w = (Ok tt, w')).
Proof.
  intros host text d w.
  apply (styles_blocks_return_on_the_parsed_text host "/src/x.component.ts" text d w).
  - reflexivity.
  - reflexivity.
  - intros value Hvalue. vm_compute in Hvalue. injection Hvalue as <-. reflexivity.
Defined.

End RunProperties.

(** ** The template block of the styles revision *)

Module TemplateBlockFacts.
Import Helpers StringFacts MatchFacts RecorderFacts IndexFacts RecorderSteps GuardedFacts GuardFacts.

Lemma styles_value_of_text d name v :
  getDecoratorPropertyValue d name = Some v →
  Styles.getDecoratorPropertyValue d name = Some (Styles.Text v).
Proof.
  unfold getDecoratorPropertyValue, Styles.getDecoratorPropertyValue.
  destruct (List.find _ _) as [property|]; [|done].
  destruct (initializerOf property); naive_solver.
Qed.

Lemma styles_removalRange_guarded content node :
  ts.getEnd node ≤ String.length content →
  Styles.removalRange content node = Guarded.removalRange content node.
Proof.
  intros Hlen. unfold Styles.removalRange, Guarded.removalRange.
  rewrite Nat.min_r, !Nat.max_0_l by done.
  destruct (Js.matchCommaBefore _); by rewrite ?Nat.max_0_l.
Qed.

(** The template block of the styles revision on a unit with a literal
    [template] and no [templateUrl] whose node lies within the text: what
    the guarded revision does. *)
Lemma migrateTemplate_processing host p w content d v node :
  files w !! p = Some content →
  Index.decision host p (Some content) = Index.Processing d v node →
  ts.getEnd node ≤ String.length content →
  ts.getFullStart node < String.length content →
  Index.emittable (files w) (Index.htmlFilePath p) = true →
  ∃ w', Styles.migrateTemplate host p content d w = (Ok tt, w')
        ∧ files w' = <[p := GuardedSplice.rewritten p content node]>
                       (Index.emitted (Index.htmlFilePath p) v (files w)).
Proof.
  intros Hfile (Hends & (nodes & Hparse & Hfind) & Hno & Hval & Hnode)%decision_processing
    Hlen Hstart Hfree.
  unfold Styles.migrateTemplate. rewrite Hno, (styles_value_of_text d "template" v Hval), Hnode.
  rewrite styles_removalRange_guarded by done.
  destruct (Guarded.removalRange content node) as [rs re] eqn:Hrange.
  destruct (guarded_removalRange_bounds _ _ _ _ Hrange) as [Hrs ->].
  assert (ts.getFullStart node ≤ ts.getStart node ∧ ts.getStart node ≤ ts.getEnd node) as [??]
    by (unfold ts.getEnd, ts.getStart; lia).
  unfold GuardedSplice.rewritten. rewrite Hrange.
  unfold mbind, M_bind, bind, tree_exists, tree_create, tree_beginUpdate, Index.emitted.
  cbn [files events Styles.contentOf].
  change (Styles.htmlFilePath p) with (Index.htmlFilePath p).
  assert (Index.htmlFilePath p ≠ p) as Hne.
  { intros Heq. by rewrite <- Heq, PathFacts.htmlFilePath_not_candidate in Hends. }
  destruct (Nat.ltb_spec rs (String.length content)); [|lia].
  destruct (Nat.leb_spec (ts.getEnd node) (String.length content)); [|lia].
  cbn [andb].
  destruct (files w !! Index.htmlFilePath p) as [h|] eqn:Hhtml.
  - rewrite bool_decide_true by eauto. unfold mret, M_ret, ret. cbn [files events]. rewrite Hfile.
    rewrite recorder_remove_within by (cbn [original]; lia). cbn [files events].
    rewrite recorder_insertLeft_within by (destruct (Nat.eqb _ _); cbn [original]; lia).
    rewrite tree_commitUpdate_current
      by (destruct (Nat.eqb _ _); cbn [recorderPath original files]; done).
    eexists. split; [reflexivity|]. cbn [files].
    destruct (Nat.eqb_spec (ts.getEnd node - rs) 0) as [Hz|Hz];
      cbn [recorderPath original removals insertions app];
      (rewrite (edited_splice p content _ rs (ts.getEnd node)); [done|lia|lia|lia|]);
      [right; split; [done|lia]|by left].
  - apply TreeFacts.emittable_true in Hfree as [[? Hsome]|Hdir]; [congruence|].
    rewrite bool_decide_false by (by intros [??]). cbn [files events]. rewrite Hhtml, Hdir.
    cbn [files events]. rewrite lookup_insert_ne, Hfile by done.
    rewrite recorder_remove_within by (cbn [original]; lia). cbn [files events].
    rewrite recorder_insertLeft_within by (destruct (Nat.eqb _ _); cbn [original]; lia).
    rewrite tree_commitUpdate_current
      by (destruct (Nat.eqb _ _); cbn [recorderPath original files];
          by rewrite lookup_insert_ne).
    eexists. split; [reflexivity|]. cbn [files].
    destruct (Nat.eqb_spec (ts.getEnd node - rs) 0) as [Hz|Hz];
      cbn [recorderPath original removals insertions app];
      (rewrite (edited_splice p content _ rs (ts.getEnd node)); [done|lia|lia|lia|]);
      [right; split; [done|lia]|by left].
Qed.

End TemplateBlockFacts.

Section TemplateBlockProperties.
Import Helpers IndexFacts GuardedFacts GuardFacts TemplateBlockFacts.

(** X13. On a unit with a literal [template], no [templateUrl] and nothing
    for the styles block to do, whose [template] node lies within the
    text and starts before its end, and whose HTML path holds a file or
    is no directory of the tree, the styles revision and the guarded
    revision leave the same tree: the same external file and the same
    text of the unit. *)
Theorem styles_revision_follows_the_guarded_splice host p w content d v node :
  files w !! p = Some content →
  Index.decision host p (Some content) = Index.Processing d v node →
  ts.getEnd node ≤ String.length content →
  ts.getFullStart node < String.length content →
  hasProperty d "styleUrls" = true ∨ Styles.getDecoratorPropertyValue d "styles" = None →
  Index.emittable (files w) (Index.htmlFilePath p) = true →
  fst (Styles.visitFile host p w) = Ok tt
  ∧ fst (Guarded.visitFile host p w) = Ok tt
  ∧ files (snd (Styles.visitFile host p w)) = files (snd (Guarded.visitFile host p w))
  ∧ files (snd (Guarded.visitFile host p w))
    = <[p := GuardedSplice.rewritten p content node]>
        (Index.emitted (Index.htmlFilePath p) v (files w)).
Proof.
  intros Hfile Hdec Hlen Hstart Hidle Hfree.
  destruct (processFile_processing host p w content d v node) as (w1 & Hguarded & Hfiles1);
    [done..|].
  destruct (migrateTemplate_processing host p w content d v node) as (w2 & Hstyles & Hfiles2);
    [done..|].
  pose proof Hdec as (Hends & (nodes & Hparse & Hfind) & _)%decision_processing.
  unfold Styles.visitFile, Guarded.visitFile, tryCatch.
  rewrite Hguarded, (processFile_blocks host p w content nodes d) by done.
  unfold mbind, M_bind, bind. rewrite Hstyles, migrateStyles_idle by done.
  cbn [fst snd]. by rewrite Hfiles1, Hfiles2.
Qed.

Lemma styles_revision_follows_the_guarded_splice_witness :
  let host := Examples.tableHost [Examples.scenarioA] ["/src/x.component.ts"] in
  let w := Examples.worldOf [("/src/x.component.ts", Layout.fileText Examples.scenarioA)] in
  fst (Styles.visitFile host "/src/x.component.ts" w) = Ok tt
  ∧ fst (Guarded.visitFile host "/src/x.component.ts" w) = Ok tt
  ∧ files (snd (Styles.visitFile host "/src/x.component.ts" w))
    = files (snd (Guarded.visitFile host "/src/x.component.ts" w))
  ∧ files (snd (Guarded.visitFile host "/src/x.component.ts" w))
    = <["/src/x.component.ts" :=
          GuardedSplice.rewritten "/src/x.component.ts" (Layout.fileText Examples.scenarioA)
            (Layout.memberNode Examples.scenarioA [Examples.selectorX] Examples.templateHi)]>
        (Index.emitted (Index.htmlFilePath "/src/x.component.ts") "<p>hi</p>" (files w)).
Proof.
  intros host w.
  apply (styles_revision_follows_the_guarded_splice host "/src/x.component.ts" w
           (Layout.fileText Examples.scenarioA) (Layout.decorator Examples.scenarioA)
           "<p>hi</p>"
           (Layout.memberNode Examples.scenarioA [Examples.selectorX] Examples.templateHi)).
  - reflexivity.
  - vm_compute. reflexivity.
  - vm_compute. lia.
  - vm_compute. lia.
  - right. reflexivity.
  - reflexivity.
Defined.

End TemplateBlockProperties.

(** ** The guarded revision: a second run *)

Module GuardedRunFacts.
Import Helpers StringFacts MatchFacts RecorderFacts IndexFacts PathFacts RecorderSteps GuardedFacts
  GuardFacts FaultFacts Rerun ReturnFacts GuardedRun.

Lemma guarded_visitFile_files host p w :
  files (snd (Guarded.visitFile host p w)) = files (snd (Guarded.processFile host p w)).
Proof.
  unfold Guarded.visitFile. rewrite guarded_visit.
  by destruct (Guarded.processFile host p w) as [[[]|thrown] w1].
Qed.

(** The body of the per-file [try] on a path that is not in the state
    [Processing] changes no file. *)
Lemma guarded_processFile_idle host p w :
  match Index.decision host p (files w !! p) with
  | Index.Processing _ _ _ => True
  | _ => files (snd (Guarded.processFile host p w)) = files w
  end.
Proof.
  unfold Index.decision, Guarded.processFile.
  unfold mbind, M_bind, bind, log, emit, tree_read, createSourceFile, lift.
  cbn [files events].
  destruct (Js.endsWith p _); [|done]. cbn [negb files events].
  destruct (files w !! p) as [content|]; [|done]. cbn [files events].
  destruct (parse host p content) as [nodes|thrown]; [|done]. cbn [files events].
  destruct (findComponentDecorator _) as [d|]; [|done]. cbn [files events].
  destruct (hasProperty d _); [done|]. cbn [files events].
  destruct (getDecoratorPropertyValue d _) as [v|] eqn:Hv; [|done].
  by destruct (propertyNode_of_value _ _ _ Hv) as [node ->].
Qed.

(** A unit in the state [Processing] whose node runs past the end of the
    text: the removal is refused, after the external file was emitted. *)
Lemma guarded_processFile_refused host p w content d v node :
  files w !! p = Some content →
  Index.decision host p (Some content) = Index.Processing d v node →
  String.length content < ts.getEnd node →
  Index.emittable (files w) (Index.htmlFilePath p) = true →
  files (snd (Guarded.processFile host p w))
  = Index.emitted (Index.htmlFilePath p) v (files w).
Proof.
  intros Hfile (Hends & (nodes & Hparse & Hfind) & Hno & Hval & Hnode)%decision_processing Hlen
    Hfree.
  unfold Guarded.processFile. rewrite Hends. cbn [negb].
  unfold mbind, M_bind, bind, log, emit, tree_read, createSourceFile, lift. cbn [files events].
  rewrite Hfile, Hparse. cbn [files events]. rewrite Hfind, Hno, Hval, Hnode. cbn [ts.text].
  destruct (Guarded.removalRange content node) as [rs re] eqn:Hrange.
  destruct (guarded_removalRange_bounds _ _ _ _ Hrange) as [Hrs ->].
  assert (ts.getFullStart node ≤ ts.getStart node ∧ ts.getStart node ≤ ts.getEnd node) as [??]
    by (unfold ts.getEnd, ts.getStart; lia).
  assert (∀ w1, ∃ thrown,
    recorder_remove host
      {| recorderPath := p; original := content; removals := []; insertions := [] |}
      rs (ts.getEnd node - rs) w1 = (Throw thrown, w1)) as Hremove.
  { intros w1. unfold recorder_remove, assertIndex, bind, ret, throw. cbn [original].
    destruct (Nat.ltb_spec (String.length content) rs); [by eexists|].
    destruct (Nat.eqb_spec (ts.getEnd node - rs) 0); [lia|].
    destruct (Nat.ltb_spec (String.length content) (rs + (ts.getEnd node - rs)));
      [by eexists|lia]. }
  unfold tree_exists, tree_create, tree_beginUpdate, Index.emitted. cbn [files events].
  change (Guarded.htmlFilePath p) with (Index.htmlFilePath p).
  assert (Index.htmlFilePath p ≠ p) as Hne.
  { intros Heq. by rewrite <- Heq, PathFacts.htmlFilePath_not_candidate in Hends. }
  destruct (files w !! Index.htmlFilePath p) as [h|] eqn:Hhtml.
  - rewrite bool_decide_true by eauto. cbn [files events]. rewrite Hfile. cbn [files events].
    match goal with |- context [recorder_remove host _ _ _ ?w1] =>
      destruct (Hremove w1) as [thrown ->] end.
    done.
  - apply TreeFacts.emittable_true in Hfree as [[? Hsome]|Hdir]; [congruence|].
    rewrite bool_decide_false by (by intros [??]). cbn [files events]. rewrite Hhtml, Hdir.
    cbn [files events]. rewrite lookup_insert_ne, Hfile by done. cbn [files events].
    match goal with |- context [recorder_remove host _ _ _ ?w1] =>
      destruct (Hremove w1) as [thrown ->] end.
    done.
Qed.

(** A unit in the state [Processing] whose external file cannot be
    emitted: the visit changes no file. *)
Lemma guarded_processFile_blocked host p w content d v node :
  files w !! p = Some content →
  Index.decision host p (Some content) = Index.Processing d v node →
  Index.emittable (files w) (Index.htmlFilePath p) = false →
  files (snd (Guarded.processFile host p w)) = files w.
Proof.
  intros Hfile Hdec Hblocked.
  destruct (processFile_blocked host p w content d v node) as (thrown & w' & -> & Hfiles);
    done.
Qed.

Lemma grows_refl tree : grows tree tree.
Proof. by split. Qed.

Lemma grows_emitted path v (tree : gmap string string) :
  Index.emittable tree path = true → grows tree (Index.emitted path v tree).
Proof.
  intros Hfree. split.
  - intros k Hk. unfold Index.emitted. destruct (tree !! path) eqn:Hpath; [done|].
    destruct (decide (k = path)) as [->|Hne]; [by rewrite Hpath in Hk; destruct Hk|].
    by rewrite lookup_insert_ne.
  - intros q. by apply TreeFacts.blocked_emitted.
Qed.

Lemma grows_overwrite (tree tree' : gmap string string) p c :
  is_Some (tree !! p) → grows tree tree' → grows tree (<[p := c]> tree').
Proof.
  intros Hp [Hkeys Hblocked]. split.
  - intros k Hk. destruct (decide (k = p)) as [->|Hne]; [by rewrite lookup_insert_eq|].
    rewrite lookup_insert_ne by done. by apply Hkeys.
  - intros q Hq. apply TreeFacts.blocked_overwrite; [by apply Hkeys|by apply Hblocked].
Qed.

Lemma stable_grows host (tree tree' : gmap string string) q c :
  grows tree tree' → stable host tree q c → stable host tree' q c.
Proof.
  intros [Hkeys Hblocked]. unfold stable.
  destruct (Index.decision host q (Some c)); try done.
  intros [?|[??]]; [left|right]; auto.
Qed.

Lemma stable_other host tree q c :
  Js.endsWith q ".component.ts" = false → stable host tree q c.
Proof. intros Hends. unfold stable. by rewrite candidate_decision. Qed.

(** A visit of a stable unit changes no file. *)
Lemma guarded_visitFile_stable host p w :
  (∀ c, files w !! p = Some c → stable host (files w) p c) →
  files (snd (Guarded.visitFile host p w)) = files w.
Proof.
  intros Hstable. rewrite guarded_visitFile_files.
  pose proof (guarded_processFile_idle host p w) as Hidle.
  destruct (files w !! p) as [c|] eqn:Hfile.
  - specialize (Hstable c eq_refl). unfold stable in Hstable.
    destruct (Index.decision host p (Some c)) as [| |thrown| | | |d v node] eqn:Hdec; try done.
    change (Guarded.htmlFilePath p) with (Index.htmlFilePath p) in Hstable.
    destruct Hstable as [Hblocked|[Hlen [h Hhtml]]].
    + by apply (guarded_processFile_blocked host p w c d v node).
    + rewrite (guarded_processFile_refused host p w c d v node);
        [|done|done|done|by eapply TreeFacts.emittable_exists].
      unfold Index.emitted. by rewrite Hhtml.
  - revert Hidle. unfold Index.decision. by destruct (Js.endsWith p _).
Qed.

Lemma guarded_forEach_stable host listed paths w :
  allStable host listed (files w) →
  (∀ q, q ∈ paths → Js.endsWith q ".component.ts" = true → q ∈ listed) →
  files (snd (forEach paths (Guarded.visitFile host) w)) = files w.
Proof.
  revert w. induction paths as [|p paths IH]; intros w Hall Hlisted; [done|].
  cbn [forEach]. unfold bind.
  assert (files (snd (Guarded.visitFile host p w)) = files w) as Hvisit.
  { apply guarded_visitFile_stable. intros c Hfile.
    destruct (Js.endsWith p ".component.ts") eqn:Hends; [|by apply stable_other].
    apply (Hall p c); [|done]. apply Hlisted; [by left|done]. }
  pose proof (guarded_visitor_returns (Guarded.processFile host p)
                ("💥 Error processing file " +:+ p +:+ ":") w) as Hreturns.
  fold (Guarded.visitFile host p) in Hreturns.
  destruct (Guarded.visitFile host p w) as [[[]|thrown] w1]; [|done].
  cbn [snd] in Hvisit. rewrite <- Hvisit. apply IH.
  - by rewrite Hvisit.
  - intros q Hq. apply Hlisted. by right.
Qed.

Section GuardedFirstRun.
Variables (host : Host) (tree0 : gmap string string) (listed : list string).
Hypothesis reparse :
  ∀ p content d v node,
    tree0 !! p = Some content →
    Index.decision host p (Some content) = Index.Processing d v node →
    ts.getEnd node ≤ String.length content →
    Index.decision host p (Some (GuardedSplice.rewritten p content node))
    = Index.AlreadyMigrated.

Lemma guarded_visitFile_pending p rest w :
  pending host tree0 listed (p :: rest) (files w) →
  pending host tree0 listed rest (files (snd (Guarded.visitFile host p w))).
Proof.
  intros Hpending q c Hlisted Hq.
  assert (∀ tree' : gmap string string,
            grows (files w) tree' →
            q ≠ p → files w !! q = Some c →
            (q ∈ rest ∧ tree0 !! q = Some c) ∨ stable host tree' q c) as Hother.
  { intros tree' Hgrows Hne Hq'.
    destruct (Hpending q c Hlisted Hq') as [[[->|?]%elem_of_cons ?]|?];
      [done|by left|right; by eapply stable_grows]. }
  rewrite guarded_visitFile_files in Hq |- *.
  pose proof (guarded_processFile_idle host p w) as Hidle.
  destruct (Index.decision host p (files w !! p)) as [| |thrown| | | |d v node] eqn:Hdec;
    try (rewrite Hidle in Hq |- *;
         destruct (decide (q = p)) as [->|Hne]; [|by apply Hother; [apply grows_refl|..]];
         right; unfold stable; rewrite Hq in Hdec; by rewrite Hdec).
  clear Hidle.
  destruct (files w !! p) as [content|] eqn:Hfile;
    [|by unfold Index.decision in Hdec; destruct (Js.endsWith p _)].
  pose proof Hdec as (Hends & _)%decision_processing.
  assert (Index.htmlFilePath p ≠ p) as Hhtml.
  { intros Heq. by rewrite <- Heq, htmlFilePath_not_candidate in Hends. }
  destruct (Index.emittable (files w) (Index.htmlFilePath p)) eqn:Hfree.
  2: { rewrite (guarded_processFile_blocked host p w content d v node) in Hq |- * by done.
       destruct (decide (q = p)) as [->|Hne]; [|by apply Hother; [apply grows_refl|..]].
       right. unfold stable. assert (c = content) as -> by congruence.
       rewrite Hdec. by left. }
  pose proof (grows_emitted (Index.htmlFilePath p) v (files w) Hfree) as Hemitted.
  destruct (decide (ts.getEnd node ≤ String.length content)) as [Hin|Hout].
  - destruct (processFile_processing host p w content d v node) as (w' & Hrun & Hfiles);
      [done..|].
    rewrite Hrun in Hq |- *. cbn [snd] in Hq |- *. rewrite Hfiles in Hq |- *.
    destruct (decide (q = p)) as [->|Hne].
    + rewrite lookup_insert_eq in Hq. injection Hq as <-. right.
      destruct (Hpending p content Hlisted Hfile) as [[_ Hstart]|Hstable].
      * unfold stable. by rewrite (reparse p content d v node).
      * unfold stable in Hstable. rewrite Hdec in Hstable.
        change (Guarded.htmlFilePath p) with (Index.htmlFilePath p) in Hstable.
        destruct Hstable as [?|[??]]; [congruence|lia].
    + rewrite lookup_insert_ne in Hq by done.
      assert (grows (files w)
                (<[p := GuardedSplice.rewritten p content node]>
                   (Index.emitted (Index.htmlFilePath p) v (files w)))) as Hgrows
        by (by apply grows_overwrite).
      unfold Index.emitted in Hq.
      destruct (files w !! Index.htmlFilePath p) eqn:Hexists; [by apply Hother|].
      destruct (decide (q = Index.htmlFilePath p)) as [->|Hne'].
      * right. apply stable_other, htmlFilePath_not_candidate.
      * rewrite lookup_insert_ne in Hq by done. by apply Hother.
  - rewrite (guarded_processFile_refused host p w content d v node) in Hq |- *
      by (done || lia).
    destruct (decide (q = p)) as [->|Hne].
    + right. unfold stable.
      assert (c = content) as ->.
      { revert Hq. unfold Index.emitted.
        destruct (files w !! Index.htmlFilePath p); [congruence|].
        rewrite lookup_insert_ne by done. congruence. }
      rewrite Hdec. right. split; [lia|].
      change (Guarded.htmlFilePath p) with (Index.htmlFilePath p).
      unfold Index.emitted. destruct (files w !! Index.htmlFilePath p) eqn:Hexists; [eauto|].
      by rewrite lookup_insert_eq.
    + unfold Index.emitted in Hq.
      destruct (files w !! Index.htmlFilePath p) eqn:Hexists; [by apply Hother|].
      destruct (decide (q = Index.htmlFilePath p)) as [->|Hne'].
      * right. apply stable_other, htmlFilePath_not_candidate.
      * rewrite lookup_insert_ne in Hq by done. by apply Hother.
Qed.

Lemma guarded_forEach_pending paths w :
  pending host tree0 listed paths (files w) →
  allStable host listed (files (snd (forEach paths (Guarded.visitFile host) w))).
Proof.
  revert w. induction paths as [|p paths IH]; intros w Hpending.
  - intros q c Hlisted Hq. destruct (Hpending q c Hlisted Hq) as [[Hin _]|?]; [|done].
    by apply elem_of_nil in Hin.
  - cbn [forEach]. unfold bind.
    pose proof (guarded_visitFile_pending p paths w Hpending) as Hnext.
    pose proof (guarded_visitor_returns (Guarded.processFile host p)
                  ("💥 Error processing file " +:+ p +:+ ":") w) as Hreturns.
    fold (Guarded.visitFile host p) in Hreturns.
    destruct (Guarded.visitFile host p w) as [[[]|thrown] w1]; [|done].
    by apply IH.
Qed.

End GuardedFirstRun.

(** The files after a run: those after the traversal, when the listing
    returns. *)
Lemma guarded_run_files host w :
  files (snd (Guarded.migrarTemplates host w))
  = match listFiles host "/src" (files w) with
    | Ok paths => files (snd (forEach paths (Guarded.visitFile host) (started w)))
    | Throw _ => files w
    end.
Proof.
  unfold Guarded.migrarTemplates.
  unfold mbind at 1 2, M_bind at 1 2, bind at 1 2, log at 1, emit at 1.
  fold (started w).
  destruct (listFiles host "/src" (files w)) as [paths|thrown] eqn:Hlist.
  - unfold tryCatch at 1, visit. cbn [started files]. rewrite Hlist.
    pose proof (forEach_returns paths (Guarded.visitFile host) (started w)
                  (λ path w', guarded_visitor_returns (Guarded.processFile host path) _ w'))
      as Hrun.
    by destruct (forEach paths _ (started w)) as [[[]|thrown] w'].
  - by rewrite (traversal_fault host "/src" _ thrown).
Qed.

End GuardedRunFacts.

Section RerunProperties.
Import Helpers GuardedRun GuardedRunFacts.

(** X21. A second run of the guarded revision on the result of a first one
    changes no file, also when units of the first run were reported with
    an error: when the second traversal lists no candidate unit that the
    first one did not list, and the parser finds the [templateUrl]
    property in the text of each unit that the first run rewrites. *)
Theorem guarded_second_run_changes_no_file host w0 :
  let w1 := snd (Guarded.migrarTemplates host w0) in
  (∀ paths1 paths2 q,
     listFiles host "/src" (files w0) = Ok paths1 →
     listFiles host "/src" (files w1) = Ok paths2 →
     q ∈ paths2 → Js.endsWith q ".component.ts" = true → q ∈ paths1) →
  (∀ p content d v node,
     files w0 !! p = Some content →
     Index.decision host p (Some content) = Index.Processing d v node →
     ts.getEnd node ≤ String.length content →
     Index.decision host p (Some (GuardedSplice.rewritten p content node))
     = Index.AlreadyMigrated) →
  files (snd (Guarded.migrarTemplates host w1)) = files w1.
Proof.
  intros w1 Hlisted Hreparse.
  rewrite guarded_run_files.
  destruct (listFiles host "/src" (files w1)) as [paths2|thrown] eqn:Hlist2; [|done].
  pose proof (guarded_run_files host w0) as Hfirst. fold w1 in Hfirst.
  destruct (listFiles host "/src" (files w0)) as [paths1|thrown] eqn:Hlist1.
  - transitivity (files (started w1)); [|done].
    apply (guarded_forEach_stable host paths1).
    + cbn [started files]. rewrite Hfirst.
      apply (guarded_forEach_pending host (files w0)); [done|].
      intros q c Hq Hfile. by left.
    + intros q Hq Hends. by apply (Hlisted paths1 paths2).
  - rewrite Hfirst in Hlist2. congruence.
Qed.

Lemma guarded_second_run_changes_no_file_witness :
  let p := "/src/x.component.ts" in
  let migrated :=
    Layout.withEntries Examples.scenarioA
      [Examples.selectorX; GuardedSplice.reference p ""] in
  let host := Examples.tableHost [Examples.scenarioA; migrated] [p] in
  let w0 := Examples.worldOf [(p, Layout.fileText Examples.scenarioA)] in
  let w1 := snd (Guarded.migrarTemplates host w0) in
  files w1 !! p = Some (Layout.fileText migrated)
  ∧ files (snd (Guarded.migrarTemplates host w1)) = files w1.
Proof.
  intros p migrated host w0 w1. split; [vm_compute; reflexivity|].
  apply (guarded_second_run_changes_no_file host w0).
  - intros paths1 paths2 q [= <-] [= <-] Hq _. exact Hq.
  - intros q content d v node Hq. unfold w0, Examples.worldOf in Hq. cbn in Hq.
    destruct (decide (q = p)) as [->|Hne];
      [|by rewrite lookup_insert_ne, lookup_empty in Hq].
    rewrite lookup_insert_eq in Hq. injection Hq as <-.
    intros Hdec _. vm_compute in Hdec. injection Hdec as <- <- <-.
    vm_compute. reflexivity.
Defined.

End RerunProperties.

(** ** The styles revision: the two blocks on one unit *)

Module StaleFacts.
Import Helpers StringFacts MatchFacts RecorderFacts IndexFacts PathFacts RecorderSteps
  GuardedFacts GuardFacts ScssFacts StylesSplice StylesFacts TemplateBlockFacts.

Lemma substringTo_prefix (n : nat) a b :
  n ≤ String.length a → Js.substringTo n (a +:+ b) = Js.substringTo n a.
Proof.
  revert a. induction n as [|n IH]; intros [|c a] Hn; simpl in *; try done; try lia.
  rewrite IH; [done|lia].
Qed.

Lemma substringFrom_prefix (n : nat) a b :
  n ≤ String.length a → Js.substringFrom n (a +:+ b) = Js.substringFrom n a +:+ b.
Proof.
  revert a. induction n as [|n IH]; intros [|c a] Hn; simpl in *; try done; try lia.
  apply IH. lia.
Qed.

Lemma substringTo_substringTo (n m : nat) s :
  n ≤ m → Js.substringTo n (Js.substringTo m s) = Js.substringTo n s.
Proof.
  revert m s. induction n as [|n IH]; intros [|m] [|c s] Hn; simpl; try done; try lia.
  rewrite IH; [done|lia].
Qed.

(** The range of the styles block: it starts at or before the node and
    ends at the end of the node or of the text. *)
Lemma styles_removalRange_order content node rs re :
  Styles.removalRange content node = (rs, re) →
  rs < String.length content →
  rs ≤ re ∧ re ≤ String.length content.
Proof.
  intros Hrange Hrs. apply styles_removalRange_start in Hrange as [Hstart ->].
  assert (ts.getFullStart node ≤ ts.getEnd node) by (unfold ts.getEnd, ts.getStart; lia).
  lia.
Qed.

(** The styles block when the tree holds [current] at the path of the
    unit, whatever text was parsed: the range of the parsed text is
    checked against the parsed text and staged on [current]. *)
Lemma migrateStyles_on host p content current d value node rs re w :
  files w !! p = Some current →
  hasProperty d "styleUrls" = false →
  Styles.getDecoratorPropertyValue d "styles" = Some value →
  getDecoratorPropertyNode d "styles" = Some node →
  Styles.removalRange content node = (rs, re) →
  rs < String.length content →
  (re ≤ String.length current →
   stylesEmittable (Path.dirname p) (Path.basename p ".ts") 0 (length (stylesOf value))
     (files w) = true →
   ∃ w', Styles.migrateStyles host p content d w = (Ok tt, w')
         ∧ files w'
           = <[p := Js.substringTo rs current
                      +:+ textToInsert (Path.basename p ".ts") (length (stylesOf value))
                      +:+ Js.substringFrom re current]>
               (emittedStyles (Path.dirname p) (Path.basename p ".ts")
                  (stylesOf value) 0 (files w)))
  ∧ (String.length current < re →
     ∃ thrown, Styles.migrateStyles host p content d w = (Throw thrown, w)).
Proof.
  intros Hfile Hno Hvalue Hnode Hrange Hrs.
  destruct (styles_removalRange_order _ _ _ _ Hrange Hrs) as [Hle Hre].
  unfold Styles.migrateStyles. rewrite Hno, Hvalue, Hnode.
  unfold mbind, M_bind, bind, tree_beginUpdate. rewrite Hfile, Hrange.
  destruct (Nat.ltb_spec rs (String.length content)); [|lia].
  destruct (Nat.leb_spec re (String.length content)); [|lia].
  cbn [andb]. split.
  - intros Hcurrent Hfree. rewrite recorder_remove_within by (cbn [original]; lia).
    destruct value as [style|styles]; cbn [stylesOf length] in Hfree |- *.
    + rewrite stylesEmittable_cons in Hfree. apply andb_true_iff in Hfree as [Hfirst _].
      rewrite createScssFile_spec by done.
      pose proof (createScssFile_files host (Path.dirname p) (Path.basename p ".ts") style 0 w
                    Hfirst) as Hfiles.
      rewrite createScssFile_spec in Hfiles by done. cbn [snd] in Hfiles.
      set (w1 := match files w !! Styles.scssFilePath _ _ 0 with Some _ => w | None => _ end)
        in Hfiles |- *.
      assert (files w1 !! p = Some current) as Hfile1.
      { rewrite Hfiles. eapply lookup_weaken; [done|apply emitted_subseteq]. }
      rewrite recorder_insertLeft_within by (destruct (Nat.eqb _ _); cbn [original]; lia).
      rewrite tree_commitUpdate_current
        by (destruct (Nat.eqb _ _); cbn [recorderPath original]; done).
      eexists. split; [reflexivity|]. cbn [files emittedStyles]. rewrite Hfiles.
      destruct (Nat.eqb_spec (re - rs) 0);
        cbn [recorderPath original removals insertions app];
        (rewrite (edited_splice p current _ rs re); [|lia|lia|lia|]);
        [by rewrite textToInsert_one|right; split; [done|lia]
        |by rewrite textToInsert_one|by left].
    + destruct (createScssFiles_run host (Path.dirname p) (Path.basename p ".ts") styles 0 w)
        as (w1 & Hrun & Hfiles); [apply basename_slash_free|done|].
      rewrite Hrun.
      assert (files w1 !! p = Some current) as Hfile1.
      { rewrite Hfiles. eapply lookup_weaken; [done|apply emittedStyles_subseteq]. }
      rewrite recorder_insertLeft_within by (destruct (Nat.eqb _ _); cbn [original]; lia).
      rewrite tree_commitUpdate_current
        by (destruct (Nat.eqb _ _); cbn [recorderPath original]; done).
      eexists. split; [reflexivity|]. cbn [files]. rewrite Hfiles.
      destruct (Nat.eqb_spec (re - rs) 0);
        cbn [recorderPath original removals insertions app];
        (rewrite (edited_splice p current _ rs re); [|lia|lia|lia|]);
        [done|right; split; [done|lia]|done|by left].
  - intros Hcurrent. unfold recorder_remove, assertIndex, bind, ret, throw. cbn [original].
    destruct (Nat.ltb_spec (String.length current) rs); [by eexists|].
    destruct (Nat.eqb_spec (re - rs) 0); [lia|].
    destruct (Nat.ltb_spec (String.length current) (rs + (re - rs))); [by eexists|lia].
Qed.

End StaleFacts.

Module BothFacts.
Import Helpers StringFacts MatchFacts RecorderFacts IndexFacts PathFacts RecorderSteps
  GuardedFacts GuardFacts FaultFacts ScssFacts StylesSplice StylesFacts TemplateBlockFacts
  StaleFacts.

(** The body of the styles revision on a unit on which the template
    block fires: the styles block runs in the world that the template
    block leaves, with the text that was parsed. *)
Lemma styles_processFile_after_template host p w content d v node :
  files w !! p = Some content →
  Index.decision host p (Some content) = Index.Processing d v node →
  ts.getEnd node ≤ String.length content →
  ts.getFullStart node < String.length content →
  Index.emittable (files w) (Index.htmlFilePath p) = true →
  ∃ w1, files w1 = <[p := GuardedSplice.rewritten p content node]>
                     (Index.emitted (Index.htmlFilePath p) v (files w))
        ∧ Styles.processFile host p w = Styles.migrateStyles host p content d w1.
Proof.
  intros Hfile Hdec Hlen Hstart Hfree.
  destruct (migrateTemplate_processing host p w content d v node) as (w1 & Htemplate & Hfiles1);
    [done..|].
  pose proof Hdec as (Hends & (nodes & Hparse & Hfind) & _)%decision_processing.
  exists w1. split; [done|].
  rewrite (processFile_blocks host p w content nodes d) by done.
  unfold mbind, M_bind, bind. by rewrite Htemplate.
Qed.

(** The style paths that the emitter finds free before the template
    block are free after it. *)
Lemma stylesEmittable_after_template p v current count (tree : gmap string string) :
  is_Some (tree !! p) →
  stylesEmittable (Path.dirname p) (Path.basename p ".ts") 0 count tree = true →
  stylesEmittable (Path.dirname p) (Path.basename p ".ts") 0 count
    (<[p := current]> (Index.emitted (Index.htmlFilePath p) v tree)) = true.
Proof.
  intros [c Hp] Hfree. apply stylesEmittable_overwrite.
  - exists c. eapply lookup_weaken; [done|apply emitted_subseteq].
  - apply stylesEmittable_emitted; [|done]. intros i. apply html_not_below_scss.
Qed.

End BothFacts.

Section BothProperties.
Import Helpers StringFacts IndexFacts GuardedFacts GuardFacts FaultFacts StylesSplice StaleFacts
  BothFacts.

(** X22. In the styles revision, on a unit on which both blocks fire and
    no path of an external file (the HTML file, the file of a style) is a
    directory of the tree, the styles block edits the text that the
    template block has committed, at the offsets of the text that was
    parsed: when the range ends within the committed text, the characters
    of the committed text at those offsets are replaced, whatever they
    are; when it ends beyond it, the recorder throws, the fault is
    caught, the unit keeps the edit of the template block and no style
    file is emitted. *)
Theorem styles_block_edits_the_committed_text
  host p w content d v node value stylesNode rs re :
  files w !! p = Some content →
  Index.decision host p (Some content) = Index.Processing d v node →
  ts.getEnd node ≤ String.length content →
  ts.getFullStart node < String.length content →
  hasProperty d "styleUrls" = false →
  Styles.getDecoratorPropertyValue d "styles" = Some value →
  getDecoratorPropertyNode d "styles" = Some stylesNode →
  Styles.removalRange content stylesNode = (rs, re) →
  rs < String.length content →
  Index.emittable (files w) (Index.htmlFilePath p) = true →
  stylesEmittable (Path.dirname p) (Path.basename p ".ts") 0 (length (stylesOf value))
    (files w) = true →
  let current := GuardedSplice.rewritten p content node in
  let tree1 := <[p := current]> (Index.emitted (Index.htmlFilePath p) v (files w)) in
  fst (Styles.visitFile host p w) = Ok tt
  ∧ files (snd (Styles.visitFile host p w))
    = if decide (re ≤ String.length current)
      then <[p := Js.substringTo rs current
                    +:+ textToInsert (Path.basename p ".ts") (length (stylesOf value))
                    +:+ Js.substringFrom re current]>
             (emittedStyles (Path.dirname p) (Path.basename p ".ts")
                (stylesOf value) 0 tree1)
      else tree1.
Proof.
  intros Hfile Hdec Hlen Hstart Hno Hvalue Hnode Hrange Hrs Hhtml Hscss current tree1.
  destruct (styles_processFile_after_template host p w content d v node)
    as (w1 & Hfiles1 & Hbody); [done..|].
  assert (files w1 !! p = Some current) as Hfile1 by (by rewrite Hfiles1, lookup_insert_eq).
  destruct (migrateStyles_on host p content current d value stylesNode rs re w1)
    as [Hin Hout]; [done..|].
  unfold Styles.visitFile. rewrite guarded_visit, Hbody.
  destruct (decide (re ≤ String.length current)) as [Hre|Hre].
  - destruct (Hin Hre) as (w2 & -> & Hfiles2).
    { rewrite Hfiles1. by apply stylesEmittable_after_template. }
    cbn [fst snd]. by rewrite Hfiles2, Hfiles1.
  - destruct Hout as [thrown ->]; [lia|]. done.
Qed.

Lemma styles_block_edits_the_committed_text_witness :
  let p := "/src/x.component.ts" in
  let host := Examples.tableHost [Examples.templateAndStyles] [p] in
  let w := Examples.worldOf [(p, Layout.fileText Examples.templateAndStyles)] in
  fst (Styles.visitFile host p w) = Ok tt
  ∧ files (snd (Styles.visitFile host p w)) !! p
    = Some ("@Component({," +:+ Js.newline
              +:+ "  templateUrl: './x.component.html', styles: 'a{}' })"
              +:+ Js.newline +:+ "export class X {}")
  ∧ files (snd (Styles.visitFile host p w)) !! "/src/x.component.scss" = None.
Proof.
  intros p host w.
  destruct (styles_block_edits_the_committed_text host p w
              (Layout.fileText Examples.templateAndStyles)
              (Layout.decorator Examples.templateAndStyles)
              "<section><h1>Ideas</h1><p>Your ideas will be displayed here.</p></section>"
              (Layout.memberNode Examples.templateAndStyles [] Examples.templateLong)
              (Styles.Text "a{}")
              (Layout.memberNode Examples.templateAndStyles [Examples.templateLong]
                 Examples.stylesLiteral)
              99 114) as [Hreturns Hfiles].
  - reflexivity.
  - vm_compute. reflexivity.
  - vm_compute. lia.
  - vm_compute. lia.
  - reflexivity.
  - reflexivity.
  - reflexivity.
  - vm_compute. reflexivity.
  - vm_compute. lia.
  - reflexivity.
  - reflexivity.
  - split; [exact Hreturns|]. rewrite Hfiles. split; vm_compute; reflexivity.
Defined.

(** X23. In the styles revision, on a unit on which both blocks fire and
    no path of an external file (the HTML file, the file of a style) is a
    directory of the tree: when the range of the styles block ends before
    the range of the template block starts, both members are replaced:
    the text of the
    unit becomes the parsed text with the [styleUrls] text in the place
    of the one range and the [templateUrl] text in the place of the
    other. *)
Theorem styles_before_template_are_both_replaced
  host p w content d v node value stylesNode rs re rs1 re1 :
  files w !! p = Some content →
  Index.decision host p (Some content) = Index.Processing d v node →
  ts.getEnd node ≤ String.length content →
  ts.getFullStart node < String.length content →
  hasProperty d "styleUrls" = false →
  Styles.getDecoratorPropertyValue d "styles" = Some value →
  getDecoratorPropertyNode d "styles" = Some stylesNode →
  Styles.removalRange content stylesNode = (rs, re) →
  Guarded.removalRange content node = (rs1, re1) →
  re ≤ rs1 →
  Index.emittable (files w) (Index.htmlFilePath p) = true →
  stylesEmittable (Path.dirname p) (Path.basename p ".ts") 0 (length (stylesOf value))
    (files w) = true →
  fst (Styles.visitFile host p w) = Ok tt
  ∧ files (snd (Styles.visitFile host p w)) !! p
    = Some (Js.substringTo rs content
              +:+ textToInsert (Path.basename p ".ts") (length (stylesOf value))
              +:+ Js.substringFrom re (Js.substringTo rs1 content)
              +:+ GuardedSplice.textToInsert p
              +:+ Js.substringFrom re1 content).
Proof.
  intros Hfile Hdec Hlen Hstart Hno Hvalue Hnode Hrange Hrange1 Hbefore Hhtml Hscss.
  destruct (guarded_removalRange_bounds _ _ _ _ Hrange1) as [Hrs1 ->].
  pose proof (styles_removalRange_start _ _ _ _ Hrange) as [Hrs Hre].
  assert (ts.getFullStart stylesNode ≤ ts.getEnd stylesNode)
    by (unfold ts.getEnd, ts.getStart; lia).
  assert (rs < String.length content) as Hin by lia.
  destruct (styles_processFile_after_template host p w content d v node)
    as (w1 & Hfiles1 & Hbody); [done..|].
  assert (String.length (Js.substringTo rs1 content) = rs1) as Hprefix
    by (apply length_substringTo; lia).
  destruct (migrateStyles_on host p content (GuardedSplice.rewritten p content node)
              d value stylesNode rs re w1) as [Hrun _];
    [by rewrite Hfiles1, lookup_insert_eq|done..|].
  destruct Hrun as (w2 & Hrun & Hfiles2).
  { unfold GuardedSplice.rewritten. rewrite Hrange1, str_length_app, Hprefix. lia. }
  { rewrite Hfiles1. apply stylesEmittable_after_template; [by eexists|done]. }
  unfold Styles.visitFile. rewrite guarded_visit, Hbody, Hrun. split; [done|].
  cbn [snd]. rewrite Hfiles2, lookup_insert_eq. f_equal.
  unfold GuardedSplice.rewritten. rewrite Hrange1.
  rewrite substringTo_prefix, substringTo_substringTo by lia.
  by rewrite substringFrom_prefix by lia.
Qed.

Lemma styles_before_template_are_both_replaced_witness :
  let p := "/src/x.component.ts" in
  let host := Examples.tableHost [Samples.stylesThenTemplate] [p] in
  let w := Examples.worldOf [(p, Layout.fileText Samples.stylesThenTemplate)] in
  fst (Styles.visitFile host p w) = Ok tt
  ∧ files (snd (Styles.visitFile host p w)) !! p
    = Some ("@Component({," +:+ Js.newline
              +:+ "  styleUrls: ['./x.component.scss']," +:+ Js.newline
              +:+ "  templateUrl: './x.component.html' })"
              +:+ Js.newline +:+ "export class X {}").
Proof.
  intros p host w.
  destruct (styles_before_template_are_both_replaced host p w
              (Layout.fileText Samples.stylesThenTemplate)
              (Layout.decorator Samples.stylesThenTemplate)
              "<p>hi</p>"
              (Layout.memberNode Samples.stylesThenTemplate [Examples.stylesLiteral]
                 Examples.templateHi)
              (Styles.Text "a{}")
              (Layout.memberNode Samples.stylesThenTemplate [] Examples.stylesLiteral)
              12 26 26 49) as [Hreturns Hfiles].
  - reflexivity.
  - vm_compute. reflexivity.
  - vm_compute. lia.
  - vm_compute. lia.
  - reflexivity.
  - reflexivity.
  - reflexivity.
  - vm_compute. reflexivity.
  - vm_compute. reflexivity.
  - lia.
  - reflexivity.
  - reflexivity.
  - split; [exact Hreturns|]. rewrite Hfiles. vm_compute. reflexivity.
Defined.

End BothProperties.
